(** * gmail-auto-bouncer: the bounce engine, embedded and verified

    A shallow embedding of [gmailautobouncer/gmail_auto_bouncer.py],
    [gmailautobouncer/utilities.py] and [gmailautobouncer/__main__.py].

    Pure helpers ([__get_header_field], [__process_message],
    [__construct_reply], [format_error]) are Rocq functions.  The code that
    talks to the Gmail service ([send_reply], [execute], [main]) lives in a
    small monad that threads the state of the outside world, records every
    remote call and the log records of these three functions in a trace (the
    debug and warning records that the pure helpers write on the way are
    left out), propagates Python exceptions and runs the unbounded [while]
    loop of [send_reply] on fuel.  The worker pool of [execute] is a
    scheduler-driven machine whose interleaving is chosen by the outside
    world.

    The configuration store of [gmailautobouncer/config_manager.py] runs in
    the same monad over its one dictionary; the constructor [__init__] runs
    over the class attributes, [main] over the class attributes and the
    outside world, and [__get_credentials] over the OAuth library and the
    token file. *)

From Stdlib Require Import ZArith Lia Ascii.
From stdpp Require Import gmap strings list pretty.

(** ** Python values used by the engine *)

(** The line feed of the Python literal ["\n"]. *)
Definition nl : string := String "010"%char "".

(** [sys.exc_info()] as far as the engine looks at it: the exception class
    and the exception's text.  [SystemExit] is what [sys.exit] raises. *)
Inductive exn :=
| SystemExit (code : option Z)
| Error (type_name : string) (message : string).

Definition exc_name (e : exn) : string :=
  match e with
  | SystemExit _ => "SystemExit"
  | Error n _ => n
  end.

Definition exc_str (e : exn) : string :=
  match e with
  | SystemExit None => ""
  | SystemExit (Some c) => pretty c
  | Error _ m => m
  end.

(** The result of a Python call: a value, or a raised exception. *)
Inductive outcome (A : Type) :=
| Returned (a : A)
| Raised (e : exn).
Arguments Returned {A} a.
Arguments Raised {A} e.

(** [fmt % args] for a format made of text and [%s] conversions.  Every call
    site of the engine passes as many arguments as the format has
    conversions; a conversion left without argument is dropped. *)
Fixpoint pyformat (fmt : string) (args : list string) : string :=
  match fmt with
  | String "%" (String "s" rest) =>
      match args with
      | a :: args' => a +:+ pyformat rest args'
      | [] => pyformat rest []
      end
  | String c rest => String c (pyformat rest args)
  | EmptyString => EmptyString
  end.

(** [str(v)] of a value that is a string or [None]. *)
Definition str_opt (v : option string) : string :=
  match v with
  | Some s => s
  | None => "None"
  end.

(** Truth value of a string or [None]: [None] and [""] are false. *)
Definition truthy (v : option string) : bool :=
  match v with
  | Some s => negb (String.eqb s "")
  | None => false
  end.

(** [utilities.format_error] *)
Definition format_error (error : exn) : string :=
  pyformat "%s %s" [exc_name error; exc_str error].

(** ** Data model *)

(** One entry of [message["payload"]["headers"]]. *)
Record header := Header { h_name : string; h_value : string }.

(** The dictionary [{"index": ..., "value": ...}] of [__get_header_field];
    [hf_value = None] is Python's [None]. *)
Record header_field := HeaderField { hf_index : Z; hf_value : option string }.

(** One entry of [message["payload"]["parts"]]: [body_data] is
    [part["body"]["data"]] when the key is there. *)
Record part := Part { body_data : option string }.

(** The message resource returned by [messages().get]; [parts = None] when
    the payload has no ["parts"] key. *)
Record message := Message {
  headers : list header;
  parts : option (list part);
  snippet : string
}.

(** One value of [reply_mapping]: every key is optional. *)
Record reply_attributes := ReplyAttributes {
  ra_prefix : option string;
  ra_to : option string;
  ra_multiple : option Z;
  ra_keep_reply : option bool
}.

(** The configuration properties the engine reads in [__init__]. *)
Record config := Config {
  reply_mapping : gmap string reply_attributes;
  default_prefix : string;
  pool_size : Z;
  delete_delay : Z
}.

(** The [MIMEText] reply before it is serialised: its text and the three
    header fields the engine sets.  A header set to [None] is [None] here. *)
Record reply_message := ReplyMessage {
  rm_body : string;
  rm_to : option string;
  rm_from : option string;
  rm_subject : string
}.

(** ** Header/body extractor *)

(** The loop of [__get_header_field], [index] being the loop counter. *)
Fixpoint get_header_field_from (index : Z) (headers : list header)
    (field_name : string) : header_field :=
  match headers with
  | [] => {| hf_index := -1; hf_value := None |}
  | info :: rest =>
      if String.eqb (h_name info) field_name
      then {| hf_index := index; hf_value := Some (h_value info) |}
      else get_header_field_from (index + 1) rest field_name
  end.

Definition get_header_field (headers : list header) (field_name : string)
    : header_field :=
  get_header_field_from 0 headers field_name.

Section Extractor.
(** [base64.urlsafe_b64decode(data).decode("utf-8")] is Python's library,
    not the repository's: it is a parameter, and may raise. *)
Variable b64_utf8_decode : string -> outcome string.

Definition process_message (m : message)
    : outcome (header_field * header_field * header_field * string) :=
  let date_field := get_header_field (headers m) "Date" in
  let to_field := get_header_field (headers m) "To" in
  let subject_field := get_header_field (headers m) "Subject" in
  match parts m with
  | Some [] => Raised (Error "IndexError" "list index out of range")
  | Some (Part (Some data) :: _) =>
      match b64_utf8_decode data with
      | Returned message_body =>
          Returned (date_field, to_field, subject_field, message_body)
      | Raised e => Raised e
      end
  | Some (Part None :: _) | None =>
      Returned (date_field, to_field, subject_field, snippet m)
  end.
End Extractor.

(** ** Reply builder *)

Definition construct_reply (cfg : config)
    (from_field date_field to_field subject_field : header_field)
    (message_body : string) (attrs : reply_attributes) : reply_message :=
  let prefix :=
    match ra_prefix attrs with
    | Some p => p
    | None => default_prefix cfg
    end in
  let metadata :=
    pyformat ("From:  %s" +:+ nl +:+ "Sent:  %s" +:+ nl +:+ "To:  %s" +:+ nl
              +:+ "Subject:  %s")
      [str_opt (hf_value from_field); str_opt (hf_value date_field);
       str_opt (hf_value to_field); str_opt (hf_value subject_field)] in
  {| rm_body := pyformat ("%s" +:+ nl +:+ nl +:+ "%s" +:+ nl +:+ nl +:+ "%s")
                  [prefix; metadata; message_body];
     rm_to := match ra_to attrs with
              | Some a => Some a
              | None => hf_value from_field
              end;
     rm_from := hf_value to_field;
     rm_subject := pyformat "Re:  %s" [str_opt (hf_value subject_field)] |}.

(** ** Policy resolver: the test of [execute] on the From field *)

Definition unmatched (cfg : config) (from_field : header_field) : bool :=
  (hf_index from_field <? 0)%Z
  || negb (truthy (hf_value from_field))
  || negb (match hf_value from_field with
           | Some v => bool_decide (is_Some (reply_mapping cfg !! v))
           | None => false
           end).

(** ** The outside world, traces and the engine monad *)

Inductive level := DEBUG | INFO | WARNING.

(** What a run does that can be seen from outside: log records, printed
    lines, the calls to the Gmail service and the pause of [time.sleep].
    The two [messages().delete] call sites of the source are told apart:
    [DeleteReply] is the one of [send_reply], [DeleteOriginal] the one that
    closes the loop body of [execute]. *)
Inductive event :=
| Log (lvl : level) (text : string)
| Print (text : string)
| ListMessages (label : string) (max_results : Z)
| GetMessage (id : string)
| SendMessage (raw : reply_message) (result : outcome string)
| Sleep (seconds : Z)
| DeleteReply (id : string) (result : outcome unit)
| DeleteOriginal (id : string) (result : outcome unit).

(** Everything outside the engine, as a deterministic machine over a state
    [W] that the proofs leave arbitrary: the Gmail service (every call may
    raise), the operating system's choice of the pool worker that moves
    next, the file system, the platform's clock and Python's decoder. *)
Record environment (W : Type) := Environment {
  acquire_service : W -> W * outcome unit;
  messages_list : string -> Z -> W -> W * outcome (option (list string));
  messages_get : string -> W -> W * outcome message;
  messages_send : reply_message -> W -> W * outcome string;
  messages_delete : string -> W -> W * outcome unit;
  next_worker : nat -> W -> W * nat;
  path_exists : string -> W -> bool;
  (** [time.sleep] on a length that is not negative: what it raises when
      the length is too long for the platform ([OverflowError] when the
      nanoseconds do not fit 64 bits, [OSError] when the deadline does not
      fit the clock), [None] when it sleeps *)
  sleep_refused : Z -> option exn;
  b64_utf8_decode : string -> outcome string
}.
Arguments acquire_service {W}.
Arguments messages_list {W}.
Arguments messages_get {W}.
Arguments messages_send {W}.
Arguments messages_delete {W}.
Arguments next_worker {W}.
Arguments path_exists {W}.
Arguments sleep_refused {W}.
Arguments b64_utf8_decode {W}.

(** A computation of the engine: from a state of the world to [None] when
    the fuel of a loop ran out, else to the new state, the events in the
    order they happened and the outcome. *)
Definition M (W A : Type) : Type := W -> option (W * list event * outcome A).

Definition ret {W A} (a : A) : M W A := fun w => Some (w, [], Returned a).

Definition raise {W A} (e : exn) : M W A := fun w => Some (w, [], Raised e).

Definition out_of_fuel {W A} : M W A := fun _ => None.

Definition bind {W A B} (m : M W A) (k : A -> M W B) : M W B := fun w =>
  match m w with
  | None => None
  | Some (w1, t1, Raised e) => Some (w1, t1, Raised e)
  | Some (w1, t1, Returned a) =>
      match k a w1 with
      | None => None
      | Some (w2, t2, r) => Some (w2, t1 ++ t2, r)
      end
  end.

(** [try: m except: h], the bare [except] of the source: it catches every
    exception; running out of fuel is not an exception. *)
Definition try_except {W A} (m : M W A) (h : exn -> M W A) : M W A := fun w =>
  match m w with
  | None => None
  | Some (w1, t1, Returned a) => Some (w1, t1, Returned a)
  | Some (w1, t1, Raised e) =>
      match h e w1 with
      | None => None
      | Some (w2, t2, r) => Some (w2, t1 ++ t2, r)
      end
  end.

Definition emit {W} (e : event) : M W unit := fun w => Some (w, [e], Returned tt).

#[global] Instance M_ret {W} : MRet (M W) := fun A => @ret W A.
#[global] Instance M_bind {W} : MBind (M W) := fun A B k m => @bind W A B m k.

Definition log {W} (lvl : level) (text : string) : M W unit := emit (Log lvl text).

Fixpoint for_each {W A} (xs : list A) (body : A -> M W unit) : M W unit :=
  match xs with
  | [] => ret tt
  | x :: xs' => body x ;; for_each xs' body
  end.

Section Engine.
Context {W : Type} (env : environment W) (cfg : config).

(** *** The calls on the service *)

Definition list_unread (label : string) : M W (option (list string)) := fun w =>
  let (w', r) := messages_list env label 100 w in
  Some (w', [ListMessages label 100], r).

Definition get_message (id : string) : M W message := fun w =>
  let (w', r) := messages_get env id w in
  Some (w', [GetMessage id], r).

Definition send_message (raw : reply_message) : M W string := fun w =>
  let (w', r) := messages_send env raw w in
  Some (w', [SendMessage raw r], r).

Definition delete_reply (id : string) : M W unit := fun w =>
  let (w', r) := messages_delete env id w in
  Some (w', [DeleteReply id r], r).

Definition delete_original (id : string) : M W unit := fun w =>
  let (w', r) := messages_delete env id w in
  Some (w', [DeleteOriginal id r], r).

(** [time.sleep(secs)]: Python refuses a negative length, and the platform
    the lengths that are too long for it. *)
Definition sleep (secs : Z) : M W unit :=
  if (secs <? 0)%Z
  then raise (Error "ValueError" "sleep length must be non-negative")
  else match sleep_refused env secs with
       | Some e => raise e
       | None => emit (Sleep secs)
       end.

(** The lengths that [time.sleep] takes. *)
Definition can_sleep (secs : Z) : Prop :=
  (0 <= secs)%Z /\ sleep_refused env secs = None.

(** The choice, by the world, of one of [n] workers that can move. *)
Definition choose (n : nat) : M W nat := fun w =>
  let (w', k) := next_worker env n w in
  Some (w', [], Returned k).

(** *** Dispatcher: [send_reply] *)

Definition not_sent_warning (e : exn) : M W unit :=
  log WARNING
    (pyformat "reply not sent, attempting again, error %s" [format_error e]).

(** One turn of the [while not success] loop: the [try] block and its
    handler; the result is the new value of [success]. *)
Definition send_attempt (raw_reply : reply_message) (keep_reply : bool)
    : M W bool :=
  try_except
    (reply ← send_message raw_reply;
     (if negb keep_reply
      then sleep (delete_delay cfg) ;; delete_reply reply
      else ret tt) ;;
     ret true)
    (fun e => not_sent_warning e ;; ret false).

Fixpoint send_loop (fuel : nat) (raw_reply : reply_message)
    (keep_reply : bool) : M W unit :=
  match fuel with
  | O => out_of_fuel
  | S fuel' =>
      success ← send_attempt raw_reply keep_reply;
      if success : bool then ret tt else send_loop fuel' raw_reply keep_reply
  end.

Definition send_reply (fuel : nat) (raw_reply : reply_message)
    (keep_reply : bool) (index : Z) : M W unit :=
  log DEBUG (pyformat "sending and deleting reply - %s" [pretty index]) ;;
  send_loop fuel raw_reply keep_reply ;;
  log DEBUG (pyformat "sent and deleted reply - %s" [pretty index]).

(** *** Dispatcher: the pool of [execute]

    [pool.starmap(self.send_reply, args)] runs one [send_reply] per
    argument tuple in worker processes.  A worker is at one of the points
    of [send_reply] where it can be preempted; a step takes it to the
    next such point. *)

Inductive progress :=
| Pending
| Sending
| Sleeping (reply : string)
| Deleting (reply : string)
| Finished.

(** An argument tuple [(service, raw_reply, keep_reply, i)]; the service
    handle is the world's. *)
Definition task : Type := reply_message * bool * Z.

Definition retry_on_error (m : M W progress) : M W progress :=
  try_except m (fun e => not_sent_warning e ;; ret Sending).

Definition finish (index : Z) : M W progress :=
  log DEBUG (pyformat "sent and deleted reply - %s" [pretty index]) ;;
  ret Finished.

Definition worker_step (t : task) (p : progress) : M W progress :=
  let '(raw_reply, keep_reply, index) := t in
  match p with
  | Pending =>
      log DEBUG (pyformat "sending and deleting reply - %s" [pretty index]) ;;
      ret Sending
  | Sending =>
      retry_on_error
        (reply ← send_message raw_reply;
         if negb keep_reply then ret (Sleeping reply) else finish index)
  | Sleeping reply =>
      retry_on_error (sleep (delete_delay cfg) ;; ret (Deleting reply))
  | Deleting reply =>
      retry_on_error (delete_reply reply ;; finish index)
  | Finished => ret Finished
  end.

(** A worker on its own, stepped until it is finished. *)
Fixpoint run_worker (fuel : nat) (t : task) (p : progress) : M W unit :=
  match p with
  | Finished => ret tt
  | _ =>
      match fuel with
      | O => out_of_fuel
      | S fuel' => p' ← worker_step t p; run_worker fuel' t p'
      end
  end.

Definition working (p : progress) : bool :=
  match p with
  | Sending | Sleeping _ | Deleting _ => true
  | Pending | Finished => false
  end.

Definition is_finished (p : progress) : bool :=
  match p with
  | Finished => true
  | _ => false
  end.

(** The number of workers inside a [send_reply]. *)
Definition busy (ws : list (task * progress)) : nat :=
  length (List.filter (fun tp => working tp.2) ws).

(** A started task can always move; a pending one only while fewer than
    [pool_size] processes are busy.  (The pool's chunking of the task list
    allows some of these schedules only.) *)
Definition can_move (ws : list (task * progress)) (p : progress) : bool :=
  match p with
  | Pending => (Z.of_nat (busy ws) <? pool_size cfg)%Z
  | Finished => false
  | _ => true
  end.

Definition movable (ws : list (task * progress)) : list nat :=
  List.filter
    (fun i => match ws !! i with
              | Some (_, p) => can_move ws p
              | None => false
              end)
    (seq 0 (length ws)).

(** The pool until every task is finished: the world picks the worker
    that moves. With no worker able to move the pool never returns. *)
Fixpoint run_pool (fuel : nat) (ws : list (task * progress)) : M W unit :=
  if forallb (fun tp => is_finished tp.2) ws then ret tt else
  match fuel with
  | O => out_of_fuel
  | S fuel' =>
      k ← choose (length (movable ws));
      match movable ws !! (k mod length (movable ws))%nat with
      | Some i =>
          match ws !! i with
          | Some (t, p) =>
              p' ← worker_step t p;
              run_pool fuel' (<[i := (t, p')]> ws)
          | None => out_of_fuel
          end
      | None => out_of_fuel
      end
  end.

(** [with NonDaemonicPool(processes=pool_size) as pool: pool.starmap(...)]:
    the constructor refuses fewer than one process; [starmap] returns when
    every task has. No task raises: [send_reply] catches everything. *)
Definition starmap_send_reply (fuel : nat) (tasks : list task) : M W unit :=
  if (pool_size cfg <? 1)%Z
  then raise (Error "ValueError" "Number of processes must be at least 1")
  else run_pool fuel (map (fun t => (t, Pending)) tasks).

(** [range(n)] *)
Definition range (n : Z) : list Z := map Z.of_nat (seq 0 (Z.to_nat n)).

(** *** Bounce orchestrator: [execute] *)

Definition lift {A} (r : outcome A) : M W A := fun w => Some (w, [], r).

(** The [if "multiple" in reply_attributes: ... else: ...] block of the
    loop body: the replies of one matched message. *)
Definition send_replies (fuel : nat) (raw_reply : reply_message)
    (attrs : reply_attributes) : M W unit :=
  let keep_reply := default false (ra_keep_reply attrs) in
  match ra_multiple attrs with
  | Some multiple =>
      log DEBUG (pyformat "Sending %s replies." [pretty multiple]) ;;
      starmap_send_reply fuel
        (map (fun i => (raw_reply, keep_reply, i)) (range multiple)) ;;
      log DEBUG (pyformat "Sent %s replies." [pretty multiple])
  | None => send_reply fuel raw_reply keep_reply 0
  end.

(** The body of [for message_id in results]. *)
Definition execute_message (fuel : nat) (message_id : string) : M W unit :=
  log DEBUG (pyformat "processing message ID %s" [message_id]) ;;
  message ← get_message message_id;
  let from_field := get_header_field (headers message) "From" in
  (if unmatched cfg from_field then
     log DEBUG
       (pyformat ("sender of unread message %s not found in reply mapping, "
                  +:+ "no action taken") [str_opt (hf_value from_field)])
   else
     match hf_value from_field ≫= (reply_mapping cfg !!.) with
     | None => raise (Error "KeyError" (str_opt (hf_value from_field)))
     | Some attrs =>
         log INFO
           (pyformat "sender of unread message %s found in reply mapping"
              [str_opt (hf_value from_field)]) ;;
         '(date_field, to_field, subject_field, message_body) ←
           lift (process_message (b64_utf8_decode env) message);
         send_replies fuel
           (construct_reply cfg from_field date_field to_field subject_field
              message_body attrs)
           attrs ;;
         delete_original message_id
     end) ;;
  log DEBUG (pyformat "processed message ID %s" [message_id]).

Definition execute (fuel : nat) : M W unit :=
  log INFO "executing automatic message bouncing" ;;
  (fun w => let (w', r) := acquire_service env w in Some (w', [], r)) ;;
  inbox_results ← list_unread "INBOX";
  let results := [] ++ default [] inbox_results in
  spam_results ← list_unread "SPAM";
  let results := results ++ default [] spam_results in
  for_each results (execute_message fuel) ;;
  log INFO "executed automatic message bouncing".
End Engine.

(** ** The command line: [__main__.main] *)

Section Main.
Context {W : Type} (env : environment W).

Definition print (text : string) : M W unit := emit (Print text).

(** [sys.exit()] with no argument. *)
Definition sys_exit {A} : M W A := raise (SystemExit None).

(** The exit status the interpreter gives the process: 0 when [main]
    returns and when [SystemExit] carries no code, the code when it
    carries one, 1 for any other uncaught exception. *)
Definition exit_status (r : outcome unit) : Z :=
  match r with
  | Returned _ => 0
  | Raised (SystemExit None) => 0
  | Raised (SystemExit (Some c)) => c
  | Raised (Error _ _) => 1
  end.

End Main.

(** ** Bookkeeping for the pool

    [owed t p] is what the worker of task [t] at point [p] has still to add
    to a count of events; [pool_debt] sums it over the pool. *)

Definition pool_debt (owed : task -> progress -> nat)
    (ws : list (task * progress)) : nat :=
  sum_list_with (fun tp => owed tp.1 tp.2) ws.

(** The debug records that open and close a [send_reply]. *)
Definition opening_record (index : Z) : event :=
  Log DEBUG (pyformat "sending and deleting reply - %s" [pretty index]).

Definition closing_record (index : Z) : event :=
  Log DEBUG (pyformat "sent and deleted reply - %s" [pretty index]).

Definition bit (b : bool) : nat := if b then 1 else 0.

(** A bound on the steps a worker has left when nothing fails.  (A worker
    that keeps its reply goes from [Sending] to [Finished]; the other points
    are given a rank for it all the same.) *)
Definition remaining (t : task) (p : progress) : nat :=
  if t.1.2 then
    match p with
    | Pending => 5
    | Sleeping _ => 4
    | Deleting _ => 3
    | Sending => 2
    | Finished => 0
    end
  else
    match p with
    | Pending => 4
    | Sending => 3
    | Sleeping _ => 2
    | Deleting _ => 1
    | Finished => 0
    end.

(** What a worker has still to add to the count of the events [q]: its
    opening record while it is pending, its closing record until it is
    finished.  (The events of its attempts are not counted here.) *)
Definition owes (q : event -> bool) (t : task) (p : progress) : nat :=
  match p with
  | Pending => bit (q (opening_record t.2)) + bit (q (closing_record t.2))
  | Finished => 0
  | _ => bit (q (closing_record t.2))
  end.

(** The attempt indices of the [send_reply] invocations that [execute]
    makes for a policy: [range(multiple)] when the key is there, else 0. *)
Definition reply_indices (attrs : reply_attributes) : list Z :=
  match ra_multiple attrs with
  | Some multiple => range multiple
  | None => [0%Z]
  end.

(** The attempt indices in the words of the specification: the fan-out over
    0 .. replyCount - 1 when the policy specifies more than one reply,
    otherwise one call with index 0. *)
Definition specified_reply_indices (attrs : reply_attributes) : list Z :=
  match ra_multiple attrs with
  | Some multiple => if (1 <? multiple)%Z then range multiple else [0%Z]
  | None => [0%Z]
  end.

(** ** Failure patterns of the transport *)

Section Patterns.
Context {W : Type} (env : environment W) (cfg : config).

(** [sends_fail raw errs w w']: from [w], the next [send] calls of [raw]
    raise the exceptions [errs], one call after the other, and leave the
    world in [w']. *)
Inductive sends_fail (raw : reply_message) : list exn -> W -> W -> Prop :=
| sends_fail_nil (w : W) : sends_fail raw [] w w
| sends_fail_cons (e : exn) (errs : list exn) (w w1 w2 : W) :
    messages_send env raw w = (w1, Raised e) ->
    sends_fail raw errs w1 w2 ->
    sends_fail raw (e :: errs) w w2.

(** What is left of an attempt once its send returned [id]: nothing for a
    kept reply; else the delay is accepted and the delete of [id]
    succeeds. *)
Definition attempt_completes (keep_reply : bool) (id : string) (w w' : W)
    : Prop :=
  if keep_reply then w' = w
  else can_sleep env (delete_delay cfg)
       /\ messages_delete env id w = (w', Returned tt).

(** [dependable good]: in the states of [good] no [send] and no [delete]
    raises, and the world stays in [good] whatever the engine calls. *)
Definition dependable (good : W -> Prop) : Prop :=
  (forall w raw, good w ->
     exists w' id, messages_send env raw w = (w', Returned id) /\ good w')
  /\ (forall w id, good w ->
       exists w', messages_delete env id w = (w', Returned tt) /\ good w')
  /\ (forall w n, good w -> good (next_worker env n w).1).

(** The trace of the attempts that failed at their send. *)
Definition failure_records (raw : reply_message) (errs : list exn)
    : list event :=
  concat (map (fun e =>
                 [SendMessage raw (Raised e);
                  Log WARNING
                    (pyformat "reply not sent, attempting again, error %s"
                       [format_error e])]) errs).

(** The trace of the attempt that went through. *)
Definition success_records (raw : reply_message) (keep_reply : bool)
    (id : string) : list event :=
  SendMessage raw (Returned id)
  :: (if keep_reply then []
      else [Sleep (delete_delay cfg); DeleteReply id (Returned tt)]).
End Patterns.

(** ** Reading traces *)

Definition count (q : event -> bool) (t : list event) : nat :=
  length (List.filter q t).

Definition is_send (e : event) : bool :=
  match e with SendMessage _ _ => true | _ => false end.

Definition is_sent (e : event) : bool :=
  match e with SendMessage _ (Returned _) => true | _ => false end.

Definition is_send_failure (e : event) : bool :=
  match e with SendMessage _ (Raised _) => true | _ => false end.

Definition is_delete_reply (e : event) : bool :=
  match e with DeleteReply _ _ => true | _ => false end.

Definition is_delete_original (e : event) : bool :=
  match e with DeleteOriginal _ _ => true | _ => false end.

(** The debug record that opens the [send_reply] invocation of an attempt
    index, and the one that closes it. *)
Definition started (index : Z) (e : event) : bool :=
  match e with
  | Log DEBUG text =>
      String.eqb text (pyformat "sending and deleting reply - %s" [pretty index])
  | _ => false
  end.

Definition completed (index : Z) (e : event) : bool :=
  match e with
  | Log DEBUG text =>
      String.eqb text (pyformat "sent and deleted reply - %s" [pretty index])
  | _ => false
  end.

(** The debug record that [execute] writes before it opens the pool. *)
Definition announces_pool (multiple : Z) (e : event) : bool :=
  match e with
  | Log DEBUG text =>
      String.eqb text (pyformat "Sending %s replies." [pretty multiple])
  | _ => false
  end.

(** The events of the [while] loop of [send_reply]. *)
Definition attempt_event (e : event) : bool :=
  match e with
  | SendMessage _ _ | Sleep _ | DeleteReply _ _ | Log WARNING _ => true
  | _ => false
  end.

(** The identifiers fetched, in the order of the calls, and the listing
    calls with their page bound. *)
Definition fetched (t : list event) : list string :=
  omap (fun e => match e with GetMessage id => Some id | _ => None end) t.

Definition listings (t : list event) : list (string * Z) :=
  omap (fun e => match e with
                 | ListMessages label n => Some (label, n)
                 | _ => None
                 end) t.

(** The calls that read the mailbox. *)
Definition is_lookup (e : event) : bool :=
  match e with
  | GetMessage _ | ListMessages _ _ => true
  | _ => false
  end.

(** ** A scripted world

    A concrete outside world for running the engine: the two listings and
    the mailbox are fixed; the answers of the next [send] and [delete]
    calls and the next choices of the scheduler are read off scripts, and
    once a script is used up every [send] returns the id ["sent"], every
    [delete] succeeds and the scheduler picks worker 0. *)
Module Script.
Record world := World {
  inbox : outcome (option (list string));
  spam : outcome (option (list string));
  mailbox : list (string * message);
  sends : list (outcome string);
  deletes : list (outcome unit);
  picks : list nat;
  files : list string
}.

Definition lookup_message (id : string) (box : list (string * message))
    : outcome message :=
  match List.find (fun im => String.eqb im.1 id) box with
  | Some im => Returned im.2
  | None => Raised (Error "HttpError" "404")
  end.

Definition env : environment world := {|
  acquire_service := fun w => (w, Returned tt);
  messages_list := fun label _ w =>
    (w, if String.eqb label "INBOX" then inbox w else spam w);
  messages_get := fun id w => (w, lookup_message id (mailbox w));
  messages_send := fun _ w =>
    match sends w with
    | r :: rest =>
        (World (inbox w) (spam w) (mailbox w) rest (deletes w) (picks w)
           (files w), r)
    | [] => (w, Returned "sent")
    end;
  messages_delete := fun _ w =>
    match deletes w with
    | r :: rest =>
        (World (inbox w) (spam w) (mailbox w) (sends w) rest (picks w)
           (files w), r)
    | [] => (w, Returned tt)
    end;
  next_worker := fun _ w =>
    match picks w with
    | k :: rest =>
        (World (inbox w) (spam w) (mailbox w) (sends w) (deletes w) rest
           (files w), k)
    | [] => (w, 0%nat)
    end;
  path_exists := fun path w =>
    bool_decide (path ∈ files w);
  sleep_refused := fun secs =>
    if (9223372036 <? secs)%Z
    then Some (Error "OverflowError"
                 "timestamp too large to convert to C _PyTime_t")
    else None;
  b64_utf8_decode := fun data =>
    if String.eqb data "_w=="
    then Raised (Error "UnicodeDecodeError" "invalid start byte")
    else Returned data
|}.

(** A mailbox owner who bounces ["a@b.com"] three times keeping the
    replies, ["spam@c.com"] once to another address, ["z@z.com"] with
    ["multiple": 0], ["q@q.com"] twice and ["one@o.com"] with
    ["multiple": 1]. *)
Definition cfg : config := {|
  reply_mapping :=
    <["a@b.com" := ReplyAttributes None None (Some 3%Z) (Some true)]>
    (<["spam@c.com" := ReplyAttributes None (Some "alt@c.com") None None]>
    (<["z@z.com" := ReplyAttributes None None (Some 0%Z) None]>
    (<["q@q.com" := ReplyAttributes (Some "GO AWAY") None (Some 2%Z) None]>
    (<["one@o.com" := ReplyAttributes None None (Some 1%Z) (Some true)]>
     ∅))));
  default_prefix := "STOP";
  pool_size := 2;
  delete_delay := 1
|}.

Definition mail (sender subject body : string) : message := {|
  headers := [Header "Date" "Mon, 2 Nov 2026"; Header "To" "me@x.org";
              Header "From" sender; Header "Subject" subject];
  parts := None;
  snippet := body
|}.

Definition box : list (string * message) :=
  [("m1", mail "a@b.com" "hello" "buy now");
   ("m2", mail "x@y.com" "hi" "lunch?");
   ("m3", mail "spam@c.com" "offer" "cheap");
   ("m4", mail "z@z.com" "zero" "nothing");
   ("m5", mail "q@q.com" "twice" "again");
   ("m6", mail "one@o.com" "once" "single")].

Definition quiet : world := {|
  inbox := Returned (Some ["m1"; "m2"]);
  spam := Returned (Some ["m3"]);
  mailbox := box;
  sends := [];
  deletes := [];
  picks := [];
  files := ["conf.json"]
|}.

(** The reply to the first send is delivered, its deletion fails; the
    second send and its deletion succeed. *)
Definition delete_fails_once : world := {|
  inbox := Returned (Some ["m3"]);
  spam := Returned None;
  mailbox := box;
  sends := [Returned "r1"; Returned "r2"];
  deletes := [Raised (Error "HttpError" "503"); Returned tt];
  picks := [];
  files := ["conf.json"]
|}.

(** The first two sends fail, the third is delivered. *)
Definition send_fails_twice : world := {|
  inbox := Returned (Some ["m3"]);
  spam := Returned None;
  mailbox := box;
  sends := [Raised (Error "HttpError" "500");
            Raised (Error "TimeoutError" "timed out"); Returned "r3"];
  deletes := [];
  picks := [];
  files := ["conf.json"]
|}.
End Script.

(** ** More readings of a trace *)

Definition is_delete_failure (e : event) : bool :=
  match e with DeleteReply _ (Raised _) => true | _ => false end.

Definition is_deleted (e : event) : bool :=
  match e with DeleteReply _ (Returned _) => true | _ => false end.

Definition is_sleep (e : event) : bool :=
  match e with Sleep _ => true | _ => false end.

Definition is_warning (e : event) : bool :=
  match e with Log WARNING _ => true | _ => false end.

(** The identifiers of the originals deleted, in the order of the calls. *)
Definition deleted (t : list event) : list string :=
  omap (fun e => match e with DeleteOriginal id _ => Some id | _ => None end) t.

(** A worker that keeps its reply is never at the delay or at the delete. *)
Definition keeps_reply (t : task) (p : progress) : Prop :=
  t.1.2 = true
  /\ match p with
     | Sleeping _ | Deleting _ => False
     | _ => True
     end.

(** What a worker has still to add to a count: one until it is finished. *)
Definition owes_one (t : task) (p : progress) : nat :=
  match p with
  | Finished => 0
  | _ => 1
  end.

(** The send calls a worker has still to make when nothing fails: one until
    its reply is out. *)
Definition owes_send (t : task) (p : progress) : nat :=
  match p with
  | Pending | Sending => 1
  | _ => 0
  end.

(** What is counted of the reply deletes: with [keep_reply] every delete
    call on a reply and every delay (none is expected), without it the
    deletes that succeeded (one for each reply is expected). *)
Definition settles_reply (keep : bool) (e : event) : bool :=
  if keep then is_delete_reply e || is_sleep e else is_deleted e.

Definition owes_delete (keep : bool) (t : task) (p : progress) : nat :=
  if keep then 0 else owes_one t p.

(** The workers of one message share its [keep_reply]. *)
Definition in_keeping (keep : bool) (t : task) (p : progress) : Prop :=
  t.1.2 = keep /\ (keep = true -> keeps_reply t p).

(** ** The configuration store: [config_manager.ConfigurationManager]

    The class keeps one dictionary, [ConfigurationManager.__config], for
    the whole process: [None] before a load and after a clear.  Its methods
    are computations on that state; what they print is in the trace.  A
    configuration file holds a JSON object, values of a type [V] that the
    store never looks into. *)

Section ConfigurationManager.
Context {V : Type}.

(** [open(path)] and [json.load]: the object in the file, or what was
    raised.  The store never writes a file. *)
Variable read_json : string -> outcome (gmap string V).

(** The truth value of [__config]: [None] and the empty dictionary are
    false. *)
Definition loaded (c : option (gmap string V)) : bool :=
  match c with
  | Some m => negb (size m =? 0)%nat
  | None => false
  end.

Definition get_store : M (option (gmap string V)) (option (gmap string V)) :=
  fun c => Some (c, [], Returned c).

Definition put_store (c : option (gmap string V))
    : M (option (gmap string V)) unit :=
  fun _ => Some (c, [], Returned tt).

(** [if ConfigurationManager.__config: ... else: print("no configuration
    loaded"); return otherwise], the frame of every method but the load. *)
Definition with_configuration {A} (k : gmap string V -> M (option (gmap string V)) A)
    (otherwise : A) : M (option (gmap string V)) A :=
  c ← get_store;
  match c with
  | Some m =>
      if loaded c then k m
      else print "no configuration loaded" ;; ret otherwise
  | None => print "no configuration loaded" ;; ret otherwise
  end.

Definition not_valid_json (path : string) (e : exn) : string :=
  pyformat "%s not a valid JSON file, error:  %s" [path; format_error e].

Definition load_configuration (path : string)
    : M (option (gmap string V)) bool :=
  try_except
    (m ← lift (read_json path);
     put_store (Some m) ;;
     ret true)
    (fun e => print (not_valid_json path e) ;; ret false).

(** The result is [Some true], [Some false] or Python's [None]: the
    handler of the [try] prints and falls off the end of the method. *)
Definition add_configuration (path : string)
    : M (option (gmap string V)) (option bool) :=
  with_configuration
    (fun m =>
       try_except
         (new ← lift (read_json path);
          put_store (Some (new ∪ m)) ;;
          ret (Some true))
         (fun e => print (not_valid_json path e) ;; ret None))
    (Some false).

Definition get_property (name : string)
    : M (option (gmap string V)) (option V) :=
  with_configuration
    (fun m =>
       match m !! name with
       | Some v => ret (Some v)
       | None =>
           print (pyformat "%s not loaded in configuration" [name]) ;;
           ret None
       end)
    None.

Definition add_property (name : string) (value : V)
    : M (option (gmap string V)) bool :=
  with_configuration
    (fun m =>
       match m !! name with
       | None => put_store (Some (<[name := value]> m)) ;; ret true
       | Some _ =>
           print (pyformat "%s property already in configuration" [name]) ;;
           ret false
       end)
    false.

Definition update_property (name : string) (value : V)
    : M (option (gmap string V)) bool :=
  with_configuration
    (fun m =>
       match m !! name with
       | Some _ => put_store (Some (<[name := value]> m)) ;; ret true
       | None =>
           print (pyformat "%s property not in configuration" [name]) ;;
           ret false
       end)
    false.

Definition remove_property (name : string)
    : M (option (gmap string V)) bool :=
  with_configuration
    (fun m =>
       match m !! name with
       | Some _ => put_store (Some (delete name m)) ;; ret true
       | None =>
           print (pyformat "%s not loaded in configuration" [name]) ;;
           ret false
       end)
    false.

(** [__config[new_name] = __config.pop(old_name)]: the pop comes first. *)
Definition rename_property (old_name new_name : string)
    : M (option (gmap string V)) bool :=
  with_configuration
    (fun m =>
       match m !! old_name with
       | Some v =>
           put_store (Some (<[new_name := v]> (delete old_name m))) ;;
           ret true
       | None =>
           print (pyformat "%s not loaded in configuration" [old_name]) ;;
           ret false
       end)
    false.

(** The key view of the dictionary, as a set; [None] with nothing loaded. *)
Definition get_all_property_names
    : M (option (gmap string V)) (option (gset string)) :=
  with_configuration (fun m => ret (Some (dom m))) None.

Definition clear_properties : M (option (gmap string V)) bool :=
  with_configuration (fun _ => put_store None ;; ret true) false.
End ConfigurationManager.

(** Unfolds the operations of the monad down to the calls on the world. *)
Ltac unfold_engine :=
  cbv [mbind M_bind bind mret M_ret ret raise emit log try_except lift
       send_message delete_reply delete_original get_message list_unread
       sleep choose not_sent_warning print sys_exit] in *.

(** ** The constructor: [GmailAutoBouncer.__init__]

    [_conf_man] and [_logger] are attributes of the class, shared by every
    instance; with the dictionary of the store they are the state that a
    construction reads and writes. *)

Record classes (V : Type) := Classes {
  conf_man : bool;
  logger : bool;
  cm_config : option (gmap string V)
}.
Arguments Classes {V}.
Arguments conf_man {V}.
Arguments logger {V}.
Arguments cm_config {V}.

(** The private attributes of an instance; a property the configuration
    lacks is [None]. *)
Record bouncer (V : Type) := Bouncer {
  self_scopes : option V;
  self_credentials_file : option V;
  self_token_file : option V;
  self_reply_mapping : option V;
  self_default_prefix : option V;
  self_pool_size : option V;
  self_delete_delay : option V
}.
Arguments Bouncer {V}.
Arguments self_scopes {V}.
Arguments self_credentials_file {V}.
Arguments self_token_file {V}.
Arguments self_reply_mapping {V}.
Arguments self_default_prefix {V}.
Arguments self_pool_size {V}.
Arguments self_delete_delay {V}.

Definition is_print (e : event) : bool :=
  match e with Print _ => true | _ => false end.

Section Constructor.
Context {V : Type}.
Variable read_json : string -> outcome (gmap string V).

(** [logging.config.dictConfig], Python's library: it may raise. *)
Variable dict_config : option V -> outcome unit.

(** A method of the store, run on the store of the class state. *)
Definition on_store {A} (m : M (option (gmap string V)) A) : M (classes V) A :=
  fun s =>
    match m (cm_config s) with
    | Some (c, t, r) => Some (Classes (conf_man s) (logger s) c, t, r)
    | None => None
    end.

(** A computation that leaves [_conf_man] as it found it. *)
Definition keeps_conf_man {A} (m : M (classes V) A) : Prop :=
  forall s s' t r, m s = Some (s', t, r) -> conf_man s' = conf_man s.

(** The assignments to [self] that end [__init__]. *)
Definition read_properties : M (classes V) (bouncer V) :=
  scopes ← on_store (get_property "scopes");
  credentials_file ← on_store (get_property "credentials_file");
  token_file ← on_store (get_property "token_file");
  reply_mapping ← on_store (get_property "reply_mapping");
  default_prefix ← on_store (get_property "default_prefix");
  pool_size ← on_store (get_property "pool_size");
  delete_delay ← on_store (get_property "delete_delay");
  ret (Bouncer scopes credentials_file token_file reply_mapping default_prefix
         pool_size delete_delay).

Definition init (config_path : string) : M (classes V) (bouncer V) :=
  (fun s =>
     if negb (conf_man s) then
       ((fun s => Some (Classes true (logger s) (cm_config s), [], Returned tt)) ;;
        on_store (load_configuration read_json config_path) ;;
        logging_config ← on_store (get_property "logging_config");
        lift (dict_config logging_config) ;;
        (fun s => Some (Classes (conf_man s) true (cm_config s), [], Returned tt)) ;;
        log DEBUG (pyformat "configuration loaded from %s" [config_path])) s
     else ret tt s) ;;
  read_properties.
End Constructor.

(** ** The command line: [__main__.main]

    The process has the class attributes of [GmailAutoBouncer] and the
    outside world of the engine. *)

Section Launcher.
Context {W V : Type} (env : environment W).
Variable read_json : string -> outcome (gmap string V).
Variable dict_config : option V -> outcome unit.

(** The attributes of an instance at the types [execute] reads them at: a
    dictionary of policies, a string and two integers; [None] when they
    are of other types. *)
Variable engine_config : bouncer V -> option config.

Definition on_classes {A} (m : M (classes V) A) : M (classes V * W) A :=
  fun sw =>
    match m sw.1 with
    | Some (s', t, r) => Some ((s', sw.2), t, r)
    | None => None
    end.

Definition on_world {A} (m : M W A) : M (classes V * W) A :=
  fun sw =>
    match m sw.2 with
    | Some (w', t, r) => Some ((sw.1, w'), t, r)
    | None => None
    end.

(** The pass of an instance whose attributes are of other types than
    [execute] expects is not modelled: it has no result here. *)
Definition main (fuel : nat) (argv : list string) : M (classes V * W) unit :=
  if (1 <? length argv)%nat then
    match argv !! 1%nat with
    | Some config_path =>
        exists_ ← on_world (fun w =>
                     Some (w, [], Returned (path_exists env config_path w)));
        if exists_ : bool then
          auto_bouncer ← on_classes (init read_json dict_config config_path);
          match engine_config auto_bouncer with
          | Some cfg => on_world (execute env cfg fuel)
          | None => fun _ => None
          end
        else
          print (pyformat "file not found at given path %s, exiting"
                   [config_path]) ;;
          sys_exit
    | None => raise (Error "IndexError" "list index out of range")
    end
  else
    print "configuration file not on command line, exiting" ;;
    sys_exit.

Definition run_main (fuel : nat) (argv : list string) (sw : classes V * W)
    : option (classes V * W * list event * Z) :=
  match main fuel argv sw with
  | Some (sw', t, r) => Some (sw', t, exit_status r)
  | None => None
  end.
End Launcher.

(** ** Credentials: [GmailAutoBouncer.__get_credentials]

    The OAuth library and the token file are outside the engine; the calls
    on them are operations of the world and each may raise. *)

(** What [__get_credentials] looks at in a credentials object. *)
Record credentials := Credentials {
  valid : bool;
  expired : bool;
  refresh_token : option string;
  to_json : string
}.

Inductive credential_event :=
| CredLog (lvl : level) (text : string)
| LoadToken (path : string)
| RefreshToken
| ConsentFlow (secrets_file : string)
| OpenToken (path : string)
| WriteToken (path : string) (json : string).

Record credential_provider (W : Type) := CredentialProvider {
  (** [os.path.exists(token_file)] *)
  token_exists : string -> W -> bool;
  (** [Credentials.from_authorized_user_file(token_file, scopes)] *)
  from_authorized_user_file :
    string -> list string -> W -> W * outcome credentials;
  (** [credentials.refresh(Request())]: the object after the refresh *)
  refresh : credentials -> W -> W * outcome credentials;
  (** [InstalledAppFlow.from_client_secrets_file(credentials_file, scopes)]
      and [flow.run_local_server(port=0)] *)
  run_local_server : string -> list string -> W -> W * outcome credentials;
  (** [open(token_file, "w")] *)
  open_token : string -> W -> W * outcome unit;
  (** [token_file.write(json)] and the end of the [with] block *)
  write_token : string -> string -> W -> W * outcome unit;
  (** the names of the classes that the library derives from
      [google.auth.exceptions.RefreshError] *)
  refresh_error_subclasses : list string
}.
Arguments token_exists {W}.
Arguments from_authorized_user_file {W}.
Arguments refresh {W}.
Arguments run_local_server {W}.
Arguments open_token {W}.
Arguments write_token {W}.
Arguments refresh_error_subclasses {W}.

Section Credentials.
Context {W : Type} (provider : credential_provider W).
Variables (scopes : list string) (credentials_file token_file : string).

(** [except google.auth.exceptions.RefreshError]: the clause catches the
    instances of the class and of every class derived from it. *)
Definition is_refresh_error (e : exn) : bool :=
  String.eqb (exc_name e) "RefreshError"
  || bool_decide (exc_name e ∈ refresh_error_subclasses provider).

(** The [with open(token_file, "w")] block that stores the credentials, and
    the end of the method. *)
Definition store_credentials (c : credentials) (w : W)
    : W * list credential_event * outcome credentials :=
  let (w1, opened) := open_token provider token_file w in
  match opened with
  | Raised e => (w1, [OpenToken token_file], Raised e)
  | Returned _ =>
      let (w2, written) := write_token provider token_file (to_json c) w1 in
      let t :=
        [OpenToken token_file;
         CredLog DEBUG
           (pyformat "writing gmail credentials to %s" [token_file]);
         WriteToken token_file (to_json c)] in
      match written with
      | Raised e => (w2, t, Raised e)
      | Returned _ =>
          (w2, t ++ [CredLog DEBUG "got gmail credentials"], Returned c)
      end
  end.

(** The [if not credentials or not credentials.valid:] block, [stored]
    being the credentials of the token file, if there is one. *)
Definition renew_credentials (stored : option credentials) (w : W)
    : W * list credential_event * outcome credentials :=
  match stored with
  | Some c =>
      if expired c && truthy (refresh_token c) then
        let (w1, refreshed) := refresh provider c w in
        match refreshed with
        | Returned c' =>
            let '(w2, t, r) := store_credentials c' w1 in
            (w2, RefreshToken :: t, r)
        | Raised e =>
            if is_refresh_error e then
              (w1,
               [RefreshToken;
                CredLog WARNING
                  ("Gmail credentials expired, need to update manually, "
                   +:+ "aborting processing")],
               Raised (SystemExit None))
            else (w1, [RefreshToken], Raised e)
        end
      else
        let (w1, fresh) :=
          run_local_server provider credentials_file scopes w in
        match fresh with
        | Returned c' =>
            let '(w2, t, r) := store_credentials c' w1 in
            (w2, ConsentFlow credentials_file :: t, r)
        | Raised e => (w1, [ConsentFlow credentials_file], Raised e)
        end
  | None =>
      let (w1, fresh) := run_local_server provider credentials_file scopes w in
      match fresh with
      | Returned c' =>
          let '(w2, t, r) := store_credentials c' w1 in
          (w2, ConsentFlow credentials_file :: t, r)
      | Raised e => (w1, [ConsentFlow credentials_file], Raised e)
      end
  end.

Definition get_credentials (w : W)
    : W * list credential_event * outcome credentials :=
  let opening := CredLog DEBUG "getting gmail credentials" in
  if token_exists provider token_file w then
    let found :=
      CredLog DEBUG (pyformat "found gmail credentials at %s" [token_file]) in
    let (w1, loaded_token) :=
      from_authorized_user_file provider token_file scopes w in
    match loaded_token with
    | Raised e => (w1, [opening; found; LoadToken token_file], Raised e)
    | Returned c =>
        if valid c then
          (w1,
           [opening; found; LoadToken token_file;
            CredLog DEBUG "got gmail credentials"],
           Returned c)
        else
          let '(w2, t, r) := renew_credentials (Some c) w1 in
          (w2, [opening; found; LoadToken token_file] ++ t, r)
    end
  else
    let '(w2, t, r) := renew_credentials None w in
    (w2, opening :: t, r).
End Credentials.

(** The events that obtain or store credentials. *)
Definition is_refresh (e : credential_event) : bool :=
  match e with RefreshToken => true | _ => false end.

Definition is_consent (e : credential_event) : bool :=
  match e with ConsentFlow _ => true | _ => false end.

Definition is_token_write (e : credential_event) : bool :=
  match e with WriteToken _ _ => true | _ => false end.

(** ** More scripted cases

    Files, credentials and mailboxes for running the rest of the package
    on: the store holds strings, the world of the credentials is the
    answer that the next refresh gets. *)
Module Cases.

Definition read_json (path : string) : outcome (gmap string string) :=
  if String.eqb path "conf.json" then
    Returned (<["logging_config" := "{version: 1}"]>
              (<["token_file" := "token.json"]>
              (<["default_prefix" := "STOP"]> (<["pool_size" := "2"]> ∅))))
  else if String.eqb path "more.json" then
    Returned (<["pool_size" := "4"]> (<["delete_delay" := "1"]> ∅))
  else if String.eqb path "empty.json" then Returned ∅
  else Raised (Error "FileNotFoundError" path).

Definition dict_config (logging_config : option string) : outcome unit :=
  match logging_config with
  | Some _ => Returned tt
  | None => Raised (Error "TypeError" "'NoneType' object is not iterable")
  end.

Definition fresh_classes : classes string := Classes false false None.

Definition stale : credentials := {|
  valid := false; expired := true; refresh_token := Some "1//0g";
  to_json := "{stale}"
|}.

Definition renewed : credentials := {|
  valid := true; expired := false; refresh_token := Some "1//0g";
  to_json := "{renewed}"
|}.

(** A token file with expired credentials and a consent flow that nobody
    answers; the world is what the refresh returns. *)
Definition provider : credential_provider (outcome credentials) := {|
  token_exists := fun _ _ => true;
  from_authorized_user_file := fun _ _ w => (w, Returned stale);
  refresh := fun _ w => (w, w);
  run_local_server := fun _ _ w => (w, Raised (Error "OSError" "no browser"));
  open_token := fun _ w => (w, Returned tt);
  write_token := fun _ _ w => (w, Returned tt);
  refresh_error_subclasses :=
    ["ReauthFailError"; "ReauthSamlChallengeFailError"]
|}.

(** The configuration of [Script.cfg] with a negative delay, and with a
    pool of no process. *)
Definition hasty : config := {|
  reply_mapping := reply_mapping Script.cfg;
  default_prefix := "STOP";
  pool_size := 2;
  delete_delay := -1
|}.

Definition no_pool : config := {|
  reply_mapping := reply_mapping Script.cfg;
  default_prefix := "STOP";
  pool_size := 0;
  delete_delay := 1
|}.

(** A message of a bounced sender with two parts, the first of which does
    not decode, and the same message with its second part alone. *)
Definition garbled : message := {|
  headers := [Header "Date" "Mon, 2 Nov 2026"; Header "To" "me@x.org";
              Header "From" "spam@c.com"; Header "Subject" "offer"];
  parts := Some [Part (Some "_w=="); Part (Some "aGk=")];
  snippet := "cheap"
|}.

Definition garbled_alone : message := {|
  headers := headers garbled;
  parts := Some [Part (Some "_w==")];
  snippet := "cheap"
|}.

(** The identifier ["gone"] is listed and cannot be fetched. *)
Definition vanished : Script.world := {|
  Script.inbox := Returned (Some ["m2"; "gone"]);
  Script.spam := Returned (Some ["m3"]);
  Script.mailbox := ("bad", garbled) :: Script.box;
  Script.sends := [];
  Script.deletes := [];
  Script.picks := [];
  Script.files := ["conf.json"]
|}.

(** Three replies to keep; the second send fails, and the scheduler moves
    the workers in turn. *)
Definition busy_pool : Script.world := {|
  Script.inbox := Returned (Some ["m1"]);
  Script.spam := Returned None;
  Script.mailbox := Script.box;
  Script.sends := [Returned "r1"; Raised (Error "HttpError" "500")];
  Script.deletes := [];
  Script.picks := [0; 1; 0; 1; 0]%nat;
  Script.files := ["conf.json"]
|}.

Definition reply : reply_message := {|
  rm_body := "STOP"; rm_to := Some "q@q.com"; rm_from := Some "me@x.org";
  rm_subject := "Re:  twice"
|}.
End Cases.

(** ** A scripted start of the program

    Configuration files whose values are of the kinds the engine reads,
    and [logging.config.dictConfig], which raises on [None]. *)
Module Launch.

Inductive setting :=
| Mapping (policies : gmap string reply_attributes)
| Text (text : string)
| Number (n : Z)
| Opaque.

Definition conf : gmap string setting :=
  <["logging_config" := Opaque]>
  (<["scopes" := Opaque]>
  (<["credentials_file" := Text "credentials.json"]>
  (<["token_file" := Text "token.json"]>
  (<["reply_mapping" := Mapping (reply_mapping Script.cfg)]>
  (<["default_prefix" := Text "STOP"]>
  (<["pool_size" := Number 2]>
  (<["delete_delay" := Number 1]> ∅))))))).

(** [conf.json] is a complete configuration, [partial.json] one without
    ["logging_config"], and nothing else parses. *)
Definition read_json (path : string) : outcome (gmap string setting) :=
  if String.eqb path "conf.json" then Returned conf
  else if String.eqb path "partial.json" then
    Returned (<["default_prefix" := Text "STOP"]> ∅)
  else
    Raised (Error "JSONDecodeError"
              "Expecting value: line 1 column 1 (char 0)").

Definition dict_config (logging_config : option setting) : outcome unit :=
  match logging_config with
  | Some _ => Returned tt
  | None => Raised (Error "TypeError" "'NoneType' object is not iterable")
  end.

Definition engine_config (b : bouncer setting) : option config :=
  match self_reply_mapping b, self_default_prefix b, self_pool_size b,
        self_delete_delay b with
  | Some (Mapping policies), Some (Text prefix), Some (Number n),
    Some (Number delay) => Some (Config policies prefix n delay)
  | _, _, _, _ => None
  end.

(** The process as it starts: nothing constructed yet; the files
    [conf.json], [partial.json] and [notes.txt] exist. *)
Definition start : classes setting * Script.world :=
  (Classes false false None,
   {| Script.inbox := Returned (Some ["m1"; "m2"]);
      Script.spam := Returned (Some ["m3"]);
      Script.mailbox := Script.box;
      Script.sends := [];
      Script.deletes := [];
      Script.picks := [];
      Script.files := ["conf.json"; "partial.json"; "notes.txt"] |}).
End Launch.

(** Settles the four counts of one turn of the loop of [send_reply]. *)
Ltac tally :=
  split; [|split; [|split]];
  [ intros _ Hno;
    first [reflexivity | destruct Hno; split; [lia | assumption]]
  | intros Hk;
    first [reflexivity
          | destruct Hk as [?|[? ?]]; [discriminate | first [lia | congruence]]]
  | discriminate
  | intros _ [? ?]; first [split; reflexivity | lia | congruence] ].

(** Unfolds the methods of the store down to the dictionary. *)
Ltac unfold_store :=
  cbv [load_configuration add_configuration get_property add_property
       update_property remove_property rename_property
       get_all_property_names clear_properties with_configuration
       get_store put_store not_valid_json] in *;
  unfold_engine.

(** Splits a run [H] of [__get_credentials] along the answers of the
    provider. *)
Ltac credential_cases H :=
  repeat (match type of H with
          | context [token_exists ?p ?f ?w] =>
              destruct (token_exists p f w) eqn:?
          | context [from_authorized_user_file ?p ?f ?s ?w] =>
              destruct (from_authorized_user_file p f s w) as [? [?|?]] eqn:?
          | context [refresh ?p ?c ?w] =>
              destruct (refresh p c w) as [? [?|?]] eqn:?
          | context [run_local_server ?p ?f ?s ?w] =>
              destruct (run_local_server p f s w) as [? [?|?]] eqn:?
          | context [open_token ?p ?f ?w] =>
              destruct (open_token p f w) as [? [?|?]] eqn:?
          | context [write_token ?p ?f ?j ?w] =>
              destruct (write_token p f j w) as [? [?|?]] eqn:?
          | context [valid ?c] => destruct (valid c) eqn:?
          | context [expired ?c && truthy (refresh_token ?c)] =>
              destruct (expired c && truthy (refresh_token c)) eqn:?
          | context [is_refresh_error ?p ?e] =>
              destruct (is_refresh_error p e) eqn:?
          end; cbn [app] in H).

(** * Properties *)

(** ** Header lookup *)

Lemma get_header_field_from_first (k : Z) (headers : list header)
    (field_name : string) (i : nat) (info : header) :
  headers !! i = Some info ->
  h_name info = field_name ->
  (forall j info', (j < i)%nat -> headers !! j = Some info' ->
                   h_name info' <> field_name) ->
  get_header_field_from k headers field_name
  = {| hf_index := k + Z.of_nat i; hf_value := Some (h_value info) |}.
Proof.
  revert k i. induction headers as [|h rest IH]; intros k i Hi Hname Hbefore.
  - discriminate.
  - destruct i as [|i]; simpl in *.
    + injection Hi as ->. rewrite (proj2 (String.eqb_eq _ _) Hname).
      f_equal. lia.
    + destruct (String.eqb (h_name h) field_name) eqn:E.
      * apply String.eqb_eq in E. exfalso.
        apply (Hbefore 0%nat h); [lia | reflexivity | exact E].
      * rewrite (IH (k + 1)%Z i Hi Hname).
        -- f_equal. lia.
        -- intros j info' Hj Hl. apply (Hbefore (S j) info'); [lia | exact Hl].
Qed.

Lemma get_header_field_from_absent (k : Z) (headers : list header)
    (field_name : string) :
  Forall (fun h => h_name h <> field_name) headers ->
  get_header_field_from k headers field_name
  = {| hf_index := -1; hf_value := None |}.
Proof.
  intros H. revert k. induction H as [|h rest Hh _ IH]; intros k; simpl.
  - reflexivity.
  - destruct (String.eqb (h_name h) field_name) eqn:E.
    + apply String.eqb_eq in E. contradiction.
    + apply IH.
Qed.

(** A lookup that found a value found it at a position that is not
    negative, when the count started there. *)
Lemma get_header_field_from_found (k : Z) (headers : list header)
    (field_name v : string) :
  (0 <= k)%Z ->
  hf_value (get_header_field_from k headers field_name) = Some v ->
  (0 <= hf_index (get_header_field_from k headers field_name))%Z.
Proof.
  revert k. induction headers as [|h rest IH]; intros k Hk; simpl.
  - discriminate.
  - destruct (String.eqb (h_name h) field_name); simpl.
    + intros _. exact Hk.
    + apply IH. lia.
Qed.

(** C7: the lookup returns the position and the value of the first header
    that carries the name, in header order, whatever comes after it: with
    duplicate names the first occurrence wins. *)
Theorem get_header_field_first_occurrence (headers : list header)
    (field_name : string) (i : nat) (info : header) :
  headers !! i = Some info ->
  h_name info = field_name ->
  (forall j info', (j < i)%nat -> headers !! j = Some info' ->
                   h_name info' <> field_name) ->
  get_header_field headers field_name
  = {| hf_index := Z.of_nat i; hf_value := Some (h_value info) |}.
Proof.
  intros Hi Hname Hbefore. unfold get_header_field.
  rewrite (get_header_field_from_first 0 headers field_name i info Hi Hname Hbefore).
  reflexivity.
Qed.

Lemma get_header_field_first_occurrence_witness :
  get_header_field
    [Header "To" "me@x.org"; Header "From" "a@b.com"; Header "From" "c@d.com"]
    "From"
  = {| hf_index := 1; hf_value := Some "a@b.com" |}.
Proof.
  apply (get_header_field_first_occurrence _ "From" 1 (Header "From" "a@b.com")).
  - reflexivity.
  - reflexivity.
  - intros j info' Hj Hl. destruct j as [|j]; [|lia].
    injection Hl as <-. discriminate.
Defined.

(** C8: a header list with no entry of the requested name, the empty list
    included, gives position -1 and the value [None]; the lookup is a total
    function, it has no error case. *)
Theorem get_header_field_absent (headers : list header) (field_name : string) :
  Forall (fun h => h_name h <> field_name) headers ->
  get_header_field headers field_name = {| hf_index := -1; hf_value := None |}.
Proof. apply get_header_field_from_absent. Qed.

Lemma get_header_field_absent_witness :
  get_header_field [] "From" = {| hf_index := -1; hf_value := None |}
  /\ get_header_field [Header "To" "me@x.org"; Header "Date" "today"] "From"
     = {| hf_index := -1; hf_value := None |}.
Proof.
  split.
  - apply (get_header_field_absent [] "From"). constructor.
  - apply (get_header_field_absent
             [Header "To" "me@x.org"; Header "Date" "today"] "From").
    repeat constructor; discriminate.
Defined.

(** ** Reply builder *)

Lemma append_cons (c : ascii) (a b : string) :
  String c a +:+ b = String c (a +:+ b).
Proof. reflexivity. Qed.

Lemma append_nil_l (a : string) : "" +:+ a = a.
Proof. reflexivity. Qed.

Lemma append_assoc (a b c : string) : (a +:+ b) +:+ c = a +:+ (b +:+ c).
Proof.
  induction a as [|x a IH]; [reflexivity |].
  rewrite !append_cons. f_equal. exact IH.
Qed.

Lemma append_nil_r (a : string) : a +:+ "" = a.
Proof.
  induction a as [|x a IH]; [reflexivity |].
  rewrite append_cons. f_equal. exact IH.
Qed.

Lemma append_length (a b : string) :
  String.length (a +:+ b) = (String.length a + String.length b)%nat.
Proof.
  induction a as [|x a IH]; [reflexivity |].
  rewrite append_cons. cbn. now rewrite IH.
Qed.

Lemma append_inj_r (a b c : string) : a +:+ c = b +:+ c -> a = b.
Proof.
  revert b. induction a as [|x a IH]; intros [|y b] H.
  - reflexivity.
  - apply (f_equal String.length) in H.
    rewrite append_nil_l, append_cons in H. cbn in H.
    rewrite append_length in H. lia.
  - apply (f_equal String.length) in H.
    rewrite append_nil_l, append_cons in H. cbn in H.
    rewrite append_length in H. lia.
  - rewrite !append_cons in H. injection H as -> H. f_equal. now apply IH.
Qed.

Create Rewrite HintDb pystring.
#[local] Hint Rewrite append_cons append_nil_l append_assoc append_nil_r
  : pystring.

(** C4: the reply built for a matched message (one whose From field has a
    value, the sender) has the text
    prefix, blank line, the four metadata lines, blank line, original body;
    it is addressed to the policy's forwarding address, else to the sender;
    its "from" is the value of the original To field; its subject is
    "Re:  " and the original subject.  A header the original lacks shows as
    Python prints [None]. *)
Theorem construct_reply_payload (cfg : config)
    (from_field date_field to_field subject_field : header_field)
    (message_body : string) (attrs : reply_attributes) (sender : string) :
  hf_value from_field = Some sender ->
  construct_reply cfg from_field date_field to_field subject_field
    message_body attrs
  = {| rm_body :=
         default (default_prefix cfg) (ra_prefix attrs) +:+ nl +:+ nl
         +:+ "From:  " +:+ sender +:+ nl
         +:+ "Sent:  " +:+ str_opt (hf_value date_field) +:+ nl
         +:+ "To:  " +:+ str_opt (hf_value to_field) +:+ nl
         +:+ "Subject:  " +:+ str_opt (hf_value subject_field)
         +:+ nl +:+ nl +:+ message_body;
       rm_to := Some (default sender (ra_to attrs));
       rm_from := hf_value to_field;
       rm_subject := "Re:  " +:+ str_opt (hf_value subject_field) |}.
Proof.
  intros Hfrom. unfold construct_reply, nl. rewrite Hfrom.
  destruct (ra_prefix attrs), (ra_to attrs); f_equal;
    repeat (progress (cbn; autorewrite with pystring)); reflexivity.
Qed.

(** ** The engine monad *)

Lemma run_bind {W A B} (m : M W A) (k : A -> M W B) (w : W) :
  (m ≫= k) w
  = match m w with
    | None => None
    | Some (w1, t1, Raised e) => Some (w1, t1, Raised e)
    | Some (w1, t1, Returned a) =>
        match k a w1 with
        | None => None
        | Some (w2, t2, r) => Some (w2, t1 ++ t2, r)
        end
    end.
Proof. reflexivity. Qed.

Lemma run_log_then {W B} (lvl : level) (text : string) (k : M W B) (w : W) :
  (log lvl text ;; k) w
  = match k w with
    | None => None
    | Some (w2, t2, r) => Some (w2, Log lvl text :: t2, r)
    end.
Proof. reflexivity. Qed.

Lemma count_app (q : event -> bool) (t1 t2 : list event) :
  count q (t1 ++ t2) = (count q t1 + count q t2)%nat.
Proof. unfold count. now rewrite List.filter_app, length_app. Qed.

Lemma count_cons (q : event -> bool) (e : event) (t : list event) :
  count q (e :: t) = ((if q e then 1 else 0) + count q t)%nat.
Proof. unfold count. simpl. destruct (q e); reflexivity. Qed.

Lemma count_none (q : event -> bool) (t : list event) :
  Forall (fun e => q e = false) t -> count q t = 0%nat.
Proof.
  induction 1 as [|e t He _ IH]; [reflexivity |].
  rewrite count_cons, He, IH. reflexivity.
Qed.

(** ** Dispatcher: one call of [send_reply] *)

Section SendReply.
Context {W : Type} (env : environment W) (cfg : config).

(** One turn of the loop never raises and never runs out of fuel; its
    events are the attempt's. *)
Lemma send_attempt_runs (raw : reply_message) (keep : bool) (w : W) :
  exists w' t b, send_attempt env cfg raw keep w = Some (w', t, Returned b)
                 /\ Forall (fun e => attempt_event e = true) t.
Proof.
  unfold send_attempt. unfold_engine.
  destruct (messages_send env raw w) as [w1 [id|e]]; cbn.
  - destruct keep; cbn.
    + eexists _, _, _. split; [reflexivity |]. repeat constructor.
    + destruct (delete_delay cfg <? 0)%Z; cbn;
        [|destruct (sleep_refused env (delete_delay cfg)) as [refusal|]; cbn].
      * eexists _, _, _. split; [reflexivity |]. repeat constructor.
      * eexists _, _, _. split; [reflexivity |]. repeat constructor.
      * destruct (messages_delete env id w1) as [w2 [[]|e]]; cbn;
          eexists _, _, _; (split; [reflexivity |]); repeat constructor.
  - eexists _, _, _. split; [reflexivity |]. repeat constructor.
Qed.

Lemma send_loop_returned (fuel : nat) (raw : reply_message) (keep : bool)
    (w w' : W) (t : list event) (r : outcome unit) :
  send_loop env cfg fuel raw keep w = Some (w', t, r) ->
  r = Returned tt /\ Forall (fun e => attempt_event e = true) t.
Proof.
  revert w t. induction fuel as [|fuel IH]; intros w t; [discriminate |].
  cbn [send_loop]. rewrite run_bind.
  destruct (send_attempt_runs raw keep w) as (w1 & t1 & b & -> & Ht1).
  destruct b.
  - cbn. intros [= <- <- <-]. split; [reflexivity |].
    rewrite app_nil_r. exact Ht1.
  - destruct (send_loop env cfg fuel raw keep w1) as [[[w2 t2] r2]|] eqn:Hl;
      [|discriminate].
    intros [= <- <- <-]. destruct (IH _ _ Hl) as [-> Ht2].
    split; [reflexivity |]. apply Forall_app. auto.
Qed.

(** A returned [send_reply]: it did not raise, and its trace is the
    opening record, the events of the loop and the closing record. *)
Lemma send_reply_returned (fuel : nat) (raw : reply_message) (keep : bool)
    (index : Z) (w w' : W) (t : list event) (r : outcome unit) :
  send_reply env cfg fuel raw keep index w = Some (w', t, r) ->
  r = Returned tt
  /\ exists t',
      t = Log DEBUG (pyformat "sending and deleting reply - %s" [pretty index])
          :: t' ++
          [Log DEBUG (pyformat "sent and deleted reply - %s" [pretty index])]
      /\ Forall (fun e => attempt_event e = true) t'.
Proof.
  unfold send_reply. rewrite run_log_then, run_bind.
  destruct (send_loop env cfg fuel raw keep w) as [[[w1 t1] r1]|] eqn:Hl;
    [|discriminate].
  destruct (send_loop_returned _ _ _ _ _ _ _ Hl) as [-> Ht1].
  cbn. intros [= <- <- <-]. split; [reflexivity |].
  exists t1. split; [reflexivity | exact Ht1].
Qed.

Lemma send_attempt_send_fails (raw : reply_message) (keep : bool)
    (w w1 : W) (e : exn) :
  messages_send env raw w = (w1, Raised e) ->
  send_attempt env cfg raw keep w
  = Some (w1, failure_records raw [e], Returned false).
Proof.
  intros Hs. unfold send_attempt. unfold_engine. rewrite Hs. reflexivity.
Qed.

Lemma send_attempt_goes_through (raw : reply_message) (keep : bool)
    (w w1 w2 : W) (id : string) :
  messages_send env raw w = (w1, Returned id) ->
  attempt_completes env cfg keep id w1 w2 ->
  send_attempt env cfg raw keep w
  = Some (w2, success_records cfg raw keep id, Returned true).
Proof.
  intros Hs Hc. unfold send_attempt, success_records. unfold_engine.
  rewrite Hs. destruct keep; cbn in *.
  - now subst.
  - destruct Hc as [[Hd Htakes] Hdel].
    destruct (Z.ltb_spec (delete_delay cfg) 0) as [?|_]; [lia |].
    rewrite Htakes, Hdel. reflexivity.
Qed.

Lemma send_loop_retries_failed_sends (raw : reply_message) (keep : bool)
    (errs : list exn) (w w1 w2 w3 : W) (id : string) :
  sends_fail env raw errs w w1 ->
  messages_send env raw w1 = (w2, Returned id) ->
  attempt_completes env cfg keep id w2 w3 ->
  forall fuel,
    send_loop env cfg fuel raw keep w
    = if (length errs <? fuel)%nat
      then Some (w3, failure_records raw errs ++ success_records cfg raw keep id,
                 Returned tt)
      else None.
Proof.
  intros Hfail Hs Hc.
  induction Hfail as [w|e errs w wa wb He Hfail IH]; intros [|fuel];
    try reflexivity; cbn [send_loop length]; rewrite run_bind.
  - rewrite (send_attempt_goes_through _ _ _ _ _ _ Hs Hc). cbn.
    now rewrite app_nil_r.
  - rewrite (send_attempt_send_fails _ keep _ _ _ He).
    rewrite (IH Hs fuel).
    change (S (length errs) <? S fuel)%nat with (length errs <? fuel)%nat.
    destruct (length errs <? fuel)%nat; reflexivity.
Qed.

Lemma count_failure_records (raw : reply_message) (errs : list exn) :
  count is_sent (failure_records raw errs) = 0%nat
  /\ count is_send_failure (failure_records raw errs) = length errs
  /\ count is_delete_reply (failure_records raw errs) = 0%nat.
Proof.
  induction errs as [|e errs (IH1 & IH2 & IH3)]; [now cbn |].
  change (failure_records raw (e :: errs))
    with (failure_records raw [e] ++ failure_records raw errs).
  rewrite !count_app, IH1, IH2, IH3. now cbn.
Qed.

(** X26: failures of the send call alone are retried without a second
    delivery.  When the first sends of a call fail (each with some
    exception) and the next send and the rest of its attempt go through,
    the delay being one that [time.sleep] takes, [send_reply] returns once
    the fuel exceeds the number of failures and not before, however many
    they are; every failure is logged and the sequence restarted at the
    send; the trace holds one delivered send, as many failed sends as there
    were failures, and one delete of the reply unless it is kept. *)
Theorem send_reply_retries_failed_sends (raw : reply_message) (keep : bool)
    (index : Z) (errs : list exn) (w w1 w2 w3 : W) (id : string) (fuel : nat) :
  sends_fail env raw errs w w1 ->
  messages_send env raw w1 = (w2, Returned id) ->
  attempt_completes env cfg keep id w2 w3 ->
  let t :=
    Log DEBUG (pyformat "sending and deleting reply - %s" [pretty index])
    :: (failure_records raw errs ++ success_records cfg raw keep id)
    ++ [Log DEBUG (pyformat "sent and deleted reply - %s" [pretty index])] in
  send_reply env cfg fuel raw keep index w
  = (if (length errs <? fuel)%nat then Some (w3, t, Returned tt) else None)
  /\ count is_sent t = 1%nat
  /\ count is_send_failure t = length errs
  /\ count is_delete_reply t = (if keep then 0 else 1)%nat.
Proof.
  intros Hfail Hs Hc t. split.
  - unfold send_reply. rewrite run_log_then, run_bind.
    rewrite (send_loop_retries_failed_sends _ _ _ _ _ _ _ _ Hfail Hs Hc).
    destruct (length errs <? fuel)%nat; reflexivity.
  - destruct (count_failure_records raw errs) as (H1 & H2 & H3).
    subst t. rewrite !count_cons, !count_app, H1, H2, H3.
    destruct keep; cbn; repeat split; lia.
Qed.
End SendReply.

(** ** Dispatcher: the pool *)

Lemma started_start (i index : Z) :
  started i (opening_record index) = (index =? i)%Z.
Proof.
  unfold started, opening_record. destruct (Z.eqb_spec index i) as [->|Hne].
  - apply String.eqb_refl.
  - apply String.eqb_neq. cbn. intros H. injection H as H.
    rewrite !append_nil_r in H. apply (inj pretty) in H. congruence.
Qed.

Lemma completed_done (i index : Z) :
  completed i (closing_record index) = (index =? i)%Z.
Proof.
  unfold completed, closing_record. destruct (Z.eqb_spec index i) as [->|Hne].
  - apply String.eqb_refl.
  - apply String.eqb_neq. cbn. intros H. injection H as H.
    rewrite !append_nil_r in H. apply (inj pretty) in H. congruence.
Qed.

Lemma started_done (i index : Z) : started i (closing_record index) = false.
Proof. reflexivity. Qed.

Lemma completed_start (i index : Z) :
  completed i (opening_record index) = false.
Proof. reflexivity. Qed.

Lemma attempt_event_not_counted (i : Z) (e : event) :
  attempt_event e = true ->
  started i e = false /\ completed i e = false
  /\ is_delete_original e = false.
Proof. destruct e as [[] ?| | | | | | |]; cbn; auto; discriminate. Qed.

Section Pool.
Context {W : Type} (env : environment W) (cfg : config).

(** A step of a worker never raises and never waits on fuel.  A pending
    worker writes its opening record and starts sending; a worker inside
    the loop either finishes, its closing record last, or stays inside the
    loop; a finished worker stays finished. *)
Lemma worker_step_runs (raw : reply_message) (keep : bool) (index : Z)
    (p : progress) (w : W) :
  exists w' tr p',
    worker_step env cfg (raw, keep, index) p w = Some (w', tr, Returned p')
    /\ match p with
       | Pending =>
           tr = [Log DEBUG
                   (pyformat "sending and deleting reply - %s" [pretty index])]
           /\ p' = Sending
       | Finished => tr = [] /\ p' = Finished
       | _ =>
           exists tr0,
             Forall (fun e => attempt_event e = true) tr0
             /\ ((p' = Finished
                  /\ tr = tr0 ++
                          [Log DEBUG
                             (pyformat "sent and deleted reply - %s"
                                [pretty index])])
                 \/ (working p' = true /\ tr = tr0))
       end.
Proof.
  destruct p as [| |reply|reply|]; unfold worker_step, retry_on_error, finish;
    unfold_engine.
  - eexists _, _, _. split; [reflexivity |]. auto.
  - destruct (messages_send env raw w) as [w1 [id|e]]; cbn.
    + destruct keep; cbn; eexists _, _, _; (split; [reflexivity |]).
      * exists [SendMessage raw (Returned id)]. split; [repeat constructor |].
        left. auto.
      * exists [SendMessage raw (Returned id)]. split; [repeat constructor |].
        right. auto.
    + eexists _, _, _. split; [reflexivity |].
      eexists. split; [| right; split; reflexivity]. repeat constructor.
  - destruct (delete_delay cfg <? 0)%Z; cbn;
      [|destruct (sleep_refused env (delete_delay cfg)) as [refusal|]; cbn];
      eexists _, _, _; (split; [reflexivity |]);
      (eexists; split; [| right; split; reflexivity]); repeat constructor.
  - destruct (messages_delete env reply w) as [w1 [[]|e]]; cbn;
      eexists _, _, _; (split; [reflexivity |]).
    + exists [DeleteReply reply (Returned tt)]. split; [repeat constructor |].
      left. auto.
    + eexists. split; [| right; split; reflexivity]. repeat constructor.
  - eexists _, _, _. split; [reflexivity |]. auto.
Qed.

(** The steps of a worker are those of [send_reply]: whatever a call of
    [send_reply] does, a worker left alone does, step by step, with the
    same trace and the same effect on the world. *)
Lemma run_worker_send_loop (fuel : nat) (raw : reply_message) (keep : bool)
    (index : Z) (w w' : W) (t : list event) (r : outcome unit) :
  send_loop env cfg fuel raw keep w = Some (w', t, r) ->
  exists n,
    run_worker env cfg n (raw, keep, index) Sending w
    = Some (w', t ++ [closing_record index], Returned tt).
Proof.
  revert w t. induction fuel as [|fuel IH]; intros w t; [discriminate |].
  cbn [send_loop]. unfold send_attempt. unfold_engine.
  destruct (messages_send env raw w) as [w1 [id|e]] eqn:Hs.
  - destruct keep; cbn.
    + intros [= <- <- <-]. exists 1%nat. cbn [run_worker].
      unfold worker_step, retry_on_error, finish. unfold_engine.
      rewrite Hs. reflexivity.
    + destruct (delete_delay cfg <? 0)%Z eqn:Hd; cbn;
        [|destruct (sleep_refused env (delete_delay cfg)) as [refusal|] eqn:Hm; cbn].
      * destruct (send_loop env cfg fuel raw false w1) as [[[w2 t2] r2]|]
          eqn:Hl; [|discriminate].
        intros [= <- <- <-]. destruct (IH _ _ Hl) as [n Hn].
        exists (S (S n)). cbn [run_worker].
        unfold worker_step, retry_on_error, finish. unfold_engine.
        rewrite Hs. cbn. rewrite Hd. cbn.
        unfold worker_step, retry_on_error, finish in Hn. unfold_engine.
        rewrite Hn. reflexivity.
      * destruct (send_loop env cfg fuel raw false w1) as [[[w2 t2] r2]|]
          eqn:Hl; [|discriminate].
        intros [= <- <- <-]. destruct (IH _ _ Hl) as [n Hn].
        exists (S (S n)). cbn [run_worker].
        unfold worker_step, retry_on_error, finish. unfold_engine.
        rewrite Hs. cbn. rewrite Hd, Hm. cbn.
        unfold worker_step, retry_on_error, finish in Hn. unfold_engine.
        rewrite Hn. reflexivity.
      * destruct (messages_delete env id w1) as [w2 [[]|e]] eqn:Hdel; cbn.
        -- intros [= <- <- <-]. exists 3%nat. cbn [run_worker].
           unfold worker_step, retry_on_error, finish. unfold_engine.
           rewrite Hs. cbn. rewrite Hd, Hm. cbn. rewrite Hdel. reflexivity.
        -- destruct (send_loop env cfg fuel raw false w2) as [[[w3 t3] r3]|]
             eqn:Hl; [|discriminate].
           intros [= <- <- <-]. destruct (IH _ _ Hl) as [n Hn].
           exists (S (S (S n))). cbn [run_worker].
           unfold worker_step, retry_on_error, finish. unfold_engine.
           rewrite Hs. cbn. rewrite Hd, Hm. cbn. rewrite Hdel. cbn.
           unfold worker_step, retry_on_error, finish in Hn. unfold_engine.
           rewrite Hn. reflexivity.
  - cbn.
    destruct (send_loop env cfg fuel raw keep w1) as [[[w2 t2] r2]|] eqn:Hl;
      [|discriminate].
    intros [= <- <- <-]. destruct (IH _ _ Hl) as [n Hn].
    exists (S n). cbn [run_worker].
    unfold worker_step, retry_on_error, finish. unfold_engine.
    rewrite Hs. cbn.
    unfold worker_step, retry_on_error, finish in Hn. unfold_engine.
    rewrite Hn. reflexivity.
Qed.

Lemma run_worker_send_reply (fuel : nat) (raw : reply_message) (keep : bool)
    (index : Z) (w w' : W) (t : list event) (r : outcome unit) :
  send_reply env cfg fuel raw keep index w = Some (w', t, r) ->
  exists n,
    run_worker env cfg n (raw, keep, index) Pending w = Some (w', t, r).
Proof.
  unfold send_reply. rewrite run_log_then, run_bind.
  destruct (send_loop env cfg fuel raw keep w) as [[[w1 t1] r1]|] eqn:Hl;
    [|discriminate].
  destruct (send_loop_returned _ _ _ _ _ _ _ _ _ Hl) as [-> _].
  destruct (run_worker_send_loop _ _ _ index _ _ _ _ Hl) as [n Hn].
  cbn. intros [= <- <- <-]. exists (S n). cbn [run_worker].
  unfold worker_step at 1. unfold_engine.
  unfold worker_step, retry_on_error, finish in Hn. unfold_engine.
  rewrite Hn. reflexivity.
Qed.

(** *** A ledger for the pool: a step pays what it logs of its debt. *)
Section Ledger.
Variable q : event -> bool.
Variable owed : task -> progress -> nat.
Hypothesis finished_owes_nothing : forall t, owed t Finished = 0%nat.
Hypothesis step_pays : forall t p w w' tr p',
  worker_step env cfg t p w = Some (w', tr, Returned p') ->
  (count q tr + owed t p' = owed t p)%nat.

Lemma debt_finished (ws : list (task * progress)) :
  forallb (fun tp => is_finished tp.2) ws = true -> pool_debt owed ws = 0%nat.
Proof.
  induction ws as [|[t p] ws IH]; [reflexivity |]. cbn.
  intros [Hp Hws]%andb_prop. destruct p; try discriminate.
  unfold pool_debt in IH. rewrite finished_owes_nothing, (IH Hws). reflexivity.
Qed.

Lemma debt_insert (ws : list (task * progress)) (i : nat) (t : task)
    (p p' : progress) :
  ws !! i = Some (t, p) ->
  (pool_debt owed (<[i := (t, p')]> ws) + owed t p = pool_debt owed ws + owed t p')%nat.
Proof.
  revert i. induction ws as [|x ws IH]; intros [|i] Hi; try discriminate.
  - injection Hi as ->.
    change (<[0%nat:=(t, p')]> ((t, p) :: ws)) with ((t, p') :: ws).
    change (pool_debt owed ((t, p') :: ws)) with (owed t p' + pool_debt owed ws)%nat.
    change (pool_debt owed ((t, p) :: ws)) with (owed t p + pool_debt owed ws)%nat. lia.
  - change (<[S i:=(t, p')]> (x :: ws)) with (x :: <[i:=(t, p')]> ws).
    change (pool_debt owed (x :: <[i:=(t, p')]> ws))
      with (owed x.1 x.2 + pool_debt owed (<[i:=(t, p')]> ws))%nat.
    change (pool_debt owed (x :: ws)) with (owed x.1 x.2 + pool_debt owed ws)%nat.
    specialize (IH i Hi). lia.
Qed.

(** A pool that returned did not raise and logged exactly its debt. *)
Lemma run_pool_ledger (fuel : nat) (ws : list (task * progress)) (w w' : W)
    (tr : list event) (r : outcome unit) :
  run_pool env cfg fuel ws w = Some (w', tr, r) ->
  r = Returned tt /\ count q tr = pool_debt owed ws.
Proof.
  revert ws w tr. induction fuel as [|fuel IH]; intros ws w tr; cbn [run_pool];
    destruct (forallb (fun tp => is_finished tp.2) ws) eqn:Hall.
  - intros [= <- <- <-]. now rewrite debt_finished.
  - discriminate.
  - intros [= <- <- <-]. now rewrite debt_finished.
  - unfold_engine.
    destruct (next_worker env (length (movable cfg ws)) w) as [w0 k].
    destruct (movable cfg ws !! (k mod length (movable cfg ws))%nat) as [i|];
      [|discriminate].
    destruct (ws !! i) as [[t p]|] eqn:Hi; [|discriminate].
    destruct (worker_step env cfg t p w0) as [[[w1 t1] [p'|e]]|] eqn:Hstep;
      [| |discriminate].
    + destruct (run_pool env cfg fuel (<[i:=(t, p')]> ws) w1)
        as [[[w2 t2] r2]|] eqn:Hrun; [|discriminate].
      intros [= <- <- <-]. destruct (IH _ _ _ Hrun) as [-> Hcount].
      split; [reflexivity |]. cbn. rewrite count_app, Hcount.
      pose proof (step_pays _ _ _ _ _ _ Hstep).
      pose proof (debt_insert ws i t p p' Hi). lia.
    + destruct t as [[raw keep] index].
      destruct (worker_step_runs raw keep index p w0) as (? & ? & ? & Heq & _).
      congruence.
Qed.
End Ledger.
End Pool.

Section PoolCounts.
Context {W : Type} (env : environment W) (cfg : config).
Variable q : event -> bool.
Hypothesis attempts_not_counted : forall e, attempt_event e = true -> q e = false.

Lemma worker_step_pays (t : task) (p : progress) (w w' : W) (tr : list event)
    (p' : progress) :
  worker_step env cfg t p w = Some (w', tr, Returned p') ->
  (count q tr + owes q t p' = owes q t p)%nat.
Proof.
  destruct t as [[raw keep] index]. intros Hstep.
  destruct (worker_step_runs env cfg raw keep index p w)
    as (w2 & tr2 & p2 & Heq & Hshape).
  rewrite Heq in Hstep. injection Hstep as -> -> ->.
  assert (Hsilent : forall tr0, Forall (fun e => attempt_event e = true) tr0 ->
                                count q tr0 = 0%nat).
  { intros tr0 H0. apply count_none. eapply Forall_impl; [exact H0 |].
    exact attempts_not_counted. }
  destruct p; cbn [owes].
  - destruct Hshape as [-> ->]. rewrite count_cons. cbn. unfold bit.
    destruct (q _), (q _); reflexivity.
  - destruct Hshape as (tr0 & H0 & [[-> ->]|[Hw ->]]).
    + rewrite count_app, (Hsilent _ H0), count_cons. cbn. unfold bit.
      destruct (q _); reflexivity.
    + rewrite (Hsilent _ H0). destruct p'; try discriminate; reflexivity.
  - destruct Hshape as (tr0 & H0 & [[-> ->]|[Hw ->]]).
    + rewrite count_app, (Hsilent _ H0), count_cons. cbn. unfold bit.
      destruct (q _); reflexivity.
    + rewrite (Hsilent _ H0). destruct p'; try discriminate; reflexivity.
  - destruct Hshape as (tr0 & H0 & [[-> ->]|[Hw ->]]).
    + rewrite count_app, (Hsilent _ H0), count_cons. cbn. unfold bit.
      destruct (q _); reflexivity.
    + rewrite (Hsilent _ H0). destruct p'; try discriminate; reflexivity.
  - destruct Hshape as [-> ->]. reflexivity.
Qed.

(** A pool that returned did not raise, and logged the opening and the
    closing record of every task that was pending, the closing record of
    every task that was under way, and nothing else that [q] counts. *)
Lemma run_pool_count (fuel : nat) (ws : list (task * progress)) (w w' : W)
    (tr : list event) (r : outcome unit) :
  run_pool env cfg fuel ws w = Some (w', tr, r) ->
  r = Returned tt /\ count q tr = pool_debt (owes q) ws.
Proof.
  apply run_pool_ledger.
  - reflexivity.
  - apply worker_step_pays.
Qed.

Lemma pool_debt_pending (tasks : list task) :
  pool_debt (owes q) (map (fun t => (t, Pending)) tasks)
  = sum_list_with
      (fun t => bit (q (opening_record t.2)) + bit (q (closing_record t.2)))%nat
      tasks.
Proof.
  unfold pool_debt. induction tasks as [|t tasks IH]; [reflexivity |].
  cbn. now rewrite IH.
Qed.
End PoolCounts.

(** ** The attempt indices of a policy *)

Lemma elem_of_range (j n : Z) : j ∈ range n <-> (0 <= j < n)%Z.
Proof.
  unfold range. rewrite list_elem_of_fmap. split.
  - intros (k & -> & Hk). apply elem_of_seq in Hk. lia.
  - intros Hj. exists (Z.to_nat j). split; [lia |]. apply elem_of_seq. lia.
Qed.

Lemma NoDup_range (n : Z) : NoDup (range n).
Proof.
  unfold range. apply NoDup_fmap_2; [|apply NoDup_seq].
  intros x y. lia.
Qed.

Lemma sum_indicator (l : list Z) (j : Z) :
  NoDup l ->
  sum_list_with (fun i => bit (i =? j)%Z) l = bit (bool_decide (j ∈ l)).
Proof.
  induction 1 as [|x l Hx Hl IH]; [reflexivity |].
  cbn [sum_list_with]. rewrite IH.
  destruct (Z.eqb_spec x j) as [->|Hne].
  - rewrite (bool_decide_eq_false_2 (j ∈ l)) by exact Hx.
    rewrite bool_decide_eq_true_2 by (apply elem_of_cons; now left).
    reflexivity.
  - destruct (decide (j ∈ l)) as [Hj|Hj].
    + rewrite !bool_decide_eq_true_2;
        [reflexivity | apply elem_of_cons; now right | exact Hj].
    + rewrite !bool_decide_eq_false_2; [reflexivity | | exact Hj].
      rewrite elem_of_cons. intros [?|?]; [congruence | contradiction].
Qed.

Lemma sum_list_with_map {A B} (f : B -> nat) (g : A -> B) (l : list A) :
  sum_list_with f (map g l) = sum_list_with (fun a => f (g a)) l.
Proof. induction l as [|a l IH]; [reflexivity |]. cbn. now rewrite IH. Qed.

Lemma sum_list_with_zero {A} (l : list A) :
  sum_list_with (fun _ => 0%nat) l = 0%nat.
Proof. induction l as [|a l IH]; [reflexivity |]. exact IH. Qed.

Lemma sum_list_with_ext {A} (f g : A -> nat) (l : list A) :
  (forall a, f a = g a) -> sum_list_with f l = sum_list_with g l.
Proof.
  intros H. induction l as [|a l IH]; [reflexivity |]. cbn. now rewrite H, IH.
Qed.

Lemma NoDup_reply_indices (attrs : reply_attributes) :
  NoDup (reply_indices attrs).
Proof.
  unfold reply_indices. destruct (ra_multiple attrs).
  - apply NoDup_range.
  - apply NoDup_singleton.
Qed.

(** ** Policy resolver *)

(** The three ways of the claim in which a From field is unmatched. *)
Lemma unmatched_cases (cfg : config) (from_field : header_field) :
  hf_index from_field = (-1)%Z
  \/ hf_value from_field = None
  \/ hf_value from_field = Some ""
  \/ (exists v, hf_value from_field = Some v /\ reply_mapping cfg !! v = None) ->
  unmatched cfg from_field = true.
Proof.
  unfold unmatched. intros [H|[H|[H|(v & H & Hv)]]]; rewrite H; cbn.
  - reflexivity.
  - rewrite orb_true_r. reflexivity.
  - rewrite orb_true_r. reflexivity.
  - rewrite Hv. rewrite bool_decide_eq_false_2; [|intros [? ?]; discriminate].
    apply orb_true_r.
Qed.

Lemma matched_sender (cfg : config) (headers : list header)
    (sender : string) (attrs : reply_attributes) :
  hf_value (get_header_field headers "From") = Some sender ->
  sender <> "" ->
  reply_mapping cfg !! sender = Some attrs ->
  unmatched cfg (get_header_field headers "From") = false.
Proof.
  intros Hv Hne Hattrs. unfold unmatched.
  pose proof (get_header_field_from_found 0 headers "From" sender
                ltac:(lia) Hv) as Hi.
  fold (get_header_field headers "From") in Hi.
  rewrite Hv. cbn. rewrite Hattrs.
  destruct (Z.ltb_spec (hf_index (get_header_field headers "From")) 0);
    [lia |].
  rewrite (proj2 (String.eqb_neq _ _) Hne).
  rewrite bool_decide_eq_true_2; [reflexivity | eauto].
Qed.

(** ** Bounce orchestrator: one message *)

Section Orchestrator.
Context {W : Type} (env : environment W) (cfg : config).

(** The replies of one matched message, once they returned: no exception,
    and between the two records that bracket a pool, a trace whose counted
    events are the opening and the closing record of every attempt index of
    the policy. *)
Lemma send_replies_returned (fuel : nat) (raw : reply_message)
    (attrs : reply_attributes) (w w' : W) (t : list event) (r : outcome unit) :
  (is_Some (ra_multiple attrs) -> (1 <= pool_size cfg)%Z) ->
  send_replies env cfg fuel raw attrs w = Some (w', t, r) ->
  r = Returned tt
  /\ exists core,
      t = match ra_multiple attrs with
          | Some n => [Log DEBUG (pyformat "Sending %s replies." [pretty n])]
          | None => []
          end
          ++ core
          ++ match ra_multiple attrs with
             | Some n => [Log DEBUG (pyformat "Sent %s replies." [pretty n])]
             | None => []
             end
      /\ forall q : event -> bool,
          (forall e, attempt_event e = true -> q e = false) ->
          count q core
          = sum_list_with
              (fun i => bit (q (opening_record i)) + bit (q (closing_record i)))%nat
              (reply_indices attrs).
Proof.
  intros Hpool. unfold send_replies, reply_indices.
  destruct (ra_multiple attrs) as [n|].
  - rewrite run_log_then, run_bind. unfold starmap_send_reply.
    destruct (Z.ltb_spec (pool_size cfg) 1) as [Hlt|_].
    { specialize (Hpool ltac:(eauto)). lia. }
    destruct (run_pool _ _ _ _ _) as [[[w1 t1] r1]|] eqn:Hrun; [|discriminate].
    destruct (run_pool_count env cfg (fun _ => false) ltac:(reflexivity)
                _ _ _ _ _ _ Hrun) as [-> _].
    cbn. intros [= <- <- <-]. split; [reflexivity |].
    exists t1. split; [reflexivity |]. intros q Hq.
    destruct (run_pool_count env cfg q Hq _ _ _ _ _ _ Hrun) as [_ ->].
    rewrite pool_debt_pending, sum_list_with_map. reflexivity.
  - intros Hrun. destruct (send_reply_returned _ _ _ _ _ _ _ _ _ _ Hrun)
      as [-> (t' & -> & Ht')].
    split; [reflexivity |]. eexists. split; [now rewrite app_nil_r |].
    intros q Hq. cbn [sum_list_with].
    rewrite count_cons, count_app, count_cons.
    rewrite (count_none q t').
    + unfold bit, opening_record, closing_record.
      destruct (q (Log DEBUG (pyformat "sending and deleting reply - %s" _))),
        (q (Log DEBUG (pyformat "sent and deleted reply - %s" _)));
        reflexivity.
    + eapply Forall_impl; [exact Ht' | exact Hq].
Qed.

(** The loop body on a message whose sender is not matched. *)
Lemma execute_message_unmatched_run (fuel : nat) (id : string) (w w1 : W)
    (m : message) :
  messages_get env id w = (w1, Returned m) ->
  unmatched cfg (get_header_field (headers m) "From") = true ->
  execute_message env cfg fuel id w
  = Some (w1,
          [Log DEBUG (pyformat "processing message ID %s" [id]);
           GetMessage id;
           Log DEBUG
             (pyformat ("sender of unread message %s not found in reply "
                        +:+ "mapping, no action taken")
                [str_opt (hf_value (get_header_field (headers m) "From"))]);
           Log DEBUG (pyformat "processed message ID %s" [id])],
          Returned tt).
Proof.
  intros Hget Hun. unfold execute_message. unfold_engine.
  rewrite Hget, Hun. reflexivity.
Qed.

(** The loop body on a message whose sender is matched and whose fields
    could be extracted: the replies, then the delete of the original. *)
Lemma execute_message_matched_run (fuel : nat) (id : string) (w w1 : W)
    (m : message) (sender : string) (attrs : reply_attributes)
    (date_field to_field subject_field : header_field) (body : string) :
  messages_get env id w = (w1, Returned m) ->
  hf_value (get_header_field (headers m) "From") = Some sender ->
  sender <> "" ->
  reply_mapping cfg !! sender = Some attrs ->
  process_message (b64_utf8_decode env) m
  = Returned (date_field, to_field, subject_field, body) ->
  let pre :=
    [Log DEBUG (pyformat "processing message ID %s" [id]);
     GetMessage id;
     Log INFO (pyformat "sender of unread message %s found in reply mapping"
                 [sender])] in
  execute_message env cfg fuel id w
  = match send_replies env cfg fuel
            (construct_reply cfg (get_header_field (headers m) "From")
               date_field to_field subject_field body attrs) attrs w1 with
    | None => None
    | Some (w2, t2, Raised e) => Some (w2, pre ++ t2, Raised e)
    | Some (w2, t2, Returned _) =>
        let (w3, r) := messages_delete env id w2 in
        Some (w3,
              pre ++ t2 ++ DeleteOriginal id r
                :: match r with
                   | Returned _ =>
                       [Log DEBUG (pyformat "processed message ID %s" [id])]
                   | Raised _ => []
                   end,
              r)
    end.
Proof.
  intros Hget Hv Hne Hattrs Hproc pre. unfold execute_message. unfold_engine.
  rewrite Hget, (matched_sender cfg _ sender attrs Hv Hne Hattrs), Hv. cbn.
  rewrite Hattrs, Hproc.
  destruct (send_replies _ _ _ _ _ _) as [[[w2 t2] [[]|e]]|]; try reflexivity.
  destruct (messages_delete env id w2) as [w3 [[]|e]]; subst pre;
    cbn [app]; rewrite <- ?app_assoc; reflexivity.
Qed.

(** C1: a message whose From field has position -1, or no value or the
    empty value, or a value that is not a key of the reply mapping, is
    fetched and logged as unmatched, and that is all: the loop body returns
    normally (the loop goes on), it makes no send and no delete, and the
    world is as the fetch left it. *)
Theorem unmatched_message_untouched (fuel : nat) (id : string) (w w1 : W)
    (m : message) :
  messages_get env id w = (w1, Returned m) ->
  (let from_field := get_header_field (headers m) "From" in
   hf_index from_field = (-1)%Z
   \/ hf_value from_field = None
   \/ hf_value from_field = Some ""
   \/ (exists v, hf_value from_field = Some v
                 /\ reply_mapping cfg !! v = None)) ->
  let t :=
    [Log DEBUG (pyformat "processing message ID %s" [id]);
     GetMessage id;
     Log DEBUG
       (pyformat ("sender of unread message %s not found in reply "
                  +:+ "mapping, no action taken")
          [str_opt (hf_value (get_header_field (headers m) "From"))]);
     Log DEBUG (pyformat "processed message ID %s" [id])] in
  execute_message env cfg fuel id w = Some (w1, t, Returned tt)
  /\ count is_send t = 0%nat
  /\ count is_delete_reply t = 0%nat
  /\ count is_delete_original t = 0%nat.
Proof.
  intros Hget Hun t. split; [|repeat split].
  apply execute_message_unmatched_run; [exact Hget |].
  apply unmatched_cases. exact Hun.
Qed.

(** C10, as the code has it: a matched message whose policy has
    ["multiple": 0], whose fields can be extracted, with a configured pool
    size that the pool accepts, gets no reply at all, the pool being given
    an empty task list, and the delete of its original is called all the
    same; the outcome of the loop body is that of the delete. *)
Theorem zero_multiple_deletes_without_reply (fuel : nat) (id : string)
    (w w1 w2 : W) (m : message) (sender : string) (attrs : reply_attributes)
    (fields : header_field * header_field * header_field * string)
    (r : outcome unit) :
  messages_get env id w = (w1, Returned m) ->
  hf_value (get_header_field (headers m) "From") = Some sender ->
  sender <> "" ->
  reply_mapping cfg !! sender = Some attrs ->
  ra_multiple attrs = Some 0%Z ->
  process_message (b64_utf8_decode env) m = Returned fields ->
  (1 <= pool_size cfg)%Z ->
  messages_delete env id w1 = (w2, r) ->
  let t :=
    [Log DEBUG (pyformat "processing message ID %s" [id]);
     GetMessage id;
     Log INFO (pyformat "sender of unread message %s found in reply mapping"
                 [sender]);
     Log DEBUG "Sending 0 replies.";
     Log DEBUG "Sent 0 replies.";
     DeleteOriginal id r]
    ++ match r with
       | Returned _ => [Log DEBUG (pyformat "processed message ID %s" [id])]
       | Raised _ => []
       end in
  execute_message env cfg fuel id w = Some (w2, t, r)
  /\ count is_send t = 0%nat
  /\ count is_delete_original t = 1%nat.
Proof.
  intros Hget Hv Hne Hattrs Hmult Hproc Hpool Hdel t.
  destruct fields as [[[date_field to_field] subject_field] body].
  split.
  - rewrite (execute_message_matched_run fuel id w w1 m sender attrs _ _ _ _
               Hget Hv Hne Hattrs Hproc).
    unfold send_replies, starmap_send_reply. rewrite Hmult.
    destruct (Z.ltb_spec (pool_size cfg) 1) as [?|_]; [lia |].
    rewrite run_log_then, run_bind.
    replace (run_pool env cfg fuel _ w1) with (Some (w1, @nil event, Returned tt))
      by (destruct fuel; reflexivity).
    cbn. rewrite Hdel. subst t. destruct r; reflexivity.
  - subst t. destruct r; split; reflexivity.
Qed.

(** What the replies of a matched message add to three counts: no delete
    of an original; for every index, the closing record once when the index
    is one of the policy's, and the opening record likewise. *)
Lemma send_replies_counts (fuel : nat) (raw : reply_message)
    (attrs : reply_attributes) (w w' : W) (t : list event) (r : outcome unit) :
  (is_Some (ra_multiple attrs) -> (1 <= pool_size cfg)%Z) ->
  send_replies env cfg fuel raw attrs w = Some (w', t, r) ->
  r = Returned tt
  /\ count is_delete_original t = 0%nat
  /\ (forall j, count (completed j) t
                = bit (bool_decide (j ∈ reply_indices attrs)))
  /\ (forall j, count (started j) t
                = bit (bool_decide (j ∈ reply_indices attrs))).
Proof.
  intros Hpool Hrun.
  destruct (send_replies_returned fuel raw attrs w w' t r Hpool Hrun)
    as [-> (core & -> & Hcore)].
  split; [reflexivity |]. split; [|split].
  - rewrite !count_app, (Hcore is_delete_original)
      by (intros [[]| | | | | | |]; cbn; congruence).
    rewrite (sum_list_with_ext _ (fun _ => 0%nat)) by reflexivity.
    rewrite sum_list_with_zero.
    destruct (ra_multiple attrs); reflexivity.
  - intros j. rewrite !count_app, (Hcore (completed j))
      by (intros e He; apply (attempt_event_not_counted j e He)).
    rewrite (sum_list_with_ext _ (fun i => bit (i =? j)%Z))
      by (intros i; now rewrite completed_start, completed_done).
    rewrite sum_indicator by apply NoDup_reply_indices.
    destruct (ra_multiple attrs); cbn; lia.
  - intros j. rewrite !count_app, (Hcore (started j))
      by (intros e He; apply (attempt_event_not_counted j e He)).
    rewrite (sum_list_with_ext _ (fun i => bit (i =? j)%Z))
      by (intros i; rewrite started_start, started_done; unfold bit;
          destruct (i =? j)%Z; reflexivity).
    rewrite sum_indicator by apply NoDup_reply_indices.
    destruct (ra_multiple attrs); cbn; lia.
Qed.

(** A returned loop body on a matched message: what came before the delete
    of the original holds no such delete and, for each index, as many
    closing and opening records as the policy has that index. *)
Lemma execute_message_matched_returned (fuel : nat) (id : string)
    (w w1 w' : W) (m : message) (sender : string) (attrs : reply_attributes)
    (fields : header_field * header_field * header_field * string)
    (t : list event) (r : outcome unit) :
  messages_get env id w = (w1, Returned m) ->
  hf_value (get_header_field (headers m) "From") = Some sender ->
  sender <> "" ->
  reply_mapping cfg !! sender = Some attrs ->
  process_message (b64_utf8_decode env) m = Returned fields ->
  (is_Some (ra_multiple attrs) -> (1 <= pool_size cfg)%Z) ->
  execute_message env cfg fuel id w = Some (w', t, r) ->
  exists before,
    t = before ++ DeleteOriginal id r
          :: match r with
             | Returned _ =>
                 [Log DEBUG (pyformat "processed message ID %s" [id])]
             | Raised _ => []
             end
    /\ count is_delete_original before = 0%nat
    /\ (forall j, count (completed j) before
                  = bit (bool_decide (j ∈ reply_indices attrs)))
    /\ (forall j, count (started j) before
                  = bit (bool_decide (j ∈ reply_indices attrs)))
    /\ (forall n, count (announces_pool n) before
                  = bit (bool_decide (ra_multiple attrs = Some n))).
Proof.
  intros Hget Hv Hne Hattrs Hproc Hpool.
  destruct fields as [[[date_field to_field] subject_field] body].
  rewrite (execute_message_matched_run fuel id w w1 m sender attrs _ _ _ _
             Hget Hv Hne Hattrs Hproc).
  destruct (send_replies _ _ _ _ _ _) as [[[w2 t2] r2]|] eqn:Hrun;
    [|discriminate].
  destruct (send_replies_counts _ _ _ _ _ _ _ Hpool Hrun)
    as (-> & Hdel & Hdone & Hstart).
  destruct (send_replies_returned _ _ _ _ _ _ _ Hpool Hrun)
    as (_ & core & Ht2 & Hcore).
  destruct (messages_delete env id w2) as [w3 r3].
  intros [= <- <- <-].
  exists ([Log DEBUG (pyformat "processing message ID %s" [id]);
           GetMessage id;
           Log INFO
             (pyformat "sender of unread message %s found in reply mapping"
                [sender])] ++ t2).
  split; [rewrite <- app_assoc; reflexivity |].
  split; [|split; [|split]].
  - rewrite count_app, Hdel. reflexivity.
  - intros j. rewrite count_app, Hdone. reflexivity.
  - intros j. rewrite count_app, Hstart. reflexivity.
  - intros n. rewrite count_app, Ht2, !count_app.
    rewrite (Hcore (announces_pool n))
      by (intros [[]| | | | | | |]; cbn; congruence).
    rewrite (sum_list_with_ext _ (fun _ => 0%nat)) by reflexivity.
    rewrite sum_list_with_zero.
    destruct (ra_multiple attrs) as [n0|].
    + rewrite !count_cons.
      change (announces_pool n (Log DEBUG (pyformat "Sent %s replies." [pretty n0])))
        with false.
      assert (announces_pool n
                (Log DEBUG (pyformat "Sending %s replies." [pretty n0]))
              = bool_decide (Some n0 = Some n)) as ->.
      { unfold announces_pool. case_bool_decide as Hn.
        - injection Hn as ->. apply String.eqb_refl.
        - apply String.eqb_neq. cbn. intros H. injection H as H.
          apply append_inj_r, (inj pretty) in H. congruence. }
      cbn. unfold bit. destruct (bool_decide _); reflexivity.
    + rewrite bool_decide_eq_false_2 by discriminate. reflexivity.
Qed.
End Orchestrator.

(** ** Progress in a world without failures *)

Section Progress.
Context {W : Type} (env : environment W) (cfg : config).
Variable good : W -> Prop.
Hypothesis Hgood : dependable env good.

Lemma send_attempt_dependable (raw : reply_message) (keep : bool) (w : W) :
  good w ->
  (keep = true \/ can_sleep env (delete_delay cfg)) ->
  exists w' t,
    send_attempt env cfg raw keep w = Some (w', t, Returned true) /\ good w'.
Proof.
  intros Hw Hkeep. destruct Hgood as (Hsend & Hdelete & _).
  destruct (Hsend w raw Hw) as (w1 & id & Hs & Hw1).
  destruct keep.
  - exists w1. eexists. split; [|exact Hw1].
    apply (send_attempt_goes_through env cfg raw true w w1 w1 id Hs).
    reflexivity.
  - destruct Hkeep as [?|Hdelay]; [discriminate |].
    destruct (Hdelete w1 id Hw1) as (w2 & Hd & Hw2).
    exists w2. eexists. split; [|exact Hw2].
    apply (send_attempt_goes_through env cfg raw false w w1 w2 id Hs).
    split; assumption.
Qed.

Lemma send_reply_dependable (fuel : nat) (raw : reply_message) (keep : bool)
    (index : Z) (w : W) :
  good w ->
  (keep = true \/ can_sleep env (delete_delay cfg)) ->
  exists w' t,
    send_reply env cfg (S fuel) raw keep index w = Some (w', t, Returned tt)
    /\ good w'.
Proof.
  intros Hw Hkeep.
  destruct (send_attempt_dependable raw keep w Hw Hkeep) as (w' & t & Ha & Hw').
  exists w'. eexists. split; [|exact Hw'].
  unfold send_reply. rewrite run_log_then, run_bind. cbn [send_loop].
  rewrite run_bind, Ha. reflexivity.
Qed.

(** Without failures a step of an unfinished worker brings it nearer to
    its end. *)
Lemma worker_step_dependable (t : task) (p : progress) (w : W) :
  good w ->
  (t.1.2 = true \/ can_sleep env (delete_delay cfg)) ->
  p <> Finished ->
  exists w' tr p',
    worker_step env cfg t p w = Some (w', tr, Returned p')
    /\ good w' /\ (remaining t p' < remaining t p)%nat.
Proof.
  intros Hw Hkeep Hp. destruct Hgood as (Hsend & Hdelete & _).
  destruct t as [[raw keep] index]. cbn in Hkeep.
  destruct p as [| |reply|reply|]; [..|congruence];
    unfold worker_step, retry_on_error, finish, remaining; unfold_engine.
  - eexists _, _, _. split; [reflexivity |].
    split; [exact Hw | destruct keep; cbn; lia].
  - destruct (Hsend w raw Hw) as (w1 & id & -> & Hw1).
    destruct keep; cbn; eexists _, _, _;
      (split; [reflexivity |]); (split; [exact Hw1 | lia]).
  - destruct keep.
    + destruct (delete_delay cfg <? 0)%Z; cbn;
        [|destruct (sleep_refused env (delete_delay cfg)) as [refusal|]; cbn]; eexists _, _, _;
        (split; [reflexivity |]); (split; [exact Hw | lia]).
    + destruct Hkeep as [?|[Hdelay Htakes]]; [discriminate |].
      destruct (Z.ltb_spec (delete_delay cfg) 0) as [?|_]; [lia |].
      rewrite Htakes. cbn.
      eexists _, _, _. split; [reflexivity |]. split; [exact Hw | lia].
  - destruct (Hdelete w reply Hw) as (w1 & -> & Hw1). cbn.
    eexists _, _, _. split; [reflexivity |].
    split; [exact Hw1 | destruct keep; lia].
Qed.

Lemma movable_spec (ws : list (task * progress)) (i : nat) :
  i ∈ movable cfg ws
  <-> exists t p, ws !! i = Some (t, p) /\ can_move cfg ws p = true.
Proof.
  unfold movable. rewrite list_elem_of_In, List.filter_In, List.in_seq. split.
  - intros [_ H]. destruct (ws !! i) as [[t p]|]; [eauto | discriminate].
  - intros (t & p & Hi & Hp). rewrite Hi. split; [|exact Hp].
    apply lookup_lt_Some in Hi. lia.
Qed.

Lemma busy_idle (ws : list (task * progress)) :
  (forall tp, In tp ws -> working tp.2 = false) -> busy ws = 0%nat.
Proof.
  unfold busy. induction ws as [|tp ws IH]; intros H; [reflexivity |].
  cbn. rewrite (H tp) by (left; reflexivity).
  apply IH. intros tp' Hin. apply H. right. exact Hin.
Qed.

(** While a task is unfinished and the pool has room for one process, some
    worker can move. *)
Lemma movable_nonempty (ws : list (task * progress)) :
  forallb (fun tp => is_finished tp.2) ws = false ->
  (1 <= pool_size cfg)%Z ->
  exists i, i ∈ movable cfg ws.
Proof.
  intros Hall Hpool.
  destruct (List.find (fun tp => working tp.2) ws) as [[t p]|] eqn:Hfind.
  - apply List.find_some in Hfind as [Hin Hw]. cbn in Hw.
    apply list_elem_of_In, list_elem_of_lookup in Hin as [i Hi].
    exists i. apply movable_spec. exists t, p. split; [exact Hi |].
    destruct p; try discriminate; reflexivity.
  - pose proof (List.find_none _ _ Hfind) as Hidle.
    destruct (List.find (fun tp => negb (is_finished tp.2)) ws) as [[t p]|]
      eqn:Hfind'.
    + apply List.find_some in Hfind' as [Hin Hp]. cbn in Hp.
      pose proof (Hidle _ Hin) as Hw. cbn in Hw.
      apply list_elem_of_In, list_elem_of_lookup in Hin as [i Hi].
      exists i. apply movable_spec. exists t, p. split; [exact Hi |].
      destruct p; try discriminate. cbn.
      rewrite (busy_idle ws Hidle). apply Z.ltb_lt. lia.
    + pose proof (List.find_none _ _ Hfind') as Hfin.
      assert (forallb (fun tp => is_finished tp.2) ws = true) as Hall'.
      { apply List.forallb_forall. intros tp Hin.
        specialize (Hfin tp Hin). cbn in Hfin. now apply negb_false_iff. }
      congruence.
Qed.

Lemma can_move_unfinished (ws : list (task * progress)) (p : progress) :
  can_move cfg ws p = true -> p <> Finished.
Proof. intros H ->. discriminate. Qed.

(** Without failures the pool returns once the fuel covers the steps its
    workers have left, whatever the scheduler picks. *)
Lemma run_pool_dependable (fuel : nat) (ws : list (task * progress)) (w : W) :
  good w ->
  (1 <= pool_size cfg)%Z ->
  Forall (fun tp : task * progress =>
            tp.1.1.2 = true \/ can_sleep env (delete_delay cfg)) ws ->
  (pool_debt remaining ws <= fuel)%nat ->
  exists w' tr,
    run_pool env cfg fuel ws w = Some (w', tr, Returned tt) /\ good w'.
Proof.
  intros Hw Hpool. revert ws w Hw.
  induction fuel as [|fuel IH]; intros ws w Hw Hkeep Hdebt; cbn [run_pool];
    destruct (forallb (fun tp => is_finished tp.2) ws) eqn:Hall;
    try (exists w, []; split; [reflexivity | exact Hw]).
  - destruct (movable_nonempty ws Hall Hpool) as [i Hi].
    apply movable_spec in Hi as (t & p & Hi & Hp).
    apply can_move_unfinished in Hp.
    pose proof (proj1 (Forall_lookup _ _) Hkeep i (t, p) Hi) as Hk.
    destruct (worker_step_dependable t p w Hw Hk Hp)
      as (w1 & tr & p' & _ & _ & Hlt).
    pose proof (debt_insert remaining ws i t p p' Hi). lia.
  - unfold_engine.
    destruct (next_worker env (length (movable cfg ws)) w) as [w0 k] eqn:Hnext.
    assert (Hw0 : good w0).
    { destruct Hgood as (_ & _ & Hsched).
      specialize (Hsched w (length (movable cfg ws)) Hw).
      now rewrite Hnext in Hsched. }
    destruct (movable_nonempty ws Hall Hpool) as [i0 Hi0].
    assert (Hlen : (0 < length (movable cfg ws))%nat).
    { destruct (movable cfg ws); [inversion Hi0 | cbn; lia]. }
    destruct (lookup_lt_is_Some_2 (movable cfg ws)
                (k mod length (movable cfg ws))%nat) as [i Hpick].
    { apply Nat.mod_upper_bound. lia. }
    rewrite Hpick.
    assert (Hi : i ∈ movable cfg ws) by (eapply list_elem_of_lookup_2; eauto).
    apply movable_spec in Hi as (t & p & Hi & Hp).
    apply can_move_unfinished in Hp. rewrite Hi.
    pose proof (proj1 (Forall_lookup _ _) Hkeep i (t, p) Hi) as Hk.
    destruct (worker_step_dependable t p w0 Hw0 Hk Hp)
      as (w1 & tr & p' & -> & Hw1 & Hlt).
    pose proof (debt_insert remaining ws i t p p' Hi) as Hins.
    destruct (IH (<[i:=(t, p')]> ws) w1 Hw1) as (w2 & tr2 & -> & Hw2).
    + apply Forall_insert; [exact Hkeep | exact Hk].
    + lia.
    + exists w2. eexists. split; [reflexivity | exact Hw2].
Qed.
End Progress.

(** ** Bounce orchestrator: a matched message *)

Section Matched.
Context {W : Type} (env : environment W) (cfg : config).

Lemma pool_debt_remaining_pending (tasks : list task) :
  (pool_debt remaining (map (fun t => (t, Pending)) tasks)
   <= 5 * length tasks)%nat.
Proof.
  unfold pool_debt. induction tasks as [|[[raw keep] index] tasks IH];
    [cbn; lia |].
  cbn [map sum_list_with length]. unfold remaining at 1. cbn.
  destruct keep; lia.
Qed.

(** Without failures the replies of a policy return, on a fuel the policy
    gives. *)
Lemma send_replies_dependable (good : W -> Prop) (raw : reply_message)
    (attrs : reply_attributes) (w : W) :
  dependable env good ->
  good w ->
  (is_Some (ra_multiple attrs) -> (1 <= pool_size cfg)%Z) ->
  (default false (ra_keep_reply attrs) = true \/ can_sleep env (delete_delay cfg)) ->
  exists w' t,
    send_replies env cfg (S (5 * length (reply_indices attrs))) raw attrs w
    = Some (w', t, Returned tt).
Proof.
  intros Hgood Hw Hpool Hkeep. unfold send_replies, reply_indices.
  destruct (ra_multiple attrs) as [n|].
  - rewrite run_log_then, run_bind. unfold starmap_send_reply.
    destruct (Z.ltb_spec (pool_size cfg) 1) as [?|_].
    { specialize (Hpool ltac:(eauto)). lia. }
    edestruct (run_pool_dependable env cfg good Hgood
                 (S (5 * length (range n)))
                 (map (fun t : task => (t, Pending))
                    (map (fun i => (raw, default false (ra_keep_reply attrs), i))
                       (range n))) w Hw)
      as (w' & tr & -> & _).
    + apply Hpool. eauto.
    + apply Forall_forall. intros [t p] Hin.
      apply list_elem_of_fmap in Hin as (t' & [= -> ->] & Hin).
      apply list_elem_of_fmap in Hin as (i & -> & _). exact Hkeep.
    + pose proof (pool_debt_remaining_pending
                    (map (fun i => (raw, default false (ra_keep_reply attrs), i))
                       (range n))) as Hle.
      rewrite length_map in Hle. lia.
    + eexists _, _. reflexivity.
  - destruct (send_reply_dependable env cfg good Hgood (5 * 1)%nat raw
                (default false (ra_keep_reply attrs)) 0%Z w Hw Hkeep)
      as (w' & t & Hrun & _).
    exists w', t. exact Hrun.
Qed.

(** A worker that came to its end, and a pool whose workers all did, has
    counted at least what was owed, whatever failed on the way. *)
Section Floor.
Variable q : event -> bool.
Variable owed : task -> progress -> nat.
Hypothesis finished_owes_nothing : forall t, owed t Finished = 0%nat.
Hypothesis step_pays_at_least : forall t p w w' tr p',
  worker_step env cfg t p w = Some (w', tr, Returned p') ->
  (owed t p <= count q tr + owed t p')%nat.

Lemma run_worker_floor (fuel : nat) (t : task) (p : progress) (w w' : W)
    (tr : list event) (r : outcome unit) :
  run_worker env cfg fuel t p w = Some (w', tr, r) ->
  (owed t p <= count q tr)%nat.
Proof.
  revert p w tr. induction fuel as [|fuel IH]; intros p w tr.
  - destruct p; try discriminate. intros _.
    rewrite finished_owes_nothing. lia.
  - destruct p; cbn [run_worker];
      try (intros _; rewrite finished_owes_nothing; lia);
      rewrite run_bind;
      (destruct (worker_step env cfg t _ w) as [[[w1 t1] [p'|e]]|] eqn:Hstep;
       [| |discriminate]);
      try (destruct t as [[raw keep] index];
           match type of Hstep with
           | worker_step _ _ _ ?p0 _ = _ =>
               destruct (worker_step_runs env cfg raw keep index p0 w)
                 as (? & ? & ? & Heq & _)
           end; congruence);
      (destruct (run_worker env cfg fuel t p' w1) as [[[w2 t2] r2]|] eqn:Hrun;
       [|discriminate]);
      intros [= <- <- <-];
      pose proof (step_pays_at_least _ _ _ _ _ _ Hstep);
      pose proof (IH _ _ _ Hrun); rewrite !count_app; lia.
Qed.

Lemma run_pool_floor (fuel : nat) (ws : list (task * progress)) (w w' : W)
    (tr : list event) (r : outcome unit) :
  run_pool env cfg fuel ws w = Some (w', tr, r) ->
  (pool_debt owed ws <= count q tr)%nat.
Proof.
  revert ws w tr. induction fuel as [|fuel IH]; intros ws w tr;
    cbn [run_pool];
    destruct (forallb (fun tp => is_finished tp.2) ws) eqn:Hall.
  - intros _. rewrite (debt_finished owed finished_owes_nothing ws Hall). lia.
  - discriminate.
  - intros _. rewrite (debt_finished owed finished_owes_nothing ws Hall). lia.
  - unfold_engine.
    destruct (next_worker env (length (movable cfg ws)) w) as [w0 k].
    destruct (movable cfg ws !! (k mod length (movable cfg ws))%nat) as [i|];
      [|discriminate].
    destruct (ws !! i) as [[t p]|] eqn:Hi; [|discriminate].
    destruct (worker_step env cfg t p w0) as [[[w1 t1] [p'|e]]|] eqn:Hstep;
      [| |discriminate];
      [|destruct t as [[raw keep] index];
        destruct (worker_step_runs env cfg raw keep index p w0)
          as (? & ? & ? & Heq & _); congruence].
    destruct (run_pool env cfg fuel (<[i:=(t, p')]> ws) w1)
      as [[[w2 t2] r2]|] eqn:Hrun; [|discriminate].
    intros [= <- <- <-].
    pose proof (step_pays_at_least _ _ _ _ _ _ Hstep).
    pose proof (IH _ _ _ Hrun).
    pose proof (debt_insert owed ws i t p p' Hi).
    cbn [app]. rewrite !count_app. lia.
Qed.
End Floor.

(** Every step of a worker that leaves the send behind has delivered. *)
Lemma worker_step_delivers (t : task) (p : progress) (w w' : W)
    (tr : list event) (p' : progress) :
  worker_step env cfg t p w = Some (w', tr, Returned p') ->
  (owes_send t p <= count is_sent tr + owes_send t p')%nat.
Proof.
  destruct t as [[raw keep] index].
  destruct p as [| |reply|reply|]; unfold worker_step, retry_on_error, finish;
    unfold_engine.
  - intros [= <- <- <-]. cbn. lia.
  - destruct (messages_send env raw w) as [w1 [id|e]]; cbn;
      [destruct keep; cbn |]; intros [= <- <- <-]; cbn; lia.
  - cbn. lia.
  - cbn. lia.
  - intros [= <- <- <-]. cbn. lia.
Qed.

(** The replies of a message that came to their end were delivered: at
    least one delivered send for each reply of the policy. *)
Lemma send_replies_delivered (fuel : nat) (raw : reply_message)
    (attrs : reply_attributes) (w w' : W) (t : list event) :
  send_replies env cfg fuel raw attrs w = Some (w', t, Returned tt) ->
  (length (reply_indices attrs) <= count is_sent t)%nat.
Proof.
  unfold send_replies, reply_indices.
  destruct (ra_multiple attrs) as [multiple|].
  - unfold starmap_send_reply. unfold_engine.
    destruct (pool_size cfg <? 1)%Z; [discriminate |].
    destruct (run_pool _ _ _ _ _) as [[[w1 t1] [[]|e]]|] eqn:Hrun;
      try discriminate.
    intros [= <- <-]. cbn [app]. rewrite !count_cons, !count_app, !count_cons.
    pose proof (run_pool_floor is_sent owes_send (fun _ => eq_refl)
                  worker_step_delivers _ _ _ _ _ _ Hrun) as Hfloor.
    assert (forall tasks : list task,
              pool_debt owes_send (map (fun t => (t, Pending)) tasks)
              = length tasks) as Hdebt.
    { unfold pool_debt. induction tasks as [|t0 tasks IH]; [reflexivity |].
      cbn. now rewrite IH. }
    rewrite Hdebt, length_map in Hfloor. cbn. lia.
  - intros Hrun. destruct (run_worker_send_reply env cfg _ _ _ _ _ _ _ _ Hrun)
      as [k Hworker].
    pose proof (run_worker_floor is_sent owes_send (fun _ => eq_refl)
                  worker_step_delivers _ _ _ _ _ _ _ Hworker) as Hfloor.
    exact Hfloor.
Qed.

(** C2, as the code has it: for a message whose sender matched a policy,
    whose fields can be extracted and, when the policy has the key
    ["multiple"], with a pool size that the pool accepts, a loop body that
    came to its end has called the delete of the original exactly once.
    The delete is the last remote call of the body (only the closing debug
    record follows it, and no send); before it every reply the policy asks
    for has written its closing record and at least one send has been
    delivered for each; the outcome of the body is the outcome of the
    delete, whatever happened to the replies.  In a world where sends and
    deletes do not fail, and with a delay that [time.sleep] takes unless
    the replies are kept, the loop body does come to its end. *)
Theorem original_deleted_once_after_replies (id : string) (w w1 : W)
    (m : message) (sender : string) (attrs : reply_attributes)
    (fields : header_field * header_field * header_field * string) :
  messages_get env id w = (w1, Returned m) ->
  hf_value (get_header_field (headers m) "From") = Some sender ->
  sender <> "" ->
  reply_mapping cfg !! sender = Some attrs ->
  process_message (b64_utf8_decode env) m = Returned fields ->
  (is_Some (ra_multiple attrs) -> (1 <= pool_size cfg)%Z) ->
  (forall fuel w' t r,
     execute_message env cfg fuel id w = Some (w', t, r) ->
     exists before,
       t = before ++ DeleteOriginal id r
             :: match r with
                | Returned _ =>
                    [Log DEBUG (pyformat "processed message ID %s" [id])]
                | Raised _ => []
                end
       /\ count is_delete_original before = 0%nat
       /\ count is_delete_original t = 1%nat
       /\ (forall j, j ∈ reply_indices attrs ->
                     count (completed j) before = 1%nat)
       /\ (length (reply_indices attrs) <= count is_sent before)%nat
       /\ count is_send t = count is_send before)
  /\ (forall good : W -> Prop,
        dependable env good ->
        good w1 ->
        (default false (ra_keep_reply attrs) = true
         \/ can_sleep env (delete_delay cfg)) ->
        exists fuel w' t r,
          execute_message env cfg fuel id w = Some (w', t, r)).
Proof.
  intros Hget Hv Hne Hattrs Hproc Hpool.
  destruct fields as [[[date_field to_field] subject_field] body]. split.
  - intros fuel w' t r.
    rewrite (execute_message_matched_run env cfg fuel id w w1 m sender attrs
               _ _ _ _ Hget Hv Hne Hattrs Hproc).
    destruct (send_replies _ _ _ _ _ _) as [[[w2 t2] r2]|] eqn:Hrun;
      [|discriminate].
    destruct (send_replies_counts _ _ _ _ _ _ _ _ _ Hpool Hrun)
      as (-> & Hdel & Hdone & _).
    pose proof (send_replies_delivered _ _ _ _ _ _ Hrun) as Hsent.
    destruct (messages_delete env id w2) as [w3 r3].
    intros [= <- <- <-].
    exists ([Log DEBUG (pyformat "processing message ID %s" [id]);
             GetMessage id;
             Log INFO
               (pyformat "sender of unread message %s found in reply mapping"
                  [sender])] ++ t2).
    split; [rewrite <- app_assoc; reflexivity |].
    assert (count is_delete_original
              ([Log DEBUG (pyformat "processing message ID %s" [id]);
                GetMessage id;
                Log INFO
                  (pyformat
                     "sender of unread message %s found in reply mapping"
                     [sender])] ++ t2) = 0%nat) as Hbefore
      by (rewrite count_app, Hdel; reflexivity).
    split; [exact Hbefore |]. split; [|split; [|split]].
    + rewrite !count_cons, count_app, count_cons, Hdel.
      destruct r3; reflexivity.
    + intros j Hj. rewrite count_app, Hdone, bool_decide_eq_true_2 by exact Hj.
      reflexivity.
    + rewrite count_app. cbn. exact Hsent.
    + rewrite !count_cons, !count_app, !count_cons.
      destruct r3; cbn; lia.
  - intros good Hgood Hw1 Hkeep.
    exists (S (5 * length (reply_indices attrs))).
    rewrite (execute_message_matched_run env cfg _ id w w1 m sender attrs _ _ _ _
               Hget Hv Hne Hattrs Hproc).
    destruct (send_replies_dependable good
                (construct_reply cfg (get_header_field (headers m) "From")
                   date_field to_field subject_field body attrs)
                attrs w1 Hgood Hw1 Hpool Hkeep) as (w2 & t2 & ->).
    destruct (messages_delete env id w2) as [w3 r]. eauto.
Qed.

(** C5, as the code has it: for a matched message whose handling came to
    its end, the [send_reply] invocations are decided as follows.  When the
    fields of the message cannot be extracted, nothing is announced and no
    [send_reply] is opened.  Otherwise the choice between the pool and the
    single call is made on the presence of the key ["multiple"], not on its
    value: with the key the pool is announced once, and one [send_reply] is
    opened for each index from 0 up to [multiple] - 1 and no other (none at
    all when [multiple] is 0 or less), unless the pool size is below 1,
    when the pool is refused and no [send_reply] is opened; without the key
    no pool is announced and one [send_reply] is opened, with index 0. *)
Theorem replies_follow_multiple_key (fuel : nat) (id : string) (w w1 w' : W)
    (m : message) (sender : string) (attrs : reply_attributes)
    (t : list event) (r : outcome unit) :
  messages_get env id w = (w1, Returned m) ->
  hf_value (get_header_field (headers m) "From") = Some sender ->
  sender <> "" ->
  reply_mapping cfg !! sender = Some attrs ->
  execute_message env cfg fuel id w = Some (w', t, r) ->
  match process_message (b64_utf8_decode env) m with
  | Raised _ =>
      (forall n, count (announces_pool n) t = 0%nat)
      /\ forall j, count (started j) t = 0%nat
  | Returned _ =>
      match ra_multiple attrs with
      | Some multiple =>
          count (announces_pool multiple) t = 1%nat
          /\ forall j, count (started j) t
                       = if (pool_size cfg <? 1)%Z then 0%nat
                         else bit ((0 <=? j)%Z && (j <? multiple)%Z)
      | None =>
          (forall n, count (announces_pool n) t = 0%nat)
          /\ forall j, count (started j) t = bit (j =? 0)%Z
      end
  end.
Proof.
  intros Hget Hv Hne Hattrs Hrun.
  destruct (process_message (b64_utf8_decode env) m) as [fields|e] eqn:Hproc.
  2: { revert Hrun. unfold execute_message. unfold_engine.
       rewrite Hget, (matched_sender cfg _ sender attrs Hv Hne Hattrs), Hv. cbn.
       rewrite Hattrs, Hproc. intros [= <- <- <-]. split; reflexivity. }
  destruct (Z.ltb_spec (pool_size cfg) 1) as [Hsmall|Hpool].
  - destruct (ra_multiple attrs) as [multiple|] eqn:Hmult.
    + destruct fields as [[[date_field to_field] subject_field] body].
      revert Hrun.
      rewrite (execute_message_matched_run env cfg fuel id w w1 m sender attrs
                 _ _ _ _ Hget Hv Hne Hattrs Hproc).
      unfold send_replies, starmap_send_reply. rewrite Hmult.
      rewrite (proj2 (Z.ltb_lt _ _) Hsmall). unfold_engine.
      intros [= <- <- <-]. split; [|reflexivity].
      cbn [app]. rewrite !count_cons.
      cbn [announces_pool count List.filter length].
      rewrite String.eqb_refl. reflexivity.
    + assert (is_Some (ra_multiple attrs) -> (1 <= pool_size cfg)%Z) as Hnone
        by (rewrite Hmult; intros [? ?]; discriminate).
      destruct (execute_message_matched_returned env cfg fuel id w w1 w' m
                  sender attrs fields t r Hget Hv Hne Hattrs Hproc Hnone Hrun)
        as (before & -> & _ & _ & Hstart & Hann).
      rewrite Hmult in Hann. unfold reply_indices in Hstart.
      rewrite Hmult in Hstart. split.
      * intros n. rewrite count_app, count_cons, Hann.
        rewrite bool_decide_eq_false_2 by discriminate.
        destruct r; reflexivity.
      * intros j. rewrite count_app, count_cons, Hstart.
        assert (bool_decide (j ∈ [0%Z]) = (j =? 0)%Z) as ->.
        { destruct (Z.eqb_spec j 0) as [->|Hj];
            (apply bool_decide_eq_true_2 || apply bool_decide_eq_false_2);
            rewrite list_elem_of_singleton; [reflexivity | exact Hj]. }
        destruct r; cbn; lia.
  - assert (is_Some (ra_multiple attrs) -> (1 <= pool_size cfg)%Z) as Hsome
      by (intros _; lia).
    destruct (execute_message_matched_returned env cfg fuel id w w1 w' m sender
                attrs fields t r Hget Hv Hne Hattrs Hproc Hsome Hrun)
      as (before & -> & _ & _ & Hstart & Hann).
    assert (Htail : forall q : event -> bool,
              q (DeleteOriginal id r) = false ->
              q (Log DEBUG (pyformat "processed message ID %s" [id])) = false ->
              count q (before ++ DeleteOriginal id r
                         :: match r with
                            | Returned _ =>
                                [Log DEBUG
                                   (pyformat "processed message ID %s" [id])]
                            | Raised _ => []
                            end)
              = count q before).
    { intros q H1 H2. rewrite count_app, count_cons, H1.
      destruct r; [rewrite count_cons, H2 |]; cbn; lia. }
    unfold reply_indices in Hstart.
    destruct (ra_multiple attrs) as [multiple|]; split.
    + rewrite Htail by reflexivity. rewrite Hann, bool_decide_eq_true_2;
        reflexivity.
    + intros j. rewrite Htail by reflexivity. rewrite Hstart. f_equal.
      destruct (Z.leb_spec 0 j), (Z.ltb_spec j multiple); cbn;
        (apply bool_decide_eq_true_2 || apply bool_decide_eq_false_2);
        rewrite elem_of_range; lia.
    + intros n. rewrite Htail by reflexivity. rewrite Hann.
      rewrite bool_decide_eq_false_2 by discriminate. reflexivity.
    + intros j. rewrite Htail by reflexivity. rewrite Hstart. f_equal.
      destruct (Z.eqb_spec j 0) as [->|Hj];
        (apply bool_decide_eq_true_2 || apply bool_decide_eq_false_2);
        rewrite list_elem_of_singleton; [reflexivity | exact Hj].
Qed.
End Matched.

(** ** Bounce orchestrator: the pass over the merged listing *)

Lemma no_lookup (t : list event) :
  count is_lookup t = 0%nat -> fetched t = [] /\ listings t = [].
Proof.
  induction t as [|e t IH]; [auto |].
  rewrite count_cons. destruct e; cbn; try (intros; lia); exact IH.
Qed.

Lemma fetched_app (t1 t2 : list event) :
  fetched (t1 ++ t2) = fetched t1 ++ fetched t2.
Proof. apply omap_app. Qed.

Lemma listings_app (t1 t2 : list event) :
  listings (t1 ++ t2) = listings t1 ++ listings t2.
Proof. apply omap_app. Qed.

Lemma fetched_cons (e : event) (t : list event) :
  fetched (e :: t)
  = match e with GetMessage id => id :: fetched t | _ => fetched t end.
Proof. destruct e; reflexivity. Qed.

Lemma listings_cons (e : event) (t : list event) :
  listings (e :: t)
  = match e with
    | ListMessages label n => (label, n) :: listings t
    | _ => listings t
    end.
Proof. destruct e; reflexivity. Qed.

Section Pass.
Context {W : Type} (env : environment W) (cfg : config).

(** The replies of a message read nothing from the mailbox. *)
Lemma send_replies_no_lookup (fuel : nat) (raw : reply_message)
    (attrs : reply_attributes) (w w' : W) (t : list event) (r : outcome unit) :
  send_replies env cfg fuel raw attrs w = Some (w', t, r) ->
  count is_lookup t = 0%nat.
Proof.
  destruct (Z.ltb_spec (pool_size cfg) 1) as [Hsmall|Hpool].
  - destruct (ra_multiple attrs) as [n|] eqn:Hn.
    + unfold send_replies, starmap_send_reply. rewrite Hn.
      rewrite (proj2 (Z.ltb_lt _ _) Hsmall). unfold_engine.
      intros [= <- <- <-]. reflexivity.
    + intros Hrun.
      destruct (send_replies_returned env cfg fuel raw attrs w w' t r) as
        (_ & core & -> & Hcore); [rewrite Hn; intros [? ?]; discriminate | exact Hrun |].
      rewrite Hn, app_nil_r. cbn [app].
      rewrite (Hcore is_lookup) by (intros [[]| | | | | | |]; cbn; congruence).
      rewrite (sum_list_with_ext _ (fun _ => 0%nat)) by reflexivity.
      apply sum_list_with_zero.
  - intros Hrun.
    destruct (send_replies_returned env cfg fuel raw attrs w w' t r) as
      (_ & core & -> & Hcore); [intros _; lia | exact Hrun |].
    rewrite !count_app.
    rewrite (Hcore is_lookup) by (intros [[]| | | | | | |]; cbn; congruence).
    rewrite (sum_list_with_ext _ (fun _ => 0%nat)) by reflexivity.
    rewrite sum_list_with_zero. destruct (ra_multiple attrs); reflexivity.
Qed.

(** Whatever happens to it, a message of the listing is fetched once, by
    the loop body that handles it, and nothing is listed there. *)
Lemma execute_message_fetches (fuel : nat) (id : string) (w w' : W)
    (t : list event) (r : outcome unit) :
  execute_message env cfg fuel id w = Some (w', t, r) ->
  fetched t = [id] /\ listings t = [].
Proof.
  unfold execute_message. unfold_engine.
  destruct (messages_get env id w) as [w1 [m|e]];
    [|intros [= <- <- <-]; split; reflexivity].
  destruct (unmatched cfg _); [intros [= <- <- <-]; split; reflexivity |].
  destruct (hf_value _) as [v|]; cbn;
    [|intros [= <- <- <-]; split; reflexivity].
  destruct (reply_mapping cfg !! v) as [attrs|];
    [|intros [= <- <- <-]; split; reflexivity].
  destruct (process_message _ m) as [[[[date_field to_field] subject_field] body]|e];
    [|intros [= <- <- <-]; split; reflexivity].
  destruct (send_replies _ _ _ _ _ _) as [[[w2 t2] r2]|] eqn:Hrun;
    [|discriminate].
  destruct (no_lookup t2 (send_replies_no_lookup _ _ _ _ _ _ _ Hrun))
    as [Hf Hl].
  destruct r2 as [[]|e]; [destruct (messages_delete env id w2) as [w3 [[]|e]] |];
    intros [= <- <- <-]; cbn [app];
    rewrite ?fetched_cons, ?listings_cons, ?fetched_app, ?listings_app,
      ?fetched_cons, ?listings_cons, ?Hf, ?Hl;
    split; reflexivity.
Qed.

(** The loop fetches the identifiers in the order of the list, one fetch for
    each occurrence, up to the one whose handling raised, if any. *)
Lemma for_each_fetches (fuel : nat) (ids : list string) (w w' : W)
    (t : list event) (r : outcome unit) :
  for_each ids (execute_message env cfg fuel) w = Some (w', t, r) ->
  listings t = []
  /\ fetched t `prefix_of` ids
  /\ (r = Returned tt -> fetched t = ids).
Proof.
  revert w t. induction ids as [|id ids IH]; intros w t; cbn [for_each].
  - intros [= <- <- <-]. repeat split. reflexivity.
  - rewrite run_bind.
    destruct (execute_message env cfg fuel id w) as [[[w1 t1] r1]|] eqn:Hm;
      [|discriminate].
    destruct (execute_message_fetches fuel id w w1 t1 r1 Hm) as [Hf Hl].
    destruct r1 as [[]|e].
    + destruct (for_each ids _ w1) as [[[w2 t2] r2]|] eqn:Hrest; [|discriminate].
      intros [= <- <- <-]. destruct (IH _ _ Hrest) as (Hl2 & Hpre & Hall).
      rewrite listings_app, fetched_app, Hf, Hl, Hl2. cbn [app].
      split; [reflexivity |]. split.
      * apply prefix_cons. exact Hpre.
      * intros Hr. now rewrite Hall.
    + intros [= <- <- <-]. rewrite Hf, Hl. split; [reflexivity |]. split.
      * apply prefix_cons, prefix_nil.
      * discriminate.
Qed.

(** C6: one pass lists the inbox, then the spam folder, each with one call
    that asks for at most 100 identifiers and no call for a further page,
    and handles the identifiers of the inbox listing followed by those of
    the spam listing, in that order and with no identifier dropped or
    merged: a pass that returns has fetched exactly that list, a pass that
    an exception ended has fetched a prefix of it. *)
Theorem unread_processed_inbox_then_spam (fuel : nat) (w w0 w1 w2 w' : W)
    (inbox_results spam_results : option (list string))
    (t : list event) (r : outcome unit) :
  acquire_service env w = (w0, Returned tt) ->
  messages_list env "INBOX" 100 w0 = (w1, Returned inbox_results) ->
  messages_list env "SPAM" 100 w1 = (w2, Returned spam_results) ->
  execute env cfg fuel w = Some (w', t, r) ->
  let merged := default [] inbox_results ++ default [] spam_results in
  listings t = [("INBOX", 100%Z); ("SPAM", 100%Z)]
  /\ fetched t `prefix_of` merged
  /\ (r = Returned tt -> fetched t = merged).
Proof.
  intros Hacq Hinbox Hspam. unfold execute. unfold_engine.
  rewrite Hacq, Hinbox, Hspam. cbn [app].
  destruct (for_each _ _ w2) as [[[w3 t3] r3]|] eqn:Hloop; [|discriminate].
  destruct (for_each_fetches fuel _ w2 w3 t3 r3 Hloop) as (Hl & Hpre & Hall).
  destruct r3 as [[]|e]; intros [= <- <- <-]; cbn [app];
    rewrite ?fetched_cons, ?listings_cons, ?fetched_app, ?listings_app, ?Hl,
      ?app_nil_r; cbn [app]; rewrite ?app_nil_r;
    (split; [reflexivity |]); (split; [exact Hpre |]).
  - intros _. apply Hall. reflexivity.
  - discriminate.
Qed.
End Pass.

(** ** The command line *)

Section CommandLine.
Context {W V : Type} (env : environment W).
Variable read_json : string -> outcome (gmap string V).
Variable dict_config : option V -> outcome unit.
Variable engine_config : bouncer V -> option config.

(** C9, as the code has it: without a configuration-file argument, and with
    a path that does not exist, [main] prints its message and leaves through
    [sys.exit()], which carries no code: the exit status is 0, and nothing
    is constructed or run.  With a path that exists it constructs the
    bouncer from it.  When the constructor raises, [main] ends with that
    exception, whose status is 1 for an error, and with the trace and the
    class attributes the constructor left: no pass is run.  When it returns
    an instance (with attributes of the types of the engine), one pass is
    run after it, and the status is that of the pass: 0 when it returns. *)
Theorem main_exit_status (fuel : nat) (argv : list string) (s : classes V)
    (w : W) :
  ((length argv <= 1)%nat ->
   run_main env read_json dict_config engine_config fuel argv (s, w)
   = Some ((s, w), [Print "configuration file not on command line, exiting"],
           0%Z))
  /\ (forall config_path,
        argv !! 1%nat = Some config_path ->
        path_exists env config_path w = false ->
        run_main env read_json dict_config engine_config fuel argv (s, w)
        = Some ((s, w),
                [Print (pyformat "file not found at given path %s, exiting"
                          [config_path])], 0%Z))
  /\ (forall config_path s1 t1 e,
        argv !! 1%nat = Some config_path ->
        path_exists env config_path w = true ->
        init read_json dict_config config_path s = Some (s1, t1, Raised e) ->
        run_main env read_json dict_config engine_config fuel argv (s, w)
        = Some ((s1, w), t1, exit_status (Raised e))
        /\ forall type_name message,
             e = Error type_name message ->
             exit_status (Raised e) = 1%Z)
  /\ (forall config_path s1 t1 auto_bouncer cfg,
        argv !! 1%nat = Some config_path ->
        path_exists env config_path w = true ->
        init read_json dict_config config_path s
        = Some (s1, t1, Returned auto_bouncer) ->
        engine_config auto_bouncer = Some cfg ->
        run_main env read_json dict_config engine_config fuel argv (s, w)
        = match execute env cfg fuel w with
          | Some (w2, t, r) => Some ((s1, w2), t1 ++ t, exit_status r)
          | None => None
          end
        /\ forall w2 t, execute env cfg fuel w = Some (w2, t, Returned tt) ->
                        run_main env read_json dict_config engine_config fuel
                          argv (s, w)
                        = Some ((s1, w2), t1 ++ t, 0%Z)).
Proof.
  split; [|split; [|split]].
  - intros Hlen. unfold run_main, main.
    destruct (Nat.ltb_spec 1 (length argv)) as [?|_]; [lia |]. reflexivity.
  - intros config_path Harg Hexists. unfold run_main, main.
    pose proof (lookup_lt_Some _ _ _ Harg) as Hlen.
    destruct (Nat.ltb_spec 1 (length argv)) as [_|?]; [|lia].
    rewrite Harg. unfold on_world. unfold_engine. cbn [fst snd].
    rewrite Hexists. reflexivity.
  - intros config_path s1 t1 e Harg Hexists Hinit. split.
    + unfold run_main, main.
      pose proof (lookup_lt_Some _ _ _ Harg) as Hlen.
      destruct (Nat.ltb_spec 1 (length argv)) as [_|?]; [|lia].
      rewrite Harg. unfold on_world, on_classes. unfold_engine. cbn [fst snd].
      rewrite Hexists. cbn [fst snd]. rewrite Hinit. reflexivity.
    + intros type_name message ->. reflexivity.
  - intros config_path s1 t1 auto_bouncer cfg Harg Hexists Hinit Htyped.
    assert (Hrun : run_main env read_json dict_config engine_config fuel argv
                     (s, w)
                   = match execute env cfg fuel w with
                     | Some (w2, t, r) =>
                         Some ((s1, w2), t1 ++ t, exit_status r)
                     | None => None
                     end).
    { unfold run_main, main.
      pose proof (lookup_lt_Some _ _ _ Harg) as Hlen.
      destruct (Nat.ltb_spec 1 (length argv)) as [_|?]; [|lia].
      rewrite Harg. unfold on_world, on_classes. unfold_engine. cbn [fst snd].
      rewrite Hexists. cbn [fst snd]. rewrite Hinit, Htyped. cbn [fst snd].
      destruct (execute env cfg fuel w) as [[[w2 t] r]|]; reflexivity. }
    split; [exact Hrun |].
    intros w2 t Hexec. rewrite Hrun, Hexec. reflexivity.
Qed.
End CommandLine.

(** * Scenarios on the scripted world *)

Lemma construct_reply_payload_witness :
  construct_reply Script.cfg (HeaderField 2 (Some "spam@c.com"))
    (HeaderField 0 (Some "Mon, 2 Nov 2026")) (HeaderField 1 (Some "me@x.org"))
    (HeaderField 3 (Some "offer")) "cheap"
    (ReplyAttributes None (Some "alt@c.com") None None)
  = {| rm_body :=
         "STOP" +:+ nl +:+ nl
         +:+ "From:  spam@c.com" +:+ nl
         +:+ "Sent:  Mon, 2 Nov 2026" +:+ nl
         +:+ "To:  me@x.org" +:+ nl
         +:+ "Subject:  offer" +:+ nl +:+ nl +:+ "cheap";
       rm_to := Some "alt@c.com";
       rm_from := Some "me@x.org";
       rm_subject := "Re:  offer" |}.
Proof.
  exact (construct_reply_payload Script.cfg (HeaderField 2 (Some "spam@c.com"))
           (HeaderField 0 (Some "Mon, 2 Nov 2026"))
           (HeaderField 1 (Some "me@x.org")) (HeaderField 3 (Some "offer"))
           "cheap" (ReplyAttributes None (Some "alt@c.com") None None)
           "spam@c.com" eq_refl).
Defined.

(** Scenario D: the send fails twice, then goes through; two warnings, one
    delivered send, one delete of the reply. *)
Lemma send_reply_retries_failed_sends_witness :
  exists w' t,
    send_reply Script.env Script.cfg 3
      (ReplyMessage "STOP" (Some "alt@c.com") (Some "me@x.org") "Re:  offer")
      false 0 Script.send_fails_twice
    = Some (w', t, Returned tt)
    /\ send_reply Script.env Script.cfg 2
         (ReplyMessage "STOP" (Some "alt@c.com") (Some "me@x.org") "Re:  offer")
         false 0 Script.send_fails_twice
       = None
    /\ count is_sent t = 1%nat
    /\ count is_send_failure t = 2%nat
    /\ count is_delete_reply t = 1%nat.
Proof.
  pose (raw := ReplyMessage "STOP" (Some "alt@c.com") (Some "me@x.org")
                 "Re:  offer").
  pose (errs := [Error "HttpError" "500"; Error "TimeoutError" "timed out"]).
  pose (w1 := Script.World (Returned (Some ["m3"])) (Returned None) Script.box
                [Returned "r3"] [] [] ["conf.json"]).
  pose (w2 := Script.World (Returned (Some ["m3"])) (Returned None) Script.box
                [] [] [] ["conf.json"]).
  assert (Hfail : sends_fail Script.env raw errs
                    Script.send_fails_twice w1).
  { eapply sends_fail_cons; [reflexivity |].
    eapply sends_fail_cons; [reflexivity |]. apply sends_fail_nil. }
  assert (Hsend : messages_send Script.env raw w1
                  = (w2, Returned "r3")) by reflexivity.
  assert (Hrest : attempt_completes Script.env Script.cfg false
                    "r3" w2 w2).
  { split; [split; [vm_compute; discriminate | reflexivity] | reflexivity]. }
  destruct (send_reply_retries_failed_sends Script.env Script.cfg
              raw false 0 errs _ _ _ _ _ 3 Hfail Hsend Hrest)
    as (Hrun & Hsent & Hfailed & Hdeleted).
  destruct (send_reply_retries_failed_sends Script.env Script.cfg
              raw false 0 errs _ _ _ _ _ 2 Hfail Hsend Hrest)
    as (Hshort & _).
  eexists _, _. split; [exact Hrun |]. split; [exact Hshort |].
  split; [exact Hsent |]. split; [exact Hfailed | exact Hdeleted].
Defined.

(** C3, the code at the failing input: the first attempt fails at the
    delete of the reply it has sent, the second goes through, and the call
    has delivered the reply twice, against ["loops until reply successfully
    sent"]: the warning says ["reply not sent"] of a reply that was sent,
    and the first copy stays in the sent box. *)
Lemma send_reply_resends_after_failed_delete :
  let raw :=
    ReplyMessage "STOP" (Some "alt@c.com") (Some "me@x.org") "Re:  offer" in
  exists w1 w2 t1 t2,
    send_attempt Script.env Script.cfg raw false
      Script.delete_fails_once
    = Some (w1, t1, Returned false)
    /\ send_attempt Script.env Script.cfg raw false w1
       = Some (w2, t2, Returned true)
    /\ send_reply Script.env Script.cfg 2 raw false 0
         Script.delete_fails_once
       = Some (w2,
               [Log DEBUG "sending and deleting reply - 0";
                SendMessage raw (Returned "r1");
                Sleep 1;
                DeleteReply "r1" (Raised (Error "HttpError" "503"));
                Log WARNING
                  "reply not sent, attempting again, error HttpError 503";
                SendMessage raw (Returned "r2");
                Sleep 1;
                DeleteReply "r2" (Returned tt);
                Log DEBUG "sent and deleted reply - 0"],
               Returned tt)
    /\ count is_sent
         [Log DEBUG "sending and deleting reply - 0";
          SendMessage raw (Returned "r1");
          Sleep 1;
          DeleteReply "r1" (Raised (Error "HttpError" "503"));
          Log WARNING "reply not sent, attempting again, error HttpError 503";
          SendMessage raw (Returned "r2");
          Sleep 1;
          DeleteReply "r2" (Returned tt);
          Log DEBUG "sent and deleted reply - 0"]
       = 2%nat.
Proof.
  intros raw. eexists _, _, _, _.
  split; [reflexivity |]. split; [reflexivity |].
  split; [reflexivity |]. reflexivity.
Qed.

(** Scenario A: no policy for ["x@y.com"]; its message stays where it is
    and nothing is sent. *)
Lemma unmatched_message_untouched_witness :
  exists t,
    execute_message Script.env Script.cfg 0 "m2" Script.quiet
    = Some (Script.quiet, t, Returned tt)
    /\ count is_send t = 0%nat
    /\ count is_delete_reply t = 0%nat
    /\ count is_delete_original t = 0%nat.
Proof.
  eexists.
  apply (unmatched_message_untouched Script.env Script.cfg 0 "m2"
           Script.quiet Script.quiet (Script.mail "x@y.com" "hi" "lunch?")).
  - reflexivity.
  - right. right. right. exists "x@y.com". split; reflexivity.
Defined.

Lemma zero_multiple_deletes_without_reply_witness :
  execute_message Script.env Script.cfg 0 "m4" Script.quiet
  = Some (Script.quiet,
          [Log DEBUG "processing message ID m4";
           GetMessage "m4";
           Log INFO "sender of unread message z@z.com found in reply mapping";
           Log DEBUG "Sending 0 replies.";
           Log DEBUG "Sent 0 replies.";
           DeleteOriginal "m4" (Returned tt);
           Log DEBUG "processed message ID m4"],
          Returned tt).
Proof.
  refine (proj1 (zero_multiple_deletes_without_reply Script.env
                   Script.cfg 0 "m4" Script.quiet Script.quiet Script.quiet
                   (Script.mail "z@z.com" "zero" "nothing") "z@z.com"
                   (ReplyAttributes None None (Some 0%Z) None)
                   _ (Returned tt) _ _ _ _ _ _ _ _)).
  - reflexivity.
  - reflexivity.
  - discriminate.
  - reflexivity.
  - reflexivity.
  - reflexivity.
  - vm_compute. discriminate.
  - reflexivity.
Defined.

(** The counterexample to C10 as it is stated: with a pool size of 0 the
    message ["m4"], whose policy has ["multiple": 0], is announced and not
    deleted: the pool is refused before it is given its empty list of
    tasks. *)
Lemma zero_multiple_original_kept_without_pool :
  ra_multiple <$> reply_mapping Cases.no_pool !! "z@z.com" = Some (Some 0%Z)
  /\ forall fuel, exists t,
       execute_message Script.env Cases.no_pool fuel "m4" Script.quiet
       = Some (Script.quiet, t,
               Raised
                 (Error "ValueError" "Number of processes must be at least 1"))
       /\ count is_send t = 0%nat
       /\ count is_delete_original t = 0%nat.
Proof.
  split; [reflexivity |].
  intros fuel. eexists. split; [reflexivity |]. split; reflexivity.
Qed.

(** In the scripted world nothing fails once the scripts are used up. *)
Lemma quiet_dependable :
  dependable Script.env
    (fun w => Script.sends w = [] /\ Script.deletes w = []).
Proof.
  split; [|split].
  - intros w raw [Hs Hd]. exists w, "sent". cbn. rewrite Hs. auto.
  - intros w id [Hs Hd]. exists w. cbn. rewrite Hd. auto.
  - intros w n [Hs Hd]. cbn. destruct (Script.picks w); split; assumption.
Qed.

(** Scenario B: three replies, kept, then the original deleted once. *)
Lemma original_deleted_once_after_replies_witness :
  (forall fuel w' t r,
     execute_message Script.env Script.cfg fuel "m1" Script.quiet
     = Some (w', t, r) ->
     exists before,
       t = before ++ DeleteOriginal "m1" r
             :: match r with
                | Returned _ => [Log DEBUG "processed message ID m1"]
                | Raised _ => []
                end
       /\ count is_delete_original before = 0%nat
       /\ count is_delete_original t = 1%nat
       /\ (forall j, j ∈ [0%Z; 1%Z; 2%Z] ->
                     count (completed j) before = 1%nat)
       /\ (3 <= count is_sent before)%nat
       /\ count is_send t = count is_send before)
  /\ exists fuel w' t r,
      execute_message Script.env Script.cfg fuel "m1" Script.quiet
      = Some (w', t, r).
Proof.
  destruct (original_deleted_once_after_replies Script.env
              Script.cfg "m1" Script.quiet Script.quiet
              (Script.mail "a@b.com" "hello" "buy now") "a@b.com"
              (ReplyAttributes None None (Some 3%Z) (Some true))
              (HeaderField 0 (Some "Mon, 2 Nov 2026"),
               HeaderField 1 (Some "me@x.org"),
               HeaderField 3 (Some "hello"), "buy now"))
    as [Hsafe Hlive].
  - reflexivity.
  - reflexivity.
  - discriminate.
  - reflexivity.
  - reflexivity.
  - intros _. vm_compute. discriminate.
  - split; [exact Hsafe |].
    apply (Hlive (fun w => Script.sends w = [] /\ Script.deletes w = [])).
    + exact quiet_dependable.
    + split; reflexivity.
    + left. reflexivity.
Defined.

(** The counterexample to C2 as it is stated: the sender of the message
    ["bad"] has a policy, its first part does not decode, and the loop body
    ends with the [UnicodeDecodeError], on any fuel, without a delete of the
    original: the deletion is not unconditional once the policy matched. *)
Lemma matched_message_kept_when_body_undecodable :
  reply_mapping Script.cfg
    !! default "" (hf_value (get_header_field (headers Cases.garbled) "From"))
  = Some (ReplyAttributes None (Some "alt@c.com") None None)
  /\ forall fuel, exists t,
       execute_message Script.env Script.cfg fuel "bad" Cases.vanished
       = Some (Cases.vanished, t,
               Raised (Error "UnicodeDecodeError" "invalid start byte"))
       /\ count is_delete_original t = 0%nat.
Proof.
  split; [reflexivity |].
  intros fuel. eexists. split; reflexivity.
Qed.

(** A policy with ["multiple": 2]: the pool is announced and the indices 0
    and 1 are opened, once each. *)
Lemma replies_follow_multiple_key_witness :
  exists w' t r,
    execute_message Script.env Script.cfg 20 "m5" Script.quiet
    = Some (w', t, r)
    /\ count (announces_pool 2) t = 1%nat
    /\ forall j, count (started j) t = bit ((0 <=? j)%Z && (j <? 2)%Z).
Proof.
  eexists _, _, _. split; [reflexivity |].
  exact (replies_follow_multiple_key Script.env Script.cfg 20
           "m5" Script.quiet Script.quiet _
           (Script.mail "q@q.com" "twice" "again") "q@q.com"
           (ReplyAttributes (Some "GO AWAY") None (Some 2%Z) None) _ _
           eq_refl eq_refl ltac:(discriminate) eq_refl eq_refl).
Defined.

(** The counterexample to C5 as it is stated.  A policy with
    ["multiple": 0] does not specify more than one reply, so the
    specification's rule gives one call with index 0; the code opens the
    pool on an empty task list and sends nothing.  A policy with
    ["multiple": 1] does not either, and the code opens the pool for it. *)
Lemma multiple_key_decides_not_its_value :
  specified_reply_indices (ReplyAttributes None None (Some 0%Z) None) = [0%Z]
  /\ (exists w' t,
        execute_message Script.env Script.cfg 20 "m4" Script.quiet
        = Some (w', t, Returned tt)
        /\ count (started 0) t = 0%nat
        /\ count is_send t = 0%nat
        /\ count (announces_pool 0) t = 1%nat)
  /\ specified_reply_indices (ReplyAttributes None None (Some 1%Z) (Some true))
     = [0%Z]
  /\ (exists w' t,
        execute_message Script.env Script.cfg 20 "m6" Script.quiet
        = Some (w', t, Returned tt)
        /\ count (announces_pool 1) t = 1%nat).
Proof.
  split; [reflexivity |]. split.
  - eexists _, _. split; [reflexivity |]. repeat split.
  - split; [reflexivity |]. eexists _, _. split; reflexivity.
Qed.

(** Scenario E: inbox [m1, m2] and spam [m3] are handled in the order
    m1, m2, m3. *)
Lemma unread_processed_inbox_then_spam_witness :
  exists w' t,
    execute Script.env Script.cfg 20 Script.quiet
    = Some (w', t, Returned tt)
    /\ listings t = [("INBOX", 100%Z); ("SPAM", 100%Z)]
    /\ fetched t = ["m1"; "m2"; "m3"].
Proof.
  eexists _, _. split; [reflexivity |].
  destruct (unread_processed_inbox_then_spam Script.env Script.cfg
              20 Script.quiet Script.quiet Script.quiet Script.quiet _
              (Some ["m1"; "m2"]) (Some ["m3"]) _ (Returned tt)
              eq_refl eq_refl eq_refl eq_refl)
    as (Hlist & _ & Hall).
  split; [exact Hlist | exact (Hall eq_refl)].
Defined.

(** The ways of a start: no argument; a path that is not there; a file that
    does not parse, on which the constructor raises the [TypeError] of
    [dictConfig] after the two lines of the store; a configuration without
    ["logging_config"], on which it raises the same after the line of the
    missing property; a complete configuration, on which the pass of the
    quiet mailbox runs. *)
Lemma main_exit_status_witness :
  run_main Script.env Launch.read_json Launch.dict_config Launch.engine_config
    20 ["gmailautobouncer"] Launch.start
  = Some (Launch.start,
          [Print "configuration file not on command line, exiting"], 0%Z)
  /\ run_main Script.env Launch.read_json Launch.dict_config
       Launch.engine_config 20 ["gmailautobouncer"; "missing.json"]
       Launch.start
     = Some (Launch.start,
             [Print "file not found at given path missing.json, exiting"],
             0%Z)
  /\ run_main Script.env Launch.read_json Launch.dict_config
       Launch.engine_config 20 ["gmailautobouncer"; "notes.txt"] Launch.start
     = Some ((Classes true false None, Launch.start.2),
             [Print ("notes.txt not a valid JSON file, error:  "
                     +:+ "JSONDecodeError Expecting value: line 1 column 1 "
                     +:+ "(char 0)");
              Print "no configuration loaded"],
             1%Z)
  /\ run_main Script.env Launch.read_json Launch.dict_config
       Launch.engine_config 20 ["gmailautobouncer"; "partial.json"]
       Launch.start
     = Some ((Classes true false
                (Some (<["default_prefix" := Launch.Text "STOP"]> ∅)),
              Launch.start.2),
             [Print "logging_config not loaded in configuration"],
             1%Z)
  /\ exists w2 t,
      execute Script.env Script.cfg 20 Launch.start.2
      = Some (w2, t, Returned tt)
      /\ run_main Script.env Launch.read_json Launch.dict_config
           Launch.engine_config 20 ["gmailautobouncer"; "conf.json"]
           Launch.start
         = Some ((Classes true true (Some Launch.conf), w2),
                 [Log DEBUG "configuration loaded from conf.json"] ++ t,
                 0%Z).
Proof.
  split; [|split; [|split; [|split]]].
  - apply (proj1 (main_exit_status Script.env Launch.read_json
                    Launch.dict_config Launch.engine_config 20
                    ["gmailautobouncer"] Launch.start.1 Launch.start.2)).
    cbn. lia.
  - apply (proj1 (proj2 (main_exit_status Script.env Launch.read_json
                           Launch.dict_config Launch.engine_config 20
                           ["gmailautobouncer"; "missing.json"]
                           Launch.start.1 Launch.start.2))
             "missing.json"); reflexivity.
  - apply (proj1 (proj2 (proj2 (main_exit_status Script.env Launch.read_json
                                  Launch.dict_config Launch.engine_config 20
                                  ["gmailautobouncer"; "notes.txt"]
                                  Launch.start.1 Launch.start.2)))
             "notes.txt" _ _
             (Error "TypeError" "'NoneType' object is not iterable"));
      reflexivity.
  - apply (proj1 (proj2 (proj2 (main_exit_status Script.env Launch.read_json
                                  Launch.dict_config Launch.engine_config 20
                                  ["gmailautobouncer"; "partial.json"]
                                  Launch.start.1 Launch.start.2)))
             "partial.json" _ _
             (Error "TypeError" "'NoneType' object is not iterable"));
      reflexivity.
  - eexists _, _. split; [reflexivity |].
    apply (proj2 (proj2 (proj2 (main_exit_status Script.env Launch.read_json
                                  Launch.dict_config Launch.engine_config 20
                                  ["gmailautobouncer"; "conf.json"]
                                  Launch.start.1 Launch.start.2)))
             "conf.json" (Classes true true (Some Launch.conf))
             [Log DEBUG "configuration loaded from conf.json"]
             (Bouncer (Some Launch.Opaque)
                (Some (Launch.Text "credentials.json"))
                (Some (Launch.Text "token.json"))
                (Some (Launch.Mapping (reply_mapping Script.cfg)))
                (Some (Launch.Text "STOP")) (Some (Launch.Number 2))
                (Some (Launch.Number 1)))
             Script.cfg); reflexivity.
Defined.

(** The counterexample to C9 as it is stated: started without an argument,
    and started with a path that does not exist, the program prints its
    message and exits with status 0. *)
Lemma main_exits_zero_on_bad_command_line :
  run_main Script.env Launch.read_json Launch.dict_config Launch.engine_config
    0 ["gmailautobouncer"] Launch.start
  = Some (Launch.start,
          [Print "configuration file not on command line, exiting"], 0%Z)
  /\ run_main Script.env Launch.read_json Launch.dict_config
       Launch.engine_config 0 ["gmailautobouncer"; "missing.json"]
       Launch.start
     = Some (Launch.start,
             [Print "file not found at given path missing.json, exiting"],
             0%Z).
Proof. split; reflexivity. Qed.

(** * The rest of the package *)

(** ** The configuration store *)

Lemma loaded_insert {V} (m : gmap string V) (name : string) (v : V) :
  loaded (Some (<[name := v]> m)) = true.
Proof.
  unfold loaded. apply negb_true_iff, Nat.eqb_neq.
  rewrite map_size_empty_iff. apply insert_non_empty.
Qed.

Lemma loaded_some {V} (m : gmap string V) :
  loaded (Some m) = true <-> m <> ∅.
Proof.
  unfold loaded. rewrite negb_true_iff, Nat.eqb_neq, map_size_empty_iff.
  reflexivity.
Qed.

Section Store.
Context {V : Type}.

(** X1: a property added to a loaded store is there to be read: on a store
    that holds something and lacks the name, [add_property] returns [True]
    and prints nothing, and [get_property] then returns the value. *)
Theorem add_property_then_get (m : gmap string V) (name : string) (v : V) :
  m <> ∅ ->
  m !! name = None ->
  add_property name v (Some m) = Some (Some (<[name := v]> m), [], Returned true)
  /\ get_property name (Some (<[name := v]> m))
     = Some (Some (<[name := v]> m), [], Returned (Some v)).
Proof.
  intros Hm Hname. apply loaded_some in Hm. split.
  - unfold_store. rewrite Hm, Hname. reflexivity.
  - pose proof (loaded_insert m name v) as Hl. unfold_store.
    rewrite Hl, lookup_insert_eq. reflexivity.
Qed.

(** X2: with nothing loaded, which an empty dictionary counts as, every
    method but the load prints "no configuration loaded", returns its value
    of failure and leaves the store as it is: only [load_configuration]
    brings a store to life.  ([add_configuration] does not even open its
    file.) *)
Theorem unloaded_store_refuses (read_json : string -> outcome (gmap string V))
    (c : option (gmap string V)) :
  loaded c = false ->
  let refused {A} (r : A) :=
    Some (c, [Print "no configuration loaded"], Returned r) in
  (forall path, add_configuration read_json path c = refused (Some false))
  /\ (forall name, get_property name c = refused None)
  /\ (forall name v, add_property name v c = refused false)
  /\ (forall name v, update_property name v c = refused false)
  /\ (forall name, remove_property name c = refused false)
  /\ (forall old_name new_name,
        rename_property old_name new_name c = refused false)
  /\ get_all_property_names c = refused None
  /\ clear_properties c = refused false.
Proof.
  intros Hc refused. subst refused.
  destruct c as [m|]; unfold_store; rewrite ?Hc; repeat split.
Qed.

(** X3: a file that holds the empty object loads with result [True], and
    the store counts as not loaded all the same: the next read prints "no
    configuration loaded" and returns [None]. *)
Theorem load_empty_object_is_not_loaded
    (read_json : string -> outcome (gmap string V)) (path : string)
    (c : option (gmap string V)) :
  read_json path = Returned ∅ ->
  load_configuration read_json path c = Some (Some ∅, [], Returned true)
  /\ forall name,
       get_property name (Some ∅)
       = Some (Some (∅ : gmap string V), [Print "no configuration loaded"],
               Returned None).
Proof.
  intros Hread. split.
  - unfold_store. rewrite Hread. reflexivity.
  - intros name. reflexivity.
Qed.

(** X4: removing the only property of a store succeeds and leaves the empty
    dictionary, on which nothing can be added any more: [add_property]
    then prints "no configuration loaded" and returns [False]. *)
Theorem remove_last_property_unloads (m : gmap string V) (name : string)
    (v : V) :
  m !! name = Some v ->
  (forall k, k <> name -> m !! k = None) ->
  remove_property name (Some m) = Some (Some ∅, [], Returned true)
  /\ forall name' v',
       add_property name' v' (Some ∅)
       = Some (Some (∅ : gmap string V), [Print "no configuration loaded"],
               Returned false).
Proof.
  intros Hname Honly. split; [|reflexivity].
  assert (Hm : loaded (Some m) = true).
  { apply loaded_some. intros ->. rewrite lookup_empty in Hname. discriminate. }
  assert (Hd : delete name m = ∅).
  { apply map_empty. intros k. destruct (decide (k = name)) as [->|Hk].
    - apply lookup_delete_eq.
    - rewrite lookup_delete_ne by congruence. apply Honly, Hk. }
  unfold_store. rewrite Hm, Hname, Hd. reflexivity.
Qed.

(** X5: renaming a property to a free name and back restores the store:
    both calls return [True], print nothing, and the dictionary after the
    second is the one before the first. *)
Theorem rename_property_round_trip (m : gmap string V) (a b : string) (v : V) :
  m !! a = Some v ->
  m !! b = None ->
  rename_property a b (Some m)
  = Some (Some (<[b := v]> (delete a m)), [], Returned true)
  /\ rename_property b a (Some (<[b := v]> (delete a m)))
     = Some (Some m, [], Returned true).
Proof.
  intros Ha Hb.
  assert (Hm : loaded (Some m) = true).
  { apply loaded_some. intros ->. rewrite lookup_empty in Ha. discriminate. }
  pose proof (loaded_insert (delete a m) b v) as Hm'.
  assert (Hab : a <> b) by congruence.
  split; unfold_store.
  - rewrite Hm, Ha. reflexivity.
  - rewrite Hm', lookup_insert_eq.
    rewrite delete_insert_id by (rewrite lookup_delete_ne by exact Hab; exact Hb).
    rewrite insert_delete_id by exact Ha. reflexivity.
Qed.

(** X6: renaming a property to the name of another one replaces that other
    property without a word: the call returns [True] and prints nothing,
    the new name holds the renamed value, the old name is gone, the other
    properties are as before, and the store has one property less. *)
Theorem rename_property_overwrites (m : gmap string V) (a b : string)
    (v u : V) :
  m !! a = Some v ->
  m !! b = Some u ->
  a <> b ->
  exists m',
    rename_property a b (Some m) = Some (Some m', [], Returned true)
    /\ m' !! b = Some v
    /\ m' !! a = None
    /\ (forall k, k <> a -> k <> b -> m' !! k = m !! k)
    /\ S (size m') = size m.
Proof.
  intros Ha Hb Hab.
  assert (Hm : loaded (Some m) = true).
  { apply loaded_some. intros ->. rewrite lookup_empty in Ha. discriminate. }
  exists (<[b := v]> (delete a m)). split; [|split; [|split; [|split]]].
  - unfold_store. rewrite Hm, Ha. reflexivity.
  - apply lookup_insert_eq.
  - rewrite lookup_insert_ne by congruence. apply lookup_delete_eq.
  - intros k Hka Hkb.
    rewrite lookup_insert_ne, lookup_delete_ne by congruence. reflexivity.
  - rewrite map_size_insert_Some
      by (rewrite lookup_delete_ne by exact Hab; eauto).
    rewrite map_size_delete_Some by eauto.
    assert (size m <> 0%nat).
    { apply map_size_non_empty_iff. intros ->.
      rewrite lookup_empty in Ha. discriminate. }
    lia.
Qed.

(** X7: [update_property] never changes which names the store holds,
    whatever the store and the name; and when it returns [True] the name
    reads back as the new value. *)
Theorem update_property_keeps_names (c : option (gmap string V))
    (name : string) (v : V) :
  exists c' t ok,
    update_property name v c = Some (c', t, Returned ok)
    /\ dom <$> c' = dom <$> c
    /\ (ok = true -> get_property name c' = Some (c', [], Returned (Some v))).
Proof.
  destruct c as [m|]; [destruct (loaded (Some m)) eqn:Hm;
                        [destruct (m !! name) as [u|] eqn:Hname |] |].
  - exists (Some (<[name := v]> m)), [], true. split; [|split].
    + unfold_store. rewrite Hm, Hname. reflexivity.
    + cbn. f_equal. apply dom_insert_lookup_L. eauto.
    + intros _. pose proof (loaded_insert m name v) as Hl. unfold_store.
      rewrite Hl, lookup_insert_eq. reflexivity.
  - eexists (Some m), _, false. split; [|split].
    + unfold_store. rewrite Hm, Hname. reflexivity.
    + reflexivity.
    + discriminate.
  - eexists (Some m), _, false. split; [|split].
    + unfold_store. rewrite Hm. reflexivity.
    + reflexivity.
    + discriminate.
  - eexists None, _, false. split; [|split]; [reflexivity.. | discriminate].
Qed.

(** X8: [add_configuration] merges the object of the file into a loaded
    store: it returns [True], and afterwards a name that the file has reads
    as the file's value, any other name as before. *)
Theorem add_configuration_merges
    (read_json : string -> outcome (gmap string V)) (path : string)
    (m new : gmap string V) :
  m <> ∅ ->
  read_json path = Returned new ->
  add_configuration read_json path (Some m)
  = Some (Some (new ∪ m), [], Returned (Some true))
  /\ forall name, exists t,
       get_property name (Some (new ∪ m))
       = Some (Some (new ∪ m), t,
               Returned (match new !! name with
                         | Some v => Some v
                         | None => m !! name
                         end)).
Proof.
  intros Hm Hread. split.
  - apply loaded_some in Hm. unfold_store. rewrite Hm, Hread. reflexivity.
  - intros name.
    assert (Hl : loaded (Some (new ∪ m)) = true).
    { apply loaded_some. intros Hu. apply Hm.
      apply map_empty. intros k.
      apply (f_equal (fun x => x !! k)) in Hu.
      rewrite lookup_empty, lookup_union_None in Hu. apply Hu. }
    unfold_store. rewrite Hl, lookup_union.
    destruct (new !! name) as [v|], (m !! name) as [u|]; cbn; eauto.
Qed.

(** X9: on a file that cannot be read or parsed the two loaders print the
    same line and leave the store untouched, but they do not report alike:
    [load_configuration] returns [False], [add_configuration] (on a loaded
    store) returns [None]. *)
Theorem unreadable_file_keeps_store
    (read_json : string -> outcome (gmap string V)) (path : string) (e : exn)
    (c : option (gmap string V)) :
  read_json path = Raised e ->
  let line :=
    Print (pyformat "%s not a valid JSON file, error:  %s"
             [path; format_error e]) in
  load_configuration read_json path c = Some (c, [line], Returned false)
  /\ (loaded c = true ->
      add_configuration read_json path c = Some (c, [line], Returned None)).
Proof.
  intros Hread line. subst line. split.
  - unfold_store. rewrite Hread. reflexivity.
  - intros Hc. destruct c as [m|]; [|discriminate].
    unfold_store. rewrite Hc, Hread. reflexivity.
Qed.
End Store.

(** ** The constructor *)

Section Construction.
Context {V : Type}.

(** A read of the store changes nothing and only prints. *)
Lemma get_property_reads (name : string) (c : option (gmap string V)) :
  exists t r,
    get_property name c = Some (c, t, Returned r)
    /\ Forall (fun e => is_print e = true) t.
Proof.
  destruct c as [m|]; [destruct (loaded (Some m)) eqn:Hm;
                        [destruct (m !! name) as [u|] eqn:Hname |] |];
    unfold_store; rewrite ?Hm, ?Hname; eexists _, _;
    (split; [reflexivity |]); repeat constructor.
Qed.

Lemma on_store_get_property (name : string) (s : classes V) :
  exists t r,
    on_store (get_property name) s = Some (s, t, Returned r)
    /\ Forall (fun e => is_print e = true) t.
Proof.
  destruct (get_property_reads name (cm_config s)) as (t & r & Hget & Ht).
  exists t, r. split; [|exact Ht].
  unfold on_store. rewrite Hget. destruct s; reflexivity.
Qed.

Lemma read_properties_reads (s : classes V) :
  exists t b,
    read_properties s = Some (s, t, Returned b)
    /\ Forall (fun e => is_print e = true) t.
Proof.
  unfold read_properties.
  repeat (rewrite run_bind;
          match goal with
          | |- context [on_store (get_property ?n) s] =>
              let t := fresh "t" in
              let r := fresh "r" in
              let Hg := fresh "Hg" in
              let Ht := fresh "Ht" in
              destruct (on_store_get_property n s) as (t & r & Hg & Ht);
              rewrite Hg
          end).
  eexists _, _. split; [reflexivity |].
  rewrite app_nil_r. repeat (apply Forall_app; split); assumption.
Qed.

Lemma bind_keeps_conf_man {A B} (m : M (classes V) A)
    (k : A -> M (classes V) B) :
  keeps_conf_man m -> (forall a, keeps_conf_man (k a)) ->
  keeps_conf_man (m ≫= k).
Proof.
  intros Hm Hk s s' t r. rewrite run_bind.
  destruct (m s) as [[[s1 t1] [a|e]]|] eqn:Hms; [| |discriminate].
  - destruct (k a s1) as [[[s2 t2] r2]|] eqn:Hks; [|discriminate].
    intros [= <- <- <-]. rewrite (Hk a _ _ _ _ Hks). exact (Hm _ _ _ _ Hms).
  - intros [= <- <- <-]. exact (Hm _ _ _ _ Hms).
Qed.

Lemma on_store_keeps_conf_man {A} (m : M (option (gmap string V)) A) :
  keeps_conf_man (on_store m).
Proof.
  intros s s' t r. unfold on_store.
  destruct (m (cm_config s)) as [[[c t'] r']|]; [|discriminate].
  intros [= <- <- <-]. reflexivity.
Qed.

(** The first part of [__init__], when it returns, has set [_conf_man]. *)
Lemma init_sets_conf_man (read_json : string -> outcome (gmap string V))
    (dict_config : option V -> outcome unit) (config_path : string)
    (s s1 : classes V) (t1 : list event) (b1 : bouncer V) :
  init read_json dict_config config_path s = Some (s1, t1, Returned b1) ->
  conf_man s1 = true
  /\ exists t, read_properties s1 = Some (s1, t, Returned b1).
Proof.
  unfold init. rewrite run_bind.
  destruct (conf_man s) eqn:Hcm; cbn [negb].
  - destruct (read_properties_reads s) as (t & b & Hr & _).
    cbn. rewrite Hr. intros [= <- <- <-]. split; [exact Hcm | eauto].
  - rewrite run_bind. cbv beta.
    match goal with
    | |- context [match ?rest (Classes true (logger s) (cm_config s)) with
                  | _ => _ end] =>
        assert (Hkeeps : keeps_conf_man rest);
          [|destruct (rest (Classes true (logger s) (cm_config s)))
              as [[[s' t'] [[]|e]]|] eqn:Hblock]
    end; try discriminate.
    + apply bind_keeps_conf_man; [apply on_store_keeps_conf_man |]. intros _.
      apply bind_keeps_conf_man; [apply on_store_keeps_conf_man |].
      intros logging_config.
      apply bind_keeps_conf_man.
      { intros x x' t r [= <- _ _]. reflexivity. }
      intros _. apply bind_keeps_conf_man.
      { intros x x' t r [= <- _ _]. reflexivity. }
      intros _ x x' t r [= <- _ _]. reflexivity.
    + destruct (read_properties_reads s') as (t & b & Hr & _).
      cbn. rewrite Hr. intros [= <- <- <-].
      split; [|eauto]. exact (Hkeeps _ _ _ _ Hblock).
Qed.

(** X10: the configuration is loaded once for the whole process.  After a
    construction that returned, a second construction, whatever path it is
    given and whatever the files now hold, reads no file, configures no
    logging and changes nothing: it returns an instance with the same
    attributes as the first, having at most printed the names of the
    properties that are missing. *)
Theorem second_construction_reuses_first
    (read_json read_json' : string -> outcome (gmap string V))
    (dict_config dict_config' : option V -> outcome unit)
    (path path' : string) (s s1 : classes V) (t1 : list event)
    (b1 : bouncer V) :
  init read_json dict_config path s = Some (s1, t1, Returned b1) ->
  exists t2,
    init read_json' dict_config' path' s1 = Some (s1, t2, Returned b1)
    /\ Forall (fun e => is_print e = true) t2.
Proof.
  intros Hinit.
  destruct (init_sets_conf_man _ _ _ _ _ _ _ Hinit) as (Hcm & t & Hread).
  destruct (read_properties_reads s1) as (t2 & b2 & Hread2 & Ht2).
  exists t2. split; [|exact Ht2].
  unfold init. rewrite run_bind, Hcm. cbn. rewrite Hread2.
  rewrite Hread in Hread2. injection Hread2 as <- <-. reflexivity.
Qed.
End Construction.

(** ** Credentials *)

Section CredentialProperties.
Context {W : Type} (provider : credential_provider W).
Variables (scopes : list string) (credentials_file token_file : string).

(** X11: the credentials that [__get_credentials] returns are either the
    valid ones of the token file, and then nothing was refreshed, asked of
    the user or written, or they were obtained in this call by exactly one
    of refresh and consent flow and written to the token file before the
    method returned. *)
Theorem returned_credentials_valid_or_stored (w w' : W)
    (t : list credential_event) (c : credentials) :
  get_credentials provider scopes credentials_file token_file w
  = (w', t, Returned c) ->
  (valid c = true
   /\ Forall (fun e => is_refresh e || is_consent e || is_token_write e = false) t)
  \/ (In (WriteToken token_file (to_json c)) t
      /\ length (List.filter (fun e => is_refresh e || is_consent e) t)
         = 1%nat).
Proof.
  intros Hrun.
  unfold get_credentials, renew_credentials, store_credentials in Hrun.
  credential_cases Hrun; inversion Hrun; subst;
    first
      [ left; split; [assumption | repeat constructor]
      | right; split; [cbn; tauto | reflexivity] ].
Qed.

(** X12: whatever the provider answers, one call of [__get_credentials]
    renews the credentials at most once, by a refresh or by the consent
    flow and never by both, and it writes the token file at most once and
    only in a call that renewed. *)
Theorem at_most_one_renewal_and_write (w : W) :
  let t :=
    (get_credentials provider scopes credentials_file token_file w).1.2 in
  (length (List.filter (fun e => is_refresh e || is_consent e) t) <= 1)%nat
  /\ (length (List.filter is_token_write t)
      <= length (List.filter (fun e => is_refresh e || is_consent e) t))%nat.
Proof.
  cbv zeta.
  destruct (get_credentials provider scopes credentials_file token_file w)
    as [[w' t] r] eqn:Hrun.
  unfold get_credentials, renew_credentials, store_credentials in Hrun.
  credential_cases Hrun; inversion Hrun; subst; cbn; lia.
Qed.

(** X13: when the stored credentials are not valid, have expired and carry
    a refresh token, and the refresh raises, nothing is written and the user
    is not asked: an exception of the class [RefreshError] or of a class
    derived from it is logged as a warning and turned into [sys.exit()],
    which ends the process with status 0; any other exception leaves the
    method as it is, unlogged. *)
Theorem refresh_failure_exits_or_propagates (w w1 w2 : W) (c : credentials)
    (e : exn) :
  token_exists provider token_file w = true ->
  from_authorized_user_file provider token_file scopes w = (w1, Returned c) ->
  valid c = false ->
  expired c = true ->
  truthy (refresh_token c) = true ->
  refresh provider c w1 = (w2, Raised e) ->
  let before :=
    [CredLog DEBUG "getting gmail credentials";
     CredLog DEBUG (pyformat "found gmail credentials at %s" [token_file]);
     LoadToken token_file;
     RefreshToken] in
  get_credentials provider scopes credentials_file token_file w
  = (if bool_decide (exc_name e = "RefreshError"
                     \/ exc_name e ∈ refresh_error_subclasses provider)
     then (w2,
           before ++
           [CredLog WARNING
              ("Gmail credentials expired, need to update manually, "
               +:+ "aborting processing")],
           Raised (SystemExit None))
     else (w2, before, Raised e))
  /\ exit_status (Raised (SystemExit None)) = 0%Z.
Proof.
  intros Hexists Hload Hvalid Hexpired Htoken Hrefresh before.
  split; [|reflexivity].
  unfold get_credentials, renew_credentials.
  rewrite Hexists, Hload, Hvalid, Hexpired, Htoken. cbn [andb].
  rewrite Hrefresh.
  assert (is_refresh_error provider e
          = bool_decide (exc_name e = "RefreshError"
                         \/ exc_name e ∈ refresh_error_subclasses provider))
    as ->.
  { unfold is_refresh_error.
    destruct (String.eqb_spec (exc_name e) "RefreshError") as [Hname|Hname];
      cbn [orb].
    - symmetry. apply bool_decide_eq_true. now left.
    - apply bool_decide_ext. split; [now right |]. now intros [?|?]. }
  destruct (bool_decide _); reflexivity.
Qed.
End CredentialProperties.

(** ** More on [send_reply] *)

Section SendReplyTally.
Context {W : Type} (env : environment W) (cfg : config).

(** One turn of the loop, counted. *)
Lemma send_attempt_tally (raw : reply_message) (keep : bool) (w : W) :
  exists w' t b,
    send_attempt env cfg raw keep w = Some (w', t, Returned b)
    /\ (keep = false -> ~ can_sleep env (delete_delay cfg) -> b = false)
    /\ (keep = true \/ can_sleep env (delete_delay cfg) ->
        count is_warning t
        = (count is_send_failure t + count is_delete_failure t)%nat)
    /\ (keep = true ->
        count is_sent t = bit b /\ count is_delete_reply t = 0%nat
        /\ count is_sleep t = 0%nat)
    /\ (keep = false -> can_sleep env (delete_delay cfg) ->
        count is_sent t = (bit b + count is_delete_failure t)%nat
        /\ count is_deleted t = bit b).
Proof.
  unfold send_attempt. unfold_engine.
  destruct (messages_send env raw w) as [w1 [id|e]]; cbn.
  - destruct keep; cbn.
    + eexists _, _, _. split; [reflexivity |].
      repeat split; try reflexivity; try discriminate.
    + destruct (Z.ltb_spec (delete_delay cfg) 0) as [Hneg|Hpos]; cbn;
        [|destruct (sleep_refused env (delete_delay cfg)) as [refusal|]
            eqn:Htakes; cbn].
      * eexists _, _, _. split; [reflexivity |]. tally.
      * eexists _, _, _. split; [reflexivity |]. tally.
      * destruct (messages_delete env id w1) as [w2 [[]|e]]; cbn;
          eexists _, _, _; (split; [reflexivity |]); tally.
  - eexists _, _, _. split; [reflexivity |].
    repeat split; try reflexivity; try discriminate; try lia.
Qed.

Lemma send_loop_tally (fuel : nat) (raw : reply_message) (keep : bool)
    (w w' : W) (t : list event) (r : outcome unit) :
  send_loop env cfg fuel raw keep w = Some (w', t, r) ->
  (keep = true \/ can_sleep env (delete_delay cfg))
  /\ count is_warning t
     = (count is_send_failure t + count is_delete_failure t)%nat
  /\ (keep = true ->
      count is_sent t = 1%nat /\ count is_delete_reply t = 0%nat
      /\ count is_sleep t = 0%nat)
  /\ (keep = false ->
      count is_sent t = (1 + count is_delete_failure t)%nat
      /\ count is_deleted t = 1%nat).
Proof.
  revert w t. induction fuel as [|fuel IH]; intros w t; [discriminate |].
  cbn [send_loop]. rewrite run_bind.
  destruct (send_attempt_tally raw keep w)
    as (w1 & t1 & b & -> & Hneg & Hwarn & Hkeep & Hdrop).
  assert (Hcfg : b = true -> keep = true \/ can_sleep env (delete_delay cfg)).
  { intros ->. destruct keep; [now left | right].
    destruct (Z.le_gt_cases 0 (delete_delay cfg)) as [Hpos|Hlt];
      [destruct (sleep_refused env (delete_delay cfg)) as [refusal|]
         eqn:Htakes|].
    - assert (~ can_sleep env (delete_delay cfg)) as Hno
        by (intros [_ ?]; congruence).
      specialize (Hneg eq_refl Hno). discriminate.
    - split; assumption.
    - assert (~ can_sleep env (delete_delay cfg)) as Hno
        by (intros [? _]; lia).
      specialize (Hneg eq_refl Hno). discriminate. }
  destruct b.
  - cbn. intros [= <- <- <-]. rewrite app_nil_r.
    specialize (Hcfg eq_refl). split; [exact Hcfg |].
    split; [exact (Hwarn Hcfg) |]. split.
    + exact Hkeep.
    + intros ->. destruct Hcfg as [?|Hpos]; [discriminate |].
      destruct (Hdrop eq_refl Hpos) as [Hs Hd]. cbn in Hs, Hd. split; lia.
  - destruct (send_loop env cfg fuel raw keep w1) as [[[w2 t2] r2]|] eqn:Hl;
      [|discriminate].
    intros [= <- <- <-].
    destruct (IH _ _ Hl) as (Hcfg' & Hwarn' & Hkeep' & Hdrop').
    rewrite !count_app. split; [exact Hcfg' |].
    specialize (Hwarn Hcfg'). split; [lia |]. split.
    + intros Hk. destruct (Hkeep Hk) as (? & ? & ?).
      destruct (Hkeep' Hk) as (? & ? & ?). cbn [bit] in *. lia.
    + intros Hk. destruct Hcfg' as [?|Hpos]; [congruence |].
      destruct (Hdrop Hk Hpos) as [? ?]. destruct (Hdrop' Hk) as [? ?].
      cbn [bit] in *. lia.
Qed.

Lemma send_reply_loop (fuel : nat) (raw : reply_message) (keep : bool)
    (index : Z) (w w' : W) (t : list event) (r : outcome unit) :
  send_reply env cfg fuel raw keep index w = Some (w', t, r) ->
  r = Returned tt
  /\ exists t',
      send_loop env cfg fuel raw keep w = Some (w', t', Returned tt)
      /\ forall q : event -> bool,
          (forall lvl text, lvl <> WARNING -> q (Log lvl text) = false) ->
          count q t = count q t'.
Proof.
  unfold send_reply. rewrite run_log_then, run_bind.
  destruct (send_loop env cfg fuel raw keep w) as [[[w1 t1] r1]|] eqn:Hl;
    [|discriminate].
  destruct (send_loop_returned _ _ _ _ _ _ _ _ _ Hl) as [-> _].
  cbn. intros [= <- <- <-]. split; [reflexivity |].
  exists t1. split; [reflexivity |]. intros q Hq.
  rewrite count_cons, count_app, count_cons, !Hq by discriminate.
  cbn. lia.
Qed.

(** X14: [send_reply] never raises.  Whatever the service raises on a send
    or on a delete, the call goes on; once it returns it returns normally,
    having logged one warning for each send and each delete that failed. *)
Theorem send_reply_swallows_every_failure (fuel : nat) (raw : reply_message)
    (keep : bool) (index : Z) (w w' : W) (t : list event) (r : outcome unit) :
  send_reply env cfg fuel raw keep index w = Some (w', t, r) ->
  r = Returned tt
  /\ count is_warning t
     = (count is_send_failure t + count is_delete_failure t)%nat.
Proof.
  intros Hrun.
  destruct (send_reply_loop _ _ _ _ _ _ _ _ Hrun) as (-> & t' & Hl & Hq).
  split; [reflexivity |].
  destruct (send_loop_tally _ _ _ _ _ _ _ Hl) as (_ & Hwarn & _).
  rewrite (Hq is_send_failure), (Hq is_delete_failure) by reflexivity.
  rewrite <- Hwarn.
  unfold send_reply in Hrun. rewrite run_log_then, run_bind, Hl in Hrun.
  cbn in Hrun. injection Hrun as <-.
  rewrite count_cons, count_app, count_cons. cbn. lia.
Qed.

(** X15: with [keep_reply] true a call that returned has delivered the
    reply exactly once, however many sends failed before, and has neither
    waited nor deleted anything. *)
Theorem kept_reply_sent_once (fuel : nat) (raw : reply_message) (index : Z)
    (w w' : W) (t : list event) (r : outcome unit) :
  send_reply env cfg fuel raw true index w = Some (w', t, r) ->
  count is_sent t = 1%nat
  /\ count is_delete_reply t = 0%nat
  /\ count is_sleep t = 0%nat.
Proof.
  intros Hrun.
  destruct (send_reply_loop _ _ _ _ _ _ _ _ Hrun) as (_ & t' & Hl & Hq).
  destruct (send_loop_tally _ _ _ _ _ _ _ Hl) as (_ & _ & Hkeep & _).
  rewrite (Hq is_sent), (Hq is_delete_reply), (Hq is_sleep) by reflexivity.
  exact (Hkeep eq_refl).
Qed.

(** X16: with [keep_reply] false a call that returned has deleted one
    reply and has delivered one reply more than deletes failed: each failed
    delete leaves a delivered copy behind and sends the reply again.  (The
    delay was one that [time.sleep] accepts, or the call would not have
    returned.) *)
Theorem dropped_reply_resent_after_each_failed_delete (fuel : nat)
    (raw : reply_message) (index : Z) (w w' : W) (t : list event)
    (r : outcome unit) :
  send_reply env cfg fuel raw false index w = Some (w', t, r) ->
  count is_deleted t = 1%nat
  /\ count is_sent t = (1 + count is_delete_failure t)%nat
  /\ can_sleep env (delete_delay cfg).
Proof.
  intros Hrun.
  destruct (send_reply_loop _ _ _ _ _ _ _ _ Hrun) as (_ & t' & Hl & Hq).
  destruct (send_loop_tally _ _ _ _ _ _ _ Hl) as (Hcfg & _ & _ & Hdrop).
  rewrite (Hq is_sent), (Hq is_deleted), (Hq is_delete_failure) by reflexivity.
  destruct (Hdrop eq_refl) as [Hs Hd].
  destruct Hcfg as [?|Hpos]; [discriminate |]. auto.
Qed.

(** X17: with [keep_reply] false and a [delete_delay] that [time.sleep]
    does not take, a negative one or one too long for the platform, the call
    never returns, in any world: the delay is refused after every delivered
    send, and the loop sends again. *)
Theorem negative_delay_never_returns (fuel : nat) (raw : reply_message)
    (index : Z) (w : W) :
  ~ can_sleep env (delete_delay cfg) ->
  send_reply env cfg fuel raw false index w = None.
Proof.
  intros Hneg.
  destruct (send_reply env cfg fuel raw false index w) as [[[w' t] r]|] eqn:Hrun;
    [|reflexivity].
  destruct (send_reply_loop _ _ _ _ _ _ _ _ Hrun) as (_ & t' & Hl & _).
  destruct (send_loop_tally _ _ _ _ _ _ _ Hl) as ([?|Hpos] & _);
    [discriminate | contradiction].
Qed.
End SendReplyTally.

(** ** More on the header lookup *)

Lemma get_header_field_from_sound (k : Z) (headers : list header)
    (field_name : string) :
  (get_header_field_from k headers field_name
   = {| hf_index := -1; hf_value := None |}
   /\ Forall (fun h => h_name h <> field_name) headers)
  \/ (exists i info,
        get_header_field_from k headers field_name
        = {| hf_index := k + Z.of_nat i; hf_value := Some (h_value info) |}
        /\ headers !! i = Some info
        /\ h_name info = field_name
        /\ forall j info', (j < i)%nat -> headers !! j = Some info' ->
                           h_name info' <> field_name).
Proof.
  revert k. induction headers as [|h rest IH]; intros k; cbn.
  - left. split; [reflexivity | constructor].
  - destruct (String.eqb (h_name h) field_name) eqn:E.
    + apply String.eqb_eq in E. right. exists 0%nat, h.
      split; [f_equal; lia |]. split; [reflexivity |]. split; [exact E |].
      intros j info' Hj. lia.
    + apply String.eqb_neq in E.
      destruct (IH (k + 1)%Z) as [[Hr Hall]|(i & info & Hr & Hi & Hn & Hb)].
      * left. split; [exact Hr | constructor; assumption].
      * right. exists (S i), info. rewrite Hr.
        split; [f_equal; lia |]. split; [exact Hi |]. split; [exact Hn |].
        intros [|j] info' Hj Hl; cbn in Hl.
        -- injection Hl as <-. exact E.
        -- apply (Hb j info'); [lia | exact Hl].
Qed.

(** X18: what the lookup returns can be relied on.  Either it is index -1
    with value [None], and then no header of the list has the name; or the
    index is a position of the list, the header there has the name, the
    value is that header's value, and no earlier header has the name.  An
    index out of range, or the value of a header of another name, is never
    returned. *)
Theorem get_header_field_sound (headers : list header) (field_name : string) :
  (get_header_field headers field_name
   = {| hf_index := -1; hf_value := None |}
   /\ Forall (fun h => h_name h <> field_name) headers)
  \/ (exists i info,
        get_header_field headers field_name
        = {| hf_index := Z.of_nat i; hf_value := Some (h_value info) |}
        /\ headers !! i = Some info
        /\ h_name info = field_name
        /\ forall j info', (j < i)%nat -> headers !! j = Some info' ->
                           h_name info' <> field_name).
Proof. exact (get_header_field_from_sound 0 headers field_name). Qed.

(** ** More on the pass *)

Lemma deleted_app (t1 t2 : list event) :
  deleted (t1 ++ t2) = deleted t1 ++ deleted t2.
Proof. apply omap_app. Qed.

Lemma deleted_cons (e : event) (t : list event) :
  deleted (e :: t)
  = match e with DeleteOriginal id _ => id :: deleted t | _ => deleted t end.
Proof. destruct e; reflexivity. Qed.

Lemma no_original_deleted (t : list event) :
  count is_delete_original t = 0%nat -> deleted t = [].
Proof.
  induction t as [|e t IH]; [reflexivity |].
  rewrite count_cons, deleted_cons. destruct e; cbn; try (intros; lia); exact IH.
Qed.

Lemma for_each_app {W A} (xs ys : list A) (body : A -> M W unit) (w w1 : W)
    (t1 : list event) :
  for_each xs body w = Some (w1, t1, Returned tt) ->
  for_each (xs ++ ys) body w
  = match for_each ys body w1 with
    | Some (w2, t2, r) => Some (w2, t1 ++ t2, r)
    | None => None
    end.
Proof.
  revert w t1. induction xs as [|x xs IH]; intros w t1; cbn [for_each app].
  - intros [= <- <-]. destruct (for_each ys body w) as [[[w2 t2] r]|];
      reflexivity.
  - rewrite !run_bind.
    destruct (body x w) as [[[wa ta] [[]|e]]|]; try discriminate.
    destruct (for_each xs body wa) as [[[wb tb] rb]|] eqn:Hxs; [|discriminate].
    intros [= <- <- ->]. rewrite (IH _ _ Hxs).
    destruct (for_each ys body wb) as [[[w2 t2] r]|]; [|reflexivity].
    now rewrite app_assoc.
Qed.

Section PassErrors.
Context {W : Type} (env : environment W) (cfg : config).

(** X19: a matched message whose fields cannot be extracted (its first
    part does not decode, or its list of parts is empty) is neither answered
    nor deleted: the loop body raises the exception of the extraction with
    the world as the fetch left it, having made no send and no delete
    call. *)
Theorem unextractable_message_left_in_mailbox (fuel : nat) (id : string)
    (w w1 : W) (m : message) (sender : string) (attrs : reply_attributes)
    (e : exn) :
  messages_get env id w = (w1, Returned m) ->
  hf_value (get_header_field (headers m) "From") = Some sender ->
  sender <> "" ->
  reply_mapping cfg !! sender = Some attrs ->
  process_message (b64_utf8_decode env) m = Raised e ->
  exists t,
    execute_message env cfg fuel id w = Some (w1, t, Raised e)
    /\ count is_send t = 0%nat
    /\ count is_delete_reply t = 0%nat
    /\ count is_delete_original t = 0%nat.
Proof.
  intros Hget Hv Hne Hattrs Hproc. eexists. split.
  - unfold execute_message. unfold_engine.
    rewrite Hget, (matched_sender cfg _ sender attrs Hv Hne Hattrs), Hv. cbn.
    rewrite Hattrs, Hproc. reflexivity.
  - repeat split; reflexivity.
Qed.

(** X20: with a pool size below one, a matched message whose policy has
    the key ["multiple"] is neither answered nor deleted, whatever the
    number of replies asked for: the pool cannot be built, and the loop body
    raises [ValueError] after announcing the replies, having made no send
    and no delete call. *)
Theorem pool_size_below_one_aborts (fuel : nat) (id : string) (w w1 : W)
    (m : message) (sender : string) (attrs : reply_attributes)
    (multiple : Z)
    (fields : header_field * header_field * header_field * string) :
  messages_get env id w = (w1, Returned m) ->
  hf_value (get_header_field (headers m) "From") = Some sender ->
  sender <> "" ->
  reply_mapping cfg !! sender = Some attrs ->
  process_message (b64_utf8_decode env) m = Returned fields ->
  ra_multiple attrs = Some multiple ->
  (pool_size cfg < 1)%Z ->
  exists t,
    execute_message env cfg fuel id w
    = Some (w1, t,
            Raised
              (Error "ValueError" "Number of processes must be at least 1"))
    /\ count (announces_pool multiple) t = 1%nat
    /\ count is_send t = 0%nat
    /\ count is_delete_reply t = 0%nat
    /\ count is_delete_original t = 0%nat.
Proof.
  intros Hget Hv Hne Hattrs Hproc Hmult Hpool.
  destruct fields as [[[date_field to_field] subject_field] body].
  rewrite (execute_message_matched_run env cfg fuel id w w1 m sender attrs
             _ _ _ _ Hget Hv Hne Hattrs Hproc).
  unfold send_replies, starmap_send_reply. rewrite Hmult.
  rewrite (proj2 (Z.ltb_lt _ _) Hpool). eexists. split; [reflexivity |].
  split; [| repeat split; reflexivity].
  cbn [app]. rewrite !count_cons. cbn [announces_pool count List.filter length].
  rewrite String.eqb_refl. reflexivity.
Qed.

(** X21: an exception raised while one message is handled ends the pass.
    When the identifiers before it were handled normally, the pass raises
    that exception with the world as that message left it, whatever
    identifiers come after: the messages fetched are those before it and
    itself, and no other. *)
Theorem exception_ends_the_pass (fuel : nat) (w w0 w1 w2 w3 w4 : W)
    (inbox_results spam_results : option (list string))
    (before rest : list string) (id : string) (t1 t2 : list event) (e : exn) :
  acquire_service env w = (w0, Returned tt) ->
  messages_list env "INBOX" 100 w0 = (w1, Returned inbox_results) ->
  messages_list env "SPAM" 100 w1 = (w2, Returned spam_results) ->
  default [] inbox_results ++ default [] spam_results = before ++ id :: rest ->
  for_each before (execute_message env cfg fuel) w2
  = Some (w3, t1, Returned tt) ->
  execute_message env cfg fuel id w3 = Some (w4, t2, Raised e) ->
  exists t,
    execute env cfg fuel w = Some (w4, t, Raised e)
    /\ fetched t = before ++ [id].
Proof.
  intros Hacq Hinbox Hspam Hmerged Hbefore Hid.
  exists (Log INFO "executing automatic message bouncing"
          :: ListMessages "INBOX" 100 :: ListMessages "SPAM" 100 :: t1 ++ t2).
  split.
  - unfold execute. unfold_engine. rewrite Hacq, Hinbox, Hspam. cbn [app].
    rewrite Hmerged, (for_each_app _ _ _ _ _ _ Hbefore).
    cbn [for_each]. rewrite run_bind, Hid. reflexivity.
  - rewrite !fetched_cons, fetched_app.
    destruct (for_each_fetches env cfg fuel _ _ _ _ _ Hbefore) as (_ & _ & ->);
      [|reflexivity].
    destruct (execute_message_fetches env cfg fuel _ _ _ _ _ Hid) as [-> _].
    reflexivity.
Qed.
End PassErrors.

Section PassDeletes.
Context {W : Type} (env : environment W) (cfg : config).

(** The replies of a message never delete a received message. *)
Lemma send_replies_no_original_delete (fuel : nat) (raw : reply_message)
    (attrs : reply_attributes) (w w' : W) (t : list event) (r : outcome unit) :
  send_replies env cfg fuel raw attrs w = Some (w', t, r) ->
  count is_delete_original t = 0%nat.
Proof.
  destruct (Z.ltb_spec (pool_size cfg) 1) as [Hsmall|Hpool].
  - destruct (ra_multiple attrs) as [n|] eqn:Hn.
    + unfold send_replies, starmap_send_reply. rewrite Hn.
      rewrite (proj2 (Z.ltb_lt _ _) Hsmall). unfold_engine.
      intros [= <- <- <-]. reflexivity.
    + intros Hrun.
      destruct (send_replies_returned env cfg fuel raw attrs w w' t r) as
        (_ & core & -> & Hcore);
        [rewrite Hn; intros [? ?]; discriminate | exact Hrun |].
      rewrite Hn, app_nil_r. cbn [app].
      rewrite (Hcore is_delete_original)
        by (intros [[]| | | | | | |]; cbn; congruence).
      rewrite (sum_list_with_ext _ (fun _ => 0%nat)) by reflexivity.
      apply sum_list_with_zero.
  - intros Hrun.
    destruct (send_replies_returned env cfg fuel raw attrs w w' t r) as
      (_ & core & -> & Hcore); [intros _; lia | exact Hrun |].
    rewrite !count_app.
    rewrite (Hcore is_delete_original)
      by (intros [[]| | | | | | |]; cbn; congruence).
    rewrite (sum_list_with_ext _ (fun _ => 0%nat)) by reflexivity.
    rewrite sum_list_with_zero. destruct (ra_multiple attrs); reflexivity.
Qed.

(** The loop body deletes nothing but the message it was given, and that at
    most once. *)
Lemma execute_message_deletes (fuel : nat) (id : string) (w w' : W)
    (t : list event) (r : outcome unit) :
  execute_message env cfg fuel id w = Some (w', t, r) ->
  deleted t = [] \/ deleted t = [id].
Proof.
  unfold execute_message. unfold_engine.
  destruct (messages_get env id w) as [w1 [m|e]];
    [|intros [= <- <- <-]; left; reflexivity].
  destruct (unmatched cfg _); [intros [= <- <- <-]; left; reflexivity |].
  destruct (hf_value _) as [v|]; cbn;
    [|intros [= <- <- <-]; left; reflexivity].
  destruct (reply_mapping cfg !! v) as [attrs|];
    [|intros [= <- <- <-]; left; reflexivity].
  destruct (process_message _ m) as [[[[date_field to_field] subject_field] body]|e];
    [|intros [= <- <- <-]; left; reflexivity].
  destruct (send_replies _ _ _ _ _ _) as [[[w2 t2] r2]|] eqn:Hrun;
    [|discriminate].
  pose proof (no_original_deleted t2
                (send_replies_no_original_delete _ _ _ _ _ _ _ Hrun)) as Hd.
  destruct r2 as [[]|e]; [destruct (messages_delete env id w2) as [w3 [[]|e]] |];
    intros [= <- <- <-]; cbn [app];
    rewrite ?deleted_cons, ?deleted_app, ?deleted_cons, ?Hd;
    auto.
Qed.

Lemma for_each_deletes (fuel : nat) (ids : list string) (w w' : W)
    (t : list event) (r : outcome unit) :
  for_each ids (execute_message env cfg fuel) w = Some (w', t, r) ->
  deleted t `sublist_of` fetched t.
Proof.
  revert w t. induction ids as [|id ids IH]; intros w t; cbn [for_each].
  - intros [= <- <- <-]. reflexivity.
  - rewrite run_bind.
    destruct (execute_message env cfg fuel id w) as [[[w1 t1] r1]|] eqn:Hm;
      [|discriminate].
    destruct (execute_message_fetches env cfg fuel id w w1 t1 r1 Hm) as [Hf _].
    assert (deleted t1 `sublist_of` fetched t1) as Hone.
    { rewrite Hf. destruct (execute_message_deletes fuel id w w1 t1 r1 Hm)
        as [-> | ->]; [apply sublist_nil_l | reflexivity]. }
    destruct r1 as [[]|e].
    + destruct (for_each ids _ w1) as [[[w2 t2] r2]|] eqn:Hrest; [|discriminate].
      intros [= <- <- <-]. rewrite deleted_app, fetched_app.
      apply sublist_app; [exact Hone | exact (IH _ _ Hrest)].
    + intros [= <- <- <-]. exact Hone.
Qed.

(** X22: a pass deletes only received messages it has fetched itself, each at
    most once for each time it fetched it, and in the order of the fetches:
    the identifiers handed to the delete call of the loop are a sublist of
    those handed to the fetch call, however the pass ends. *)
Theorem deleted_messages_were_fetched (fuel : nat) (w w' : W)
    (t : list event) (r : outcome unit) :
  execute env cfg fuel w = Some (w', t, r) ->
  deleted t `sublist_of` fetched t.
Proof.
  unfold execute. unfold_engine.
  destruct (acquire_service env w) as [w0 [[]|e]];
    [|intros [= <- <- <-]; apply sublist_nil_l].
  destruct (messages_list env "INBOX" 100 w0) as [w1 [inbox_results|e]];
    [|intros [= <- <- <-]; apply sublist_nil_l].
  destruct (messages_list env "SPAM" 100 w1) as [w2 [spam_results|e]];
    [|intros [= <- <- <-]; apply sublist_nil_l].
  cbn [app].
  destruct (for_each _ _ w2) as [[[w3 t3] r3]|] eqn:Hloop; [|discriminate].
  pose proof (for_each_deletes _ _ _ _ _ _ Hloop) as Hsub.
  destruct r3 as [[]|e]; intros [= <- <- <-];
    rewrite ?deleted_cons, ?fetched_cons, ?deleted_app, ?fetched_app;
    cbn; rewrite ?app_nil_r; exact Hsub.
Qed.
End PassDeletes.

(** ** Totals over the replies of one message *)

Lemma count_or_none (q1 q2 : event -> bool) (t : list event) :
  count (fun e => q1 e || q2 e) t = 0%nat ->
  count q1 t = 0%nat /\ count q2 t = 0%nat.
Proof.
  induction t as [|e t IH]; [auto |].
  rewrite !count_cons. destruct (q1 e), (q2 e); cbn; intros; lia.
Qed.

Section Balance.
Context {W : Type} (env : environment W) (cfg : config).
Variables q c : event -> bool.
Variable owed : task -> progress -> nat.
Variable inv : task -> progress -> Prop.
Hypothesis finished_owes_nothing : forall t, owed t Finished = 0%nat.
Hypothesis step_balances : forall t p w w' tr p',
  inv t p ->
  worker_step env cfg t p w = Some (w', tr, Returned p') ->
  inv t p' /\ (count q tr + owed t p' = owed t p + count c tr)%nat.

(** A worker on its own that came to its end counted what it owed, and one
    more for each event that [c] charges. *)
Lemma run_worker_balance (fuel : nat) (t : task) (p : progress) (w w' : W)
    (tr : list event) (r : outcome unit) :
  inv t p ->
  run_worker env cfg fuel t p w = Some (w', tr, r) ->
  count q tr = (owed t p + count c tr)%nat.
Proof.
  revert p w tr. induction fuel as [|fuel IH]; intros p w tr Hinv.
  - destruct p; try discriminate. intros [= <- <- <-].
    now rewrite finished_owes_nothing.
  - destruct p; cbn [run_worker];
      try (intros [= <- <- <-]; now rewrite finished_owes_nothing);
      rewrite run_bind;
      (destruct (worker_step env cfg t _ w) as [[[w1 t1] [p'|e]]|] eqn:Hstep;
       [| |discriminate]);
      try (destruct t as [[raw keep] index];
           match type of Hstep with
           | worker_step _ _ _ ?p0 _ = _ =>
               destruct (worker_step_runs env cfg raw keep index p0 w)
                 as (? & ? & ? & Heq & _)
           end; congruence);
      (destruct (run_worker env cfg fuel t p' w1) as [[[w2 t2] r2]|] eqn:Hrun;
       [|discriminate]);
      intros [= <- <- <-];
      destruct (step_balances _ _ _ _ _ _ Hinv Hstep) as [Hinv' Hpay];
      pose proof (IH _ _ _ Hinv' Hrun); rewrite !count_app; lia.
Qed.

(** The same for a pool, whatever the order in which its workers moved. *)
Lemma run_pool_balance (fuel : nat) (ws : list (task * progress)) (w w' : W)
    (tr : list event) (r : outcome unit) :
  Forall (fun tp : task * progress => inv tp.1 tp.2) ws ->
  run_pool env cfg fuel ws w = Some (w', tr, r) ->
  count q tr = (pool_debt owed ws + count c tr)%nat.
Proof.
  revert ws w tr. induction fuel as [|fuel IH]; intros ws w tr Hinv;
    cbn [run_pool];
    destruct (forallb (fun tp => is_finished tp.2) ws) eqn:Hall.
  - intros [= <- <- <-].
    now rewrite (debt_finished owed finished_owes_nothing ws Hall).
  - discriminate.
  - intros [= <- <- <-].
    now rewrite (debt_finished owed finished_owes_nothing ws Hall).
  - unfold_engine.
    destruct (next_worker env (length (movable cfg ws)) w) as [w0 k].
    destruct (movable cfg ws !! (k mod length (movable cfg ws))%nat) as [i|];
      [|discriminate].
    destruct (ws !! i) as [[t p]|] eqn:Hi; [|discriminate].
    destruct (worker_step env cfg t p w0) as [[[w1 t1] [p'|e]]|] eqn:Hstep;
      [| |discriminate].
    + destruct (run_pool env cfg fuel (<[i:=(t, p')]> ws) w1)
        as [[[w2 t2] r2]|] eqn:Hrun; [|discriminate].
      intros [= <- <- <-].
      pose proof (Forall_lookup_1 _ _ _ _ Hinv Hi) as Htp. cbn in Htp.
      destruct (step_balances _ _ _ _ _ _ Htp Hstep) as [Hinv' Hpay].
      assert (Forall (fun tp : task * progress => inv tp.1 tp.2)
                (<[i:=(t, p')]> ws)) as Hinvs
        by (apply Forall_insert; [exact Hinv | exact Hinv']).
      pose proof (IH _ _ _ Hinvs Hrun) as Hcount.
      pose proof (debt_insert owed ws i t p p' Hi).
      cbn [app]. rewrite !count_app. lia.
    + destruct t as [[raw keep] index].
      destruct (worker_step_runs env cfg raw keep index p w0)
        as (? & ? & ? & Heq & _).
      congruence.
Qed.
End Balance.

Section ReplyTotals.
Context {W : Type} (env : environment W) (cfg : config).

Lemma worker_step_send_balance (t : task) (p : progress) (w w' : W)
    (tr : list event) (p' : progress) :
  True ->
  worker_step env cfg t p w = Some (w', tr, Returned p') ->
  True /\ (count is_send tr + owes_send t p'
           = owes_send t p + count is_warning tr)%nat.
Proof.
  intros _. destruct t as [[raw keep] index].
  destruct p as [| |reply|reply|]; unfold worker_step, retry_on_error, finish;
    unfold_engine.
  - intros [= <- <- <-]. split; reflexivity.
  - destruct (messages_send env raw w) as [w1 [id|e]]; cbn;
      [destruct keep; cbn |]; intros [= <- <- <-]; split; reflexivity.
  - destruct (delete_delay cfg <? 0)%Z; cbn;
      [|destruct (sleep_refused env (delete_delay cfg)) as [refusal|]; cbn];
      intros [= <- <- <-]; split; reflexivity.
  - destruct (messages_delete env reply w) as [w1 [[]|e]]; cbn;
      intros [= <- <- <-]; split; reflexivity.
  - intros [= <- <- <-]. split; reflexivity.
Qed.

Lemma worker_step_delete_balance (keep : bool) (t : task) (p : progress)
    (w w' : W) (tr : list event) (p' : progress) :
  in_keeping keep t p ->
  worker_step env cfg t p w = Some (w', tr, Returned p') ->
  in_keeping keep t p'
  /\ (count (settles_reply keep) tr + owes_delete keep t p'
      = owes_delete keep t p + count (fun _ => false) tr)%nat.
Proof.
  destruct t as [[raw keep'] index]. intros [Hkeep Hat]. cbn in Hkeep.
  subst keep'. unfold in_keeping, keeps_reply in *. cbn [fst snd] in *.
  destruct p as [| |reply|reply|]; unfold worker_step, retry_on_error, finish;
    unfold_engine.
  - intros [= <- <- <-]. destruct keep; cbn; auto.
  - destruct (messages_send env raw w) as [w1 [id|e]]; cbn;
      destruct keep; cbn; intros [= <- <- <-]; cbn; auto.
    split; [|reflexivity]. split; [reflexivity | discriminate].
  - destruct keep; [destruct Hat as [_ []]; reflexivity |].
    destruct (delete_delay cfg <? 0)%Z; cbn;
      [|destruct (sleep_refused env (delete_delay cfg)) as [refusal|]; cbn];
      intros [= <- <- <-]; cbn;
      (split; [split; [reflexivity | discriminate] | reflexivity]).
  - destruct keep; [destruct Hat as [_ []]; reflexivity |].
    destruct (messages_delete env reply w) as [w1 [[]|e]]; cbn;
      intros [= <- <- <-]; cbn;
      (split; [split; [reflexivity | discriminate] | reflexivity]).
  - intros [= <- <- <-]. destruct keep; cbn; auto.
Qed.

Lemma pool_debt_constant (owed : task -> progress -> nat) (n : nat)
    (tasks : list task) :
  (forall t, owed t Pending = n) ->
  pool_debt owed (map (fun t => (t, Pending)) tasks) = (n * length tasks)%nat.
Proof.
  intros Hn. unfold pool_debt.
  induction tasks as [|t tasks IH]; cbn; [lia |]. rewrite IH, Hn. lia.
Qed.

(** What the block that answers one message counts, for any balance between
    what the workers owe at the start and what they are charged on the
    way, when it neither counts nor charges the debug records. *)
Lemma send_replies_balance (q c : event -> bool)
    (owed : task -> progress -> nat) (inv : task -> progress -> Prop)
    (n : nat) (fuel : nat) (raw : reply_message) (attrs : reply_attributes)
    (w w' : W) (t : list event) :
  (forall t, owed t Finished = 0%nat) ->
  (forall t, owed t Pending = n) ->
  (forall t p w w' tr p',
     inv t p ->
     worker_step env cfg t p w = Some (w', tr, Returned p') ->
     inv t p' /\ (count q tr + owed t p' = owed t p + count c tr)%nat) ->
  (forall i, inv (raw, default false (ra_keep_reply attrs), i) Pending) ->
  (forall text, q (Log DEBUG text) = false /\ c (Log DEBUG text) = false) ->
  send_replies env cfg fuel raw attrs w = Some (w', t, Returned tt) ->
  count q t = (n * length (reply_indices attrs) + count c t)%nat.
Proof.
  intros Hfin Hpending Hstep Hinv Hdebug. unfold send_replies, reply_indices.
  destruct (ra_multiple attrs) as [multiple|].
  - unfold starmap_send_reply. unfold_engine.
    destruct (pool_size cfg <? 1)%Z; [discriminate |].
    destruct (run_pool _ _ _ _ _) as [[[w1 t1] [[]|e]]|] eqn:Hrun;
      try discriminate.
    intros [= <- <-]. cbn [app]. rewrite !count_cons, !count_app, !count_cons.
    rewrite (proj1 (Hdebug _)), (proj2 (Hdebug _)).
    rewrite (proj1 (Hdebug _)), (proj2 (Hdebug _)).
    match type of Hrun with
    | run_pool _ _ _ ?ws _ = _ =>
        assert (Forall (fun tp : task * progress => inv tp.1 tp.2) ws) as Hws
    end.
    { apply Forall_forall. intros tp Hin.
      apply list_elem_of_fmap in Hin as (t0 & -> & Hin).
      apply list_elem_of_fmap in Hin as (i & -> & _). apply Hinv. }
    rewrite (run_pool_balance env cfg q c owed inv Hfin Hstep _ _ _ _ _ _
               Hws Hrun).
    rewrite (pool_debt_constant owed n _ Hpending), !length_map.
    cbn. lia.
  - intros Hrun. destruct (run_worker_send_reply env cfg _ _ _ _ _ _ _ _ Hrun)
      as [k Hworker].
    rewrite (run_worker_balance env cfg q c owed inv Hfin Hstep _ _ _ _ _ _ _
               (Hinv 0%Z) Hworker).
    rewrite Hpending. cbn. lia.
Qed.

(** X23: every warning costs one more send.  When the block of [execute]
    that answers one message comes to its end, the number of send calls it
    made is the number of replies of the policy plus the number of warnings
    written, whatever failed (a send, a delay or a delete) and in whatever
    order the workers of the pool moved. *)
Theorem each_warning_costs_one_send (fuel : nat) (raw : reply_message)
    (attrs : reply_attributes) (w w' : W) (t : list event) :
  send_replies env cfg fuel raw attrs w = Some (w', t, Returned tt) ->
  count is_send t
  = (length (reply_indices attrs) + count is_warning t)%nat.
Proof.
  intros Hrun.
  rewrite (send_replies_balance is_send is_warning owes_send
             (fun _ _ => True) 1 fuel raw attrs w w' t); try done.
  - lia.
  - intros ? ? ? ? ? ?. apply worker_step_send_balance.
Qed.

(** X24: the replies of one message are all deleted, or none is touched.
    When the block of [execute] that answers one message comes to its end:
    with a true [keep_reply] it made no delete call on a reply and did not
    wait; otherwise the successful deletes of replies are as many as the
    replies of the policy. *)
Theorem replies_deleted_unless_kept (fuel : nat) (raw : reply_message)
    (attrs : reply_attributes) (w w' : W) (t : list event) :
  send_replies env cfg fuel raw attrs w = Some (w', t, Returned tt) ->
  if default false (ra_keep_reply attrs)
  then count is_delete_reply t = 0%nat /\ count is_sleep t = 0%nat
  else count is_deleted t = length (reply_indices attrs).
Proof.
  intros Hrun.
  assert (count (fun _ : event => false) t = 0%nat) as Hzero
    by (apply count_none, Forall_forall; reflexivity).
  set (keep := default false (ra_keep_reply attrs)).
  assert (count (settles_reply keep) t
          = ((if keep then 0 else 1) * length (reply_indices attrs)
             + count (fun _ : event => false) t)%nat) as Hbalance.
  { apply (send_replies_balance (settles_reply keep) (fun _ => false)
             (owes_delete keep) (in_keeping keep) _ fuel raw attrs w w' t).
    - intros ?. destruct keep; reflexivity.
    - intros ?. destruct keep; reflexivity.
    - intros ? ? ? ? ? ? Hk Hs.
      exact (worker_step_delete_balance _ _ _ _ _ _ _ Hk Hs).
    - intros i. split; [reflexivity |]. intros Hk. split; [exact Hk | exact I].
    - intros text. destruct keep; split; reflexivity.
    - exact Hrun. }
  rewrite Hzero in Hbalance. destruct keep.
  - apply count_or_none. exact Hbalance.
  - change (count is_deleted t = (1 * length (reply_indices attrs) + 0)%nat)
      in Hbalance.
    rewrite Hbalance. lia.
Qed.
End ReplyTotals.

(** X25: of the parts of a message only the first is read.  Two messages
    with the same headers, the same snippet and the same first part (or
    both without the key, or both with an empty list) are extracted
    alike, whatever the decoder does. *)
Theorem process_message_reads_first_part
    (decode : string -> outcome string) (m m' : message) :
  headers m = headers m' ->
  snippet m = snippet m' ->
  head <$> parts m = head <$> parts m' ->
  process_message decode m = process_message decode m'.
Proof.
  unfold process_message. intros -> -> Hfirst.
  destruct (parts m) as [[|[[data|]] rest]|],
    (parts m') as [[|[[data'|]] rest']|]; cbn in Hfirst;
    try discriminate; try reflexivity.
  injection Hfirst as ->. reflexivity.
Qed.

(** * Scenarios for the rest of the package *)

(** A store with [pool_size] is given [delete_delay]. *)
Lemma add_property_then_get_witness :
  add_property "delete_delay" "1" (Some (<["pool_size" := "2"]> ∅))
  = Some (Some (<["delete_delay" := "1"]> (<["pool_size" := "2"]> ∅)), [],
          Returned true)
  /\ get_property "delete_delay"
       (Some (<["delete_delay" := "1"]> (<["pool_size" := "2"]> ∅)))
     = Some (Some (<["delete_delay" := "1"]> (<["pool_size" := "2"]> ∅)), [],
             Returned (Some "1")).
Proof.
  apply add_property_then_get.
  - apply insert_non_empty.
  - reflexivity.
Defined.

(** The empty dictionary refuses a read and a clear. *)
Lemma unloaded_store_refuses_witness :
  get_property "scopes" (Some (∅ : gmap string string))
  = Some (Some ∅, [Print "no configuration loaded"], Returned None)
  /\ clear_properties (Some (∅ : gmap string string))
     = Some (Some ∅, [Print "no configuration loaded"], Returned false).
Proof.
  assert (loaded (Some (∅ : gmap string string)) = false) as Hempty
    by (vm_compute; reflexivity).
  destruct (unloaded_store_refuses Cases.read_json (Some ∅) Hempty)
    as (_ & Hget & _ & _ & _ & _ & _ & Hclear).
  split; [exact (Hget "scopes") | exact Hclear].
Defined.

(** The file [empty.json] holds the empty object. *)
Lemma load_empty_object_is_not_loaded_witness :
  load_configuration Cases.read_json "empty.json" None
  = Some (Some ∅, [], Returned true)
  /\ forall name,
       get_property name (Some ∅)
       = Some (Some (∅ : gmap string string),
               [Print "no configuration loaded"], Returned None).
Proof.
  apply load_empty_object_is_not_loaded. reflexivity.
Defined.

(** A store with [pool_size] alone loses it. *)
Lemma remove_last_property_unloads_witness :
  remove_property "pool_size" (Some (<["pool_size" := "2"]> ∅))
  = Some (Some ∅, [], Returned true)
  /\ forall name' v',
       add_property name' v' (Some ∅)
       = Some (Some (∅ : gmap string string),
               [Print "no configuration loaded"], Returned false).
Proof.
  apply (remove_last_property_unloads (<["pool_size" := "2"]> ∅) "pool_size" "2").
  - reflexivity.
  - intros k Hk. rewrite lookup_insert_ne by congruence. apply lookup_empty.
Defined.

(** [pool_size] becomes [workers] and [pool_size] again. *)
Lemma rename_property_round_trip_witness :
  let m : gmap string string :=
    <["pool_size" := "2"]> (<["default_prefix" := "STOP"]> ∅) in
  rename_property "pool_size" "workers" (Some m)
  = Some (Some (<["workers" := "2"]> (delete "pool_size" m)), [],
          Returned true)
  /\ rename_property "workers" "pool_size"
       (Some (<["workers" := "2"]> (delete "pool_size" m)))
     = Some (Some m, [], Returned true).
Proof.
  apply rename_property_round_trip; reflexivity.
Defined.

(** [pool_size] is renamed to [default_prefix], which the store has. *)
Lemma rename_property_overwrites_witness :
  let m : gmap string string :=
    <["pool_size" := "2"]> (<["default_prefix" := "STOP"]> ∅) in
  exists m',
    rename_property "pool_size" "default_prefix" (Some m)
    = Some (Some m', [], Returned true)
    /\ m' !! "default_prefix" = Some "2"
    /\ m' !! "pool_size" = None
    /\ (forall k, k <> "pool_size" -> k <> "default_prefix" ->
                  m' !! k = m !! k)
    /\ S (size m') = size m.
Proof.
  apply (rename_property_overwrites _ "pool_size" "default_prefix" "2" "STOP");
    [reflexivity | reflexivity | discriminate].
Defined.

(** The file [more.json] has a [pool_size] of its own and a [delete_delay]. *)
Lemma add_configuration_merges_witness :
  let m : gmap string string := <["pool_size" := "2"]> ∅ in
  let new : gmap string string :=
    <["pool_size" := "4"]> (<["delete_delay" := "1"]> ∅) in
  add_configuration Cases.read_json "more.json" (Some m)
  = Some (Some (new ∪ m), [], Returned (Some true))
  /\ forall name, exists t,
       get_property name (Some (new ∪ m))
       = Some (Some (new ∪ m), t,
               Returned (match new !! name with
                         | Some v => Some v
                         | None => m !! name
                         end)).
Proof.
  apply add_configuration_merges.
  - apply insert_non_empty.
  - reflexivity.
Defined.

(** There is no file [lost.json]. *)
Lemma unreadable_file_keeps_store_witness :
  let c : option (gmap string string) := Some (<["pool_size" := "2"]> ∅) in
  let line :=
    Print (pyformat "%s not a valid JSON file, error:  %s"
             ["lost.json";
              format_error (Error "FileNotFoundError" "lost.json")]) in
  load_configuration Cases.read_json "lost.json" c
  = Some (c, [line], Returned false)
  /\ add_configuration Cases.read_json "lost.json" c
     = Some (c, [line], Returned None).
Proof.
  destruct (unreadable_file_keeps_store Cases.read_json "lost.json"
              (Error "FileNotFoundError" "lost.json")
              (Some (<["pool_size" := "2"]> ∅)) eq_refl) as [Hload Hadd].
  split; [exact Hload | apply Hadd; vm_compute; reflexivity].
Defined.

(** A first construction from [conf.json], then one from another path
    when every file is empty and the logging cannot be configured. *)
Lemma second_construction_reuses_first_witness :
  exists s1 t1 b1 t2,
    init Cases.read_json Cases.dict_config "conf.json" Cases.fresh_classes
    = Some (s1, t1, Returned b1)
    /\ init (fun _ => Returned ∅) (fun _ => Raised (Error "ValueError" "bad"))
         "other.json" s1
       = Some (s1, t2, Returned b1)
    /\ Forall (fun e => is_print e = true) t2.
Proof.
  eexists _, _, _.
  edestruct (second_construction_reuses_first Cases.read_json
               (fun _ => Returned ∅) Cases.dict_config
               (fun _ => Raised (Error "ValueError" "bad"))
               "conf.json" "other.json" Cases.fresh_classes)
    as (t2 & Hsecond & Hprints); [vm_compute; reflexivity |].
  exists t2. split; [vm_compute; reflexivity |]. split; [exact Hsecond | exact Hprints].
Defined.

(** The stored credentials have expired and the refresh renews them. *)
Lemma returned_credentials_valid_or_stored_witness :
  exists w' t,
    get_credentials Cases.provider ["https://mail.google.com/"]
      "credentials.json" "token.json" (Returned Cases.renewed)
    = (w', t, Returned Cases.renewed)
    /\ ((valid Cases.renewed = true
         /\ Forall (fun e => is_refresh e || is_consent e || is_token_write e
                             = false) t)
        \/ (In (WriteToken "token.json" (to_json Cases.renewed)) t
            /\ length (List.filter (fun e => is_refresh e || is_consent e) t)
               = 1%nat)).
Proof.
  eexists _, _. split; [reflexivity |].
  eapply (returned_credentials_valid_or_stored Cases.provider
            ["https://mail.google.com/"] "credentials.json" "token.json"
            (Returned Cases.renewed)).
  reflexivity.
Defined.

(** The refresh ends in a failed reauthentication, whose class derives from
    [RefreshError]. *)
Lemma refresh_failure_exits_or_propagates_witness :
  let failed := Raised (Error "ReauthFailError" "Reauthentication failed") in
  get_credentials Cases.provider ["https://mail.google.com/"]
    "credentials.json" "token.json" failed
  = (failed,
     [CredLog DEBUG "getting gmail credentials";
      CredLog DEBUG (pyformat "found gmail credentials at %s" ["token.json"]);
      LoadToken "token.json";
      RefreshToken;
      CredLog WARNING
        ("Gmail credentials expired, need to update manually, "
         +:+ "aborting processing")],
     Raised (SystemExit None))
  /\ exit_status (Raised (SystemExit None) : outcome unit) = 0%Z.
Proof.
  exact (refresh_failure_exits_or_propagates Cases.provider
           ["https://mail.google.com/"] "credentials.json" "token.json"
           _ _ _ Cases.stale (Error "ReauthFailError" "Reauthentication failed")
           eq_refl eq_refl eq_refl eq_refl eq_refl eq_refl).
Defined.

(** The first delete of the reply fails. *)
Lemma send_reply_swallows_every_failure_witness :
  exists w' t r,
    send_reply Script.env Script.cfg 5 Cases.reply false 0
      Script.delete_fails_once
    = Some (w', t, r)
    /\ r = Returned tt
    /\ count is_warning t
       = (count is_send_failure t + count is_delete_failure t)%nat.
Proof.
  eexists _, _, _. split; [reflexivity |].
  eapply (send_reply_swallows_every_failure Script.env
            Script.cfg 5 Cases.reply false 0 Script.delete_fails_once).
  reflexivity.
Defined.

(** A reply to keep whose first two sends fail. *)
Lemma kept_reply_sent_once_witness :
  exists w' t r,
    send_reply Script.env Script.cfg 5 Cases.reply true 0
      Script.send_fails_twice
    = Some (w', t, r)
    /\ count is_sent t = 1%nat
    /\ count is_delete_reply t = 0%nat
    /\ count is_sleep t = 0%nat.
Proof.
  eexists _, _, _. split; [reflexivity |].
  eapply (kept_reply_sent_once Script.env Script.cfg 5
            Cases.reply 0 Script.send_fails_twice).
  reflexivity.
Defined.

(** The first delete of the reply fails: two replies are delivered. *)
Lemma dropped_reply_resent_after_each_failed_delete_witness :
  exists w' t r,
    send_reply Script.env Script.cfg 5 Cases.reply false 0
      Script.delete_fails_once
    = Some (w', t, r)
    /\ count is_deleted t = 1%nat
    /\ count is_sent t = (1 + count is_delete_failure t)%nat
    /\ can_sleep Script.env (delete_delay Script.cfg).
Proof.
  eexists _, _, _. split; [reflexivity |].
  eapply (dropped_reply_resent_after_each_failed_delete
            Script.env Script.cfg 5 Cases.reply 0
            Script.delete_fails_once).
  reflexivity.
Defined.

(** A delay of -1: fifty turns of the loop are not enough. *)
Lemma negative_delay_never_returns_witness :
  send_reply Script.env Cases.hasty 50 Cases.reply false 0
    Script.quiet
  = None.
Proof.
  apply negative_delay_never_returns. intros [Hpos _]. cbn in Hpos. lia.
Defined.

(** The first part of the message [bad] does not decode. *)
Lemma unextractable_message_left_in_mailbox_witness :
  exists t,
    execute_message Script.env Script.cfg 20 "bad" Cases.vanished
    = Some (Cases.vanished, t,
            Raised (Error "UnicodeDecodeError" "invalid start byte"))
    /\ count is_send t = 0%nat
    /\ count is_delete_reply t = 0%nat
    /\ count is_delete_original t = 0%nat.
Proof.
  apply (unextractable_message_left_in_mailbox Script.env
           Script.cfg 20 "bad" Cases.vanished Cases.vanished Cases.garbled
           "spam@c.com" (ReplyAttributes None (Some "alt@c.com") None None)).
  - reflexivity.
  - reflexivity.
  - discriminate.
  - reflexivity.
  - reflexivity.
Defined.

(** Two replies are asked for and the pool size is 0. *)
Lemma pool_size_below_one_aborts_witness :
  exists t,
    execute_message Script.env Cases.no_pool 20 "m5"
      Script.quiet
    = Some (Script.quiet, t,
            Raised
              (Error "ValueError" "Number of processes must be at least 1"))
    /\ count (announces_pool 2) t = 1%nat
    /\ count is_send t = 0%nat
    /\ count is_delete_reply t = 0%nat
    /\ count is_delete_original t = 0%nat.
Proof.
  apply (pool_size_below_one_aborts Script.env Cases.no_pool
           20 "m5" Script.quiet Script.quiet
           (Script.mail "q@q.com" "twice" "again") "q@q.com"
           (ReplyAttributes (Some "GO AWAY") None (Some 2%Z) None) 2
           (HeaderField 0 (Some "Mon, 2 Nov 2026"),
            HeaderField 1 (Some "me@x.org"),
            HeaderField 3 (Some "twice"), "again")).
  - reflexivity.
  - reflexivity.
  - discriminate.
  - reflexivity.
  - reflexivity.
  - reflexivity.
  - reflexivity.
Defined.

(** [gone] is listed between [m2] and [m3] and cannot be fetched. *)
Lemma exception_ends_the_pass_witness :
  exists t,
    execute Script.env Script.cfg 20 Cases.vanished
    = Some (Cases.vanished, t, Raised (Error "HttpError" "404"))
    /\ fetched t = ["m2"] ++ ["gone"].
Proof.
  eapply (exception_ends_the_pass Script.env Script.cfg 20
            Cases.vanished Cases.vanished Cases.vanished Cases.vanished
            Cases.vanished Cases.vanished (Some ["m2"; "gone"]) (Some ["m3"])
            ["m2"] ["m3"] "gone").
  - reflexivity.
  - reflexivity.
  - reflexivity.
  - reflexivity.
  - reflexivity.
  - reflexivity.
Defined.

(** The pass over the quiet mailbox. *)
Lemma deleted_messages_were_fetched_witness :
  exists w' t r,
    execute Script.env Script.cfg 20 Script.quiet
    = Some (w', t, r)
    /\ deleted t `sublist_of` fetched t.
Proof.
  eexists _, _, _. split; [reflexivity |].
  eapply (deleted_messages_were_fetched Script.env Script.cfg 20
            Script.quiet).
  reflexivity.
Defined.

(** Three replies on two workers, the second send fails: four sends. *)
Lemma each_warning_costs_one_send_witness :
  let attrs := ReplyAttributes None None (Some 3%Z) (Some true) in
  exists w' t,
    send_replies Script.env Script.cfg 20 Cases.reply attrs
      Cases.busy_pool
    = Some (w', t, Returned tt)
    /\ count is_send t
       = (length (reply_indices attrs) + count is_warning t)%nat.
Proof.
  eexists _, _. split; [vm_compute; reflexivity |].
  eapply (each_warning_costs_one_send Script.env Script.cfg 20
            Cases.reply _ Cases.busy_pool).
  vm_compute. reflexivity.
Defined.

(** Two replies, the first delete fails: two replies deleted in the end. *)
Lemma replies_deleted_unless_kept_witness :
  let attrs := ReplyAttributes (Some "GO AWAY") None (Some 2%Z) None in
  exists w' t,
    send_replies Script.env Script.cfg 20 Cases.reply attrs
      Script.delete_fails_once
    = Some (w', t, Returned tt)
    /\ count is_deleted t = length (reply_indices attrs).
Proof.
  eexists _, _. split; [reflexivity |].
  eapply (replies_deleted_unless_kept Script.env Script.cfg 20
            Cases.reply (ReplyAttributes (Some "GO AWAY") None (Some 2%Z) None)
            Script.delete_fails_once).
  reflexivity.
Defined.

(** A second part changes nothing. *)
Lemma process_message_reads_first_part_witness :
  process_message (b64_utf8_decode Script.env) Cases.garbled
  = process_message (b64_utf8_decode Script.env)
      Cases.garbled_alone.
Proof.
  apply process_message_reads_first_part; reflexivity.
Defined.
